(** * Polling app: vote casting, tallying and poll editing

    A shallow embedding of the request handlers of the polling application
    (the vote route [app/api/polls/[id]/vote/route.ts], the poll route with
    its [GET]/[PUT] handlers, the tally helpers of the poll page and of the
    voting tests) together with a model of the relational store they talk
    to (tables, primary keys, the [unique(poll_id, visitor_id)] constraint,
    foreign keys with [on delete cascade]).

    Handlers are written in a small free monad over the store's queries:
    every [await supabase...] of the source is one [Call], so that a handler
    can be run alone against a store, run against an arbitrary environment,
    or interleaved with another request. *)

From Stdlib Require Import ZArith List String Ascii Bool Arith Lia Floats FinFun.
From Stdlib Require Import DecimalString DecimalPos DecimalN.
From Stdlib Require Import Sorted Permutation.
Import ListNotations.

Set Implicit Arguments.

Local Open Scope string_scope.
Local Open Scope list_scope.

(* ================================================================= *)
(** ** JavaScript numbers and the tally helpers *)

Module Js.

(** The result of [Math.round]: an integral Number, [NaN] or an infinity.
    The sign of a zero result is not tracked. *)
Inductive number : Type :=
| Int (z : Z)
| NaN
| Infinity (neg : bool).

(** A non-negative integer (an array length, a count) as a binary64 Number:
    the nearest double, exact below 2^53. *)
Definition Number (n : nat) : float :=
  SF2Prim (binary_normalize prec emax (Z.of_nat n) 0 false).

Definition signed (s : bool) (m : positive) : Z :=
  if s then Z.neg m else Z.pos m.

(** [Math.round(x)]: the integer closest to [x], a tie going towards
    +Infinity, that is floor(x + 1/2) in exact arithmetic.  A finite double
    is [signed s m * 2^e]. *)
Definition Math_round (x : float) : number :=
  match Prim2SF x with
  | S754_zero _ => Int 0
  | S754_infinity s => Infinity s
  | S754_nan => NaN
  | S754_finite s m e =>
      if (0 <=? e)%Z then Int (signed s m * 2 ^ e)
      else Int ((2 * signed s m + 2 ^ (- e)) / 2 ^ (- e + 1))
  end.

(** [Array.prototype.reduce] without an initial value: a [TypeError] on the
    empty array ([None]), otherwise the first element seeds the fold. *)
Definition reduce1 {A : Type} (f : A -> A -> A) (l : list A) : option A :=
  match l with
  | [] => None
  | x :: rest => Some (fold_left f rest x)
  end.

(** A template literal's rendering of a non-negative integer. *)
Definition decimal (n : N) : string :=
  NilZero.string_of_uint (N.to_uint n).

(** [s.substr(start, len)]. *)
Definition substr (start len : nat) (s : string) : string :=
  String.substring start len s.

End Js.

Import Js.

(** The option shape of the poll page and of the vote response:
    [{ id, text, position, votes }].  A count is an array length or a sum of
    such, an integer far below 2^53 where Number arithmetic on integers is
    exact: counts are natural numbers here and become doubles where the code
    divides. *)
Record OptionCount : Type := mkOptionCount {
  id : string;
  text : string;
  position : Z;
  votes : nat
}.


(** [options.reduce((sum, option) => sum + option.votes, 0)] *)
Definition totalVotes (options : list OptionCount) : nat :=
  fold_left (fun sum o => sum + votes o) options 0.

(** [getOptionPercentage] of [app/polls/[id]/page.tsx]:
[[
  if (total === 0) return 0
  return Math.round((votes / total) * 100)
]] *)
Definition getOptionPercentage (votes total : nat) : number :=
  if Nat.eqb total 0 then Int 0
  else Math_round (Number votes / Number total * 100)%float.


(** Winner determination of the voting tests:
[[
  options.reduce((prev, current) => prev.votes > current.votes ? prev : current)
]] *)
Definition pick (prev current : OptionCount) : OptionCount :=
  if Nat.ltb (votes current) (votes prev) then prev else current.

Definition winner (options : list OptionCount) : option OptionCount :=
  reduce1 pick options.


(** Against exact arithmetic: the percentage is an integer from 0 to 100
    within one half of [100 * votes / total]. *)
Definition nearest_of_exact (votes total : nat) : bool :=
  match getOptionPercentage votes total with
  | Int n =>
      ((0 <=? n) && (n <=? 100)
       && (Z.abs (2 * Z.of_nat total * n - 200 * Z.of_nat votes) <=? Z.of_nat total))%Z
  | _ => false
  end.

(** Every tally of at most [bound] votes, option by option. *)
Definition all_tallies_up_to (bound : nat) : bool :=
  forallb (fun total =>
             forallb (fun votes => nearest_of_exact votes total) (seq 0 (S total)))
          (seq 1 bound).

(* ================================================================= *)
(** ** The relational store *)

Module Db.

(** *** Rows ([types/index.ts] and the schema) *)

Record PollRow : Type := mkPoll {
  poll_id : string;
  poll_user_id : string;
  poll_question : string;
  poll_created_at : string
}.

Record OptionRow : Type := mkOption {
  option_id : string;
  option_poll_id : string;
  option_text : string;
  option_position : Z
}.

Record VoteRow : Type := mkVote {
  vote_id : string;
  vote_poll_id : string;
  vote_option_id : string;
  vote_visitor_id : string
}.

(** The tables, and how many identifiers [gen_random_uuid()] has handed
    out so far. *)
Record Store : Type := mkStore {
  poll_rows : list PollRow;
  option_rows : list OptionRow;
  vote_rows : list VoteRow;
  uuids : nat
}.

(** [gen_random_uuid()], the default of every [id] column.  The model draws
    the [n]-th identifier of an enumeration without repetition, so that an
    identifier is never handed out twice. *)
Definition gen_random_uuid (n : nat) : string :=
  "00000000-0000-4000-8000-" ++ decimal (100000000000 + N.of_nat n).

(** *** Column selections returned to the handlers *)

(** [options(id, text, position)] *)
Record OptionCols : Type := mkOptionCols {
  o_id : string;
  o_text : string;
  o_position : Z
}.

(** [id, question, options:options(id, text, position)] *)
Record PollOptions : Type := mkPollOptions {
  po_id : string;
  po_question : string;
  po_options : list OptionCols
}.

(** [id, text, position, votes:votes(count)]: the embedded aggregate comes
    back as an array of count objects, [[{ count }]]. *)
Record OptionVotes : Type := mkOptionVotes {
  ov_id : string;
  ov_text : string;
  ov_position : Z;
  ov_votes : list nat
}.

(** [votes(id, option_id)] *)
Record VoteCols : Type := mkVoteCols {
  v_id : string;
  v_option_id : string
}.

(** [id, question, created_at, user_id, options:options(...), votes:votes(...)] *)
Record PollFull : Type := mkPollFull {
  pf_id : string;
  pf_question : string;
  pf_created_at : string;
  pf_user_id : string;
  pf_options : list OptionCols;
  pf_votes : list VoteCols
}.

(** A row of [optionsData]: [{ poll_id, text, position }]. *)
Record NewOption : Type := mkNewOption {
  new_poll_id : string;
  new_text : string;
  new_position : Z
}.

(** *** Errors and replies *)

Inductive PgError : Type :=
| unique_violation        (* SQLSTATE 23505 *)
| foreign_key_violation   (* SQLSTATE 23503 *)
| not_single_row          (* PGRST116: [.single()] on zero or several rows *)
| unavailable.            (* the store did not answer the request *)

(** The [{ data, error }] pair of a store call. *)
Inductive Reply (A : Type) : Type :=
| Data (a : A)
| Error (e : PgError).

Arguments Data {A} a.
Arguments Error {A} e.

(** *** The queries the handlers issue *)

Inductive Query : Type -> Type :=
| polls_select_options (pollId : string) : Query PollOptions
| votes_select_id (pollId visitorId : string) : Query string
| votes_insert (pollId optionId visitorId : string) : Query unit
| options_select_counts (pollId : string) : Query (list OptionVotes)
| polls_select_full (pollId : string) : Query PollFull
| polls_select_owner (pollId : string) : Query (string * string)
| polls_update_question (pollId question : string) : Query unit
| options_delete (pollId : string) : Query unit
| options_insert (rows : list NewOption) : Query unit.

(** Reads leave the store as it is. *)
Definition is_read {X : Type} (q : Query X) : bool :=
  match q with
  | polls_select_options _ | votes_select_id _ _ | options_select_counts _
  | polls_select_full _ | polls_select_owner _ => true
  | _ => false
  end.

(** *** Semantics *)

(** [.single()] *)
Definition single {A : Type} (rows : list A) : Reply A :=
  match rows with
  | [r] => Data r
  | _ => Error not_single_row
  end.

(** [order by position]; rows of equal position keep their order. *)
Fixpoint insert_by {A : Type} (key : A -> Z) (x : A) (l : list A) : list A :=
  match l with
  | [] => [x]
  | y :: rest =>
      if (key x <=? key y)%Z then x :: y :: rest
      else y :: insert_by key x rest
  end.

Definition sort_by {A : Type} (key : A -> Z) (l : list A) : list A :=
  fold_right (insert_by key) [] l.

Definition cols_of_option (o : OptionRow) : OptionCols :=
  mkOptionCols (option_id o) (option_text o) (option_position o).

Definition cols_of_vote (v : VoteRow) : VoteCols :=
  mkVoteCols (vote_id v) (vote_option_id v).

Definition options_of (s : Store) (pollId : string) : list OptionRow :=
  filter (fun o => option_poll_id o =? pollId) (option_rows s).

Definition votes_of (s : Store) (pollId : string) : list VoteRow :=
  filter (fun v => vote_poll_id v =? pollId) (vote_rows s).

Definition votes_for (s : Store) (optionId : string) : list VoteRow :=
  filter (fun v => vote_option_id v =? optionId) (vote_rows s).

Definition polls_with (s : Store) (pollId : string) : list PollRow :=
  filter (fun p => poll_id p =? pollId) (poll_rows s).

Definition has_poll (s : Store) (pollId : string) : bool :=
  existsb (fun p => poll_id p =? pollId) (poll_rows s).

Definition has_option (s : Store) (optionId : string) : bool :=
  existsb (fun o => option_id o =? optionId) (option_rows s).

Definition has_vote (s : Store) (pollId visitorId : string) : bool :=
  existsb (fun v => (vote_poll_id v =? pollId) && (vote_visitor_id v =? visitorId))
          (vote_rows s).

(** The fresh rows of an [insert] into [options]: one identifier each, in
    order. *)
Fixpoint fresh_options (n : nat) (rows : list NewOption) : list OptionRow :=
  match rows with
  | [] => []
  | r :: rest =>
      mkOption (gen_random_uuid n) (new_poll_id r) (new_text r) (new_position r)
      :: fresh_options (S n) rest
  end.

(** [update({ question }).eq('id', pollId)] on one row. *)
Definition retitled (pollId question : string) (p : PollRow) : PollRow :=
  if poll_id p =? pollId
  then mkPoll (poll_id p) (poll_user_id p) question (poll_created_at p)
  else p.

(** One statement against the store: its reply and the store afterwards.
    A statement that is refused leaves the store untouched.  An embedded
    aggregate, [votes(count)], is answered with a one-element array holding
    the count.  The row-level policies of the schema let everyone read and
    vote and let owners manage their polls and the options of these, which
    is all the handlers ask for, so the policies are not modelled. *)
Definition exec {X : Type} (q : Query X) (s : Store) : Reply X * Store :=
  match q in Query X return Reply X * Store with
  | polls_select_options pollId =>
      (single (map (fun p => mkPollOptions (poll_id p) (poll_question p)
                               (map cols_of_option (options_of s (poll_id p))))
                   (polls_with s pollId)), s)
  | votes_select_id pollId visitorId =>
      (single (map vote_id
                 (filter (fun v => (vote_poll_id v =? pollId)
                                   && (vote_visitor_id v =? visitorId))
                         (vote_rows s))), s)
  | votes_insert pollId optionId visitorId =>
      if has_vote s pollId visitorId then (Error unique_violation, s)
      else if negb (has_poll s pollId && has_option s optionId)
      then (Error foreign_key_violation, s)
      else (Data tt,
            mkStore (poll_rows s) (option_rows s)
              (vote_rows s
               ++ [mkVote (gen_random_uuid (uuids s)) pollId optionId visitorId])
              (S (uuids s)))
  | options_select_counts pollId =>
      (Data (map (fun o => mkOptionVotes (option_id o) (option_text o)
                             (option_position o)
                             [List.length (votes_for s (option_id o))])
                 (sort_by option_position (options_of s pollId))), s)
  | polls_select_full pollId =>
      (single (map (fun p => mkPollFull (poll_id p) (poll_question p)
                               (poll_created_at p) (poll_user_id p)
                               (map cols_of_option (options_of s (poll_id p)))
                               (map cols_of_vote (votes_of s (poll_id p))))
                   (polls_with s pollId)), s)
  | polls_select_owner pollId =>
      (single (map (fun p => (poll_id p, poll_user_id p)) (polls_with s pollId)), s)
  | polls_update_question pollId question =>
      (Data tt,
       mkStore (map (retitled pollId question) (poll_rows s))
               (option_rows s) (vote_rows s) (uuids s))
  | options_delete pollId =>
      (Data tt,
       mkStore (poll_rows s)
               (filter (fun o => negb (option_poll_id o =? pollId)) (option_rows s))
               (filter (fun v => negb (existsb (fun o => option_id o =? vote_option_id v)
                                               (options_of s pollId))) (vote_rows s))
               (uuids s))
  | options_insert rows =>
      if forallb (fun r => has_poll s (new_poll_id r)) rows
      then (Data tt,
            mkStore (poll_rows s) (option_rows s ++ fresh_options (uuids s) rows)
                    (vote_rows s) (uuids s + List.length rows))
      else (Error foreign_key_violation, s)
  end.

End Db.

Import Db.

(* ================================================================= *)
(** ** Handlers as programs over the store *)

(** A handler suspends at every store call and resumes with its reply. *)
Inductive Prog (R : Type) : Type :=
| Ret (r : R)
| Call {X : Type} (q : Query X) (k : Reply X -> Prog R).

Arguments Ret {R} r.
Arguments Call {R X} q k.

Notation "'await' r <- q ; k" := (Call q (fun r => k))
  (at level 10, r name, q at level 100, k at level 200).

(** One exchange with the store, as seen from the handler. *)
Inductive Event : Type :=
| Exchange {X : Type} (q : Query X) (r : Reply X).

Definition event_is_read (e : Event) : bool :=
  match e with Exchange q _ => is_read q end.

(** [runs p tr r]: against some environment that answered as [tr] records,
    [p] finishes with [r].  The answers are not constrained: they may come
    from a store that other requests change in between. *)
Fixpoint runs {R : Type} (p : Prog R) (tr : list Event) (r : R) : Prop :=
  match p with
  | Ret r' => tr = [] /\ r = r'
  | Call q k => exists a tr', tr = Exchange q a :: tr' /\ runs (k a) tr' r
  end.

(** The store's answer to a call: the planned refusal, which leaves the
    store as it is, or the statement's execution. *)
Definition answer {X : Type} (fault : option PgError) (q : Query X) (s : Store)
  : Reply X * Store :=
  match fault with
  | Some e => (Error e, s)
  | None => exec q s
  end.

(** A handler alone against the store.  [faults] plans, call by call,
    whether the store refuses the statement ([Some e]) or executes it;
    beyond the plan every statement is executed. *)
Fixpoint run {R : Type} (faults : list (option PgError)) (s : Store) (p : Prog R)
  : R * Store * list Event :=
  match p with
  | Ret r => (r, s, [])
  | Call q k =>
      let '(a, s') := answer (hd None faults) q s in
      let '(r, s'', tr) := run (tl faults) s' (k a) in
      (r, s'', Exchange q a :: tr)
  end.

(** Two requests in flight.  The schedule says whose pending call the store
    serves next ([false]: the first request, [true]: the second). *)
Record Race (R : Type) : Type := mkRace {
  first : Prog R;
  second : Prog R;
  store : Store;
  first_trace : list Event;
  second_trace : list Event
}.

Definition serve {R : Type} (who : bool) (c : Race R) : Race R :=
  if who then
    match second c with
    | Ret _ => c
    | Call q k =>
        let '(a, s') := exec q (store c) in
        mkRace (first c) (k a) s' (first_trace c) (second_trace c ++ [Exchange q a])
    end
  else
    match first c with
    | Ret _ => c
    | Call q k =>
        let '(a, s') := exec q (store c) in
        mkRace (k a) (second c) s' (first_trace c ++ [Exchange q a]) (second_trace c)
    end.

Definition race {R : Type} (schedule : list bool) (s : Store) (a b : Prog R) : Race R :=
  fold_left (fun c who => serve who c) schedule (mkRace a b s [] []).

(** *** Responses *)

Record Cookie : Type := mkCookie {
  cookie_name : string;
  cookie_value : string;
  maxAge : N;
  httpOnly : bool;
  secure : bool;
  sameSite : string
}.

(** [{ id, question, options, totalVotes }] of the vote response. *)
Record VotePoll : Type := mkVotePoll {
  vp_id : string;
  vp_question : string;
  vp_options : list OptionCount;
  vp_totalVotes : nat
}.

(** An option of the read response: [{ ...option, voteCount }]. *)
Record OptionVoteCount : Type := mkOptionVoteCount {
  ovc_id : string;
  ovc_text : string;
  ovc_position : Z;
  voteCount : nat
}.

(** [pollWithStats]: [{ ...poll, options: optionsWithVotes, totalVotes }]. *)
Record PollStats : Type := mkPollStats {
  ps_id : string;
  ps_question : string;
  ps_created_at : string;
  ps_user_id : string;
  ps_options : list OptionVoteCount;
  ps_votes : list VoteCols;
  ps_totalVotes : nat
}.

Inductive Body : Type :=
| ErrorBody (error : string)             (* [{ error }] *)
| ErrorDetails (error : string)          (* [{ error, details: error.errors }] *)
| MessageBody (message : string)         (* [{ message }] *)
| VoteBody (poll : VotePoll)             (* [{ success: true, poll }] *)
| PollBody (poll : PollStats).           (* [{ poll }] *)

Record Response : Type := mkResponse {
  status : nat;
  body : Body;
  cookies : list Cookie
}.

(** [NextResponse.json(body, { status })] *)
Definition json (st : nat) (b : Body) : Response := mkResponse st b [].

(** [response.cookies.set(...)] *)
Definition set_cookie (c : Cookie) (r : Response) : Response :=
  mkResponse (status r) (body r) (cookies r ++ [c]).

(** *** Requests *)

(** What [await request.json()] and the schema make of a body. *)
Inductive Parse (A : Type) : Type :=
| Threw          (* the body is not JSON: [request.json()] throws *)
| ZodError       (* the schema rejects the value *)
| Parsed (a : A).

Arguments Threw {A}.
Arguments ZodError {A}.
Arguments Parsed {A} a.

(** The body of a vote: not JSON, JSON without a string [optionId], or JSON
    with one. *)
Inductive VoteJson : Type :=
| vote_not_json
| vote_no_optionId
| vote_optionId (optionId : string).

(** The body of an edit: not JSON, JSON whose [question]/[options] are not a
    string and an array of strings, or JSON with both. *)
Inductive PollJson : Type :=
| poll_not_json
| poll_ill_typed
| poll_fields (question : string) (options : list string).

(** A vote request.  [x_visitor_id] is what
    [request.headers.get('x-visitor-id')] returns: the value of the header
    as [Headers] hold it, that is without surrounding whitespace, if the
    header is there.  [session_user] (the id behind an authenticated session)
    and [cookie_visitor_id] (the [visitor_id] cookie) travel with the request
    whether or not the handler looks at them.  [now] is what [Date.now()]
    returns, [random36] what [Math.random().toString(36)] returns, and
    [production] whether [NODE_ENV] is ['production']. *)
Record VoteRequest : Type := mkVoteRequest {
  vote_params_id : string;
  x_visitor_id : option string;
  cookie_visitor_id : option string;
  session_user : option string;
  vote_json : VoteJson;
  now : N;
  random36 : string;
  production : bool
}.

(** An edit request; [auth_user] is the user [supabase.auth.getUser()]
    finds, if any. *)
Record EditRequest : Type := mkEditRequest {
  edit_params_id : string;
  auth_user : option string;
  edit_json : PollJson
}.

Section Handlers.

(** The [uuid] string check of the validation library. *)
Variable is_uuid : string -> bool.

(** [voteSchema.parse(await request.json())] *)
Definition voteSchema_parse (j : VoteJson) : Parse string :=
  match j with
  | vote_not_json => Threw
  | vote_no_optionId => ZodError
  | vote_optionId o => if is_uuid o then Parsed o else ZodError
  end.

Definition within (lo hi n : nat) : bool := (lo <=? n)%nat && (n <=? hi)%nat.

(** [updatePollSchema.parse(await request.json())]: a question of 5 to 200
    characters and 2 to 10 options of 1 to 100 characters (the characters
    of the model's strings). *)
Definition updatePollSchema_parse (j : PollJson) : Parse (string * list string) :=
  match j with
  | poll_not_json => Threw
  | poll_ill_typed => ZodError
  | poll_fields q opts =>
      if within 5 200 (String.length q)
         && forallb (fun o => within 1 100 (String.length o)) opts
         && within 2 10 (List.length opts)
      then Parsed (q, opts) else ZodError
  end.

(** The token made up for a request:
    [`visitor_${Date.now()}_${Math.random().toString(36).substr(2, 9)}`] *)
Definition fresh_visitor_id (req : VoteRequest) : string :=
  "visitor_" ++ decimal (now req) ++ "_" ++ substr 2 9 (random36 req).

(** [request.headers.get('x-visitor-id') || `visitor_...`]: an absent and an
    empty header are both falsy. *)
Definition visitor_id_of (req : VoteRequest) : string :=
  match x_visitor_id req with
  | Some v => if v =? "" then fresh_visitor_id req else v
  | None => fresh_visitor_id req
  end.

Definition visitor_cookie (req : VoteRequest) (visitorId : string) : Cookie :=
  mkCookie "visitor_id" visitorId (60 * 60 * 24 * 365) true (production req) "lax".

Definition count_of (o : OptionVotes) : OptionCount :=
  mkOptionCount (ov_id o) (ov_text o) (ov_position o) (List.length (ov_votes o)).

(** [POST] of [app/api/polls/[id]/vote/route.ts]. *)
Definition POST (req : VoteRequest) : Prog Response :=
  let pollId := vote_params_id req in
  match voteSchema_parse (vote_json req) with
  | Threw => Ret (json 500 (ErrorBody "Internal server error"))
  | ZodError => Ret (json 400 (ErrorDetails "Invalid request data"))
  | Parsed optionId =>
    let visitorId := visitor_id_of req in
    await found <- polls_select_options pollId;
    match found with
    | Error _ => Ret (json 404 (ErrorBody "Poll not found"))
    | Data poll =>
      match find (fun o => o_id o =? optionId) (po_options poll) with
      | None => Ret (json 400 (ErrorBody "Invalid option for this poll"))
      | Some _ =>
        await existingVote <- votes_select_id pollId visitorId;
        match existingVote with
        | Data _ => Ret (json 409 (ErrorBody "You have already voted on this poll"))
        | Error _ =>
          await inserted <- votes_insert pollId optionId visitorId;
          match inserted with
          | Error _ => Ret (json 500 (ErrorBody "Failed to cast vote"))
          | Data _ =>
            await results <- options_select_counts pollId;
            match results with
            | Error _ =>
                Ret (json 500 (ErrorBody "Vote cast but failed to fetch results"))
            | Data rows =>
                let optionsWithCounts := map count_of rows in
                let total := totalVotes optionsWithCounts in
                Ret (set_cookie (visitor_cookie req visitorId)
                       (json 200 (VoteBody (mkVotePoll (po_id poll) (po_question poll)
                                              optionsWithCounts total))))
            end
          end
        end
      end
    end
  end.

(** [GET] of the poll route. *)
Definition with_voteCount (votes : list VoteCols) (o : OptionCols) : OptionVoteCount :=
  mkOptionVoteCount (o_id o) (o_text o) (o_position o)
    (List.length (filter (fun v => v_option_id v =? o_id o) votes)).

Definition GET (pollId : string) : Prog Response :=
  await found <- polls_select_full pollId;
  match found with
  | Error _ => Ret (json 404 (ErrorBody "Poll not found"))
  | Data poll =>
      let optionsWithVotes :=
        map (with_voteCount (pf_votes poll)) (sort_by o_position (pf_options poll)) in
      Ret (json 200 (PollBody (mkPollStats (pf_id poll) (pf_question poll)
                                 (pf_created_at poll) (pf_user_id poll)
                                 optionsWithVotes (pf_votes poll)
                                 (List.length (pf_votes poll)))))
  end.

(** [options.map((text, index) => ({ poll_id, text, position: index }))] *)
Fixpoint optionsData (pollId : string) (index : nat) (texts : list string)
  : list NewOption :=
  match texts with
  | [] => []
  | t :: rest =>
      mkNewOption pollId t (Z.of_nat index) :: optionsData pollId (S index) rest
  end.

(** [PUT] of the poll route. *)
Definition PUT (req : EditRequest) : Prog Response :=
  let pollId := edit_params_id req in
  match auth_user req with
  | None => Ret (json 401 (ErrorBody "Unauthorized"))
  | Some user =>
    await existingPoll <- polls_select_owner pollId;
    match existingPoll with
    | Error _ => Ret (json 404 (ErrorBody "Poll not found"))
    | Data (_, owner) =>
      if negb (owner =? user) then Ret (json 403 (ErrorBody "Forbidden"))
      else
        match updatePollSchema_parse (edit_json req) with
        | Threw => Ret (json 500 (ErrorBody "Internal server error"))
        | ZodError => Ret (json 400 (ErrorDetails "Validation failed"))
        | Parsed (question, texts) =>
          await updated <- polls_update_question pollId question;
          match updated with
          | Error _ => Ret (json 500 (ErrorBody "Failed to update poll"))
          | Data _ =>
            await deleted <- options_delete pollId;
            match deleted with
            | Error _ => Ret (json 500 (ErrorBody "Failed to update poll options"))
            | Data _ =>
              await created <- options_insert (optionsData pollId 0 texts);
              match created with
              | Error _ => Ret (json 500 (ErrorBody "Failed to create poll options"))
              | Data _ => Ret (json 200 (MessageBody "Poll updated successfully"))
              end
            end
          end
        end
    end
  end.

(** The requests of the three routes, and their handlers. *)
Inductive Request : Type :=
| Vote (req : VoteRequest)
| Edit (req : EditRequest)
| Read (pollId : string).

Definition handle (r : Request) : Prog Response :=
  match r with
  | Vote req => POST req
  | Edit req => PUT req
  | Read pollId => GET pollId
  end.

End Handlers.

(* ================================================================= *)
(** ** Specification vocabulary *)

(** The winner the tie-break policy "first-encountered wins" would pick:
    strictly more votes than everything before it, at least as many as
    everything after it. *)
Definition first_greatest (options : list OptionCount) (w : OptionCount) : Prop :=
  exists before after,
    options = before ++ w :: after /\
    (forall o, In o before -> votes o < votes w) /\
    (forall o, In o after -> votes o <= votes w).

(** The last option among those with the greatest count. *)
Definition last_greatest (options : list OptionCount) (w : OptionCount) : Prop :=
  exists before after,
    options = before ++ w :: after /\
    (forall o, In o before -> votes o <= votes w) /\
    (forall o, In o after -> votes o < votes w).

(** Two options with five votes each. *)
Definition tie : list OptionCount :=
  [mkOptionCount "opt-1" "React" 0 5; mkOptionCount "opt-2" "Vue" 1 5].

(** *** Well-formed stores *)

Fixpoint distinct {A : Type} (same : A -> A -> bool) (l : list A) : bool :=
  match l with
  | [] => true
  | x :: rest => negb (existsb (same x) rest) && distinct same rest
  end.

Definition pair_eqb (a b : string * string) : bool :=
  (fst a =? fst b) && (snd a =? snd b).

(** The key of [unique(poll_id, visitor_id)]. *)
Definition voter (v : VoteRow) : string * string :=
  (vote_poll_id v, vote_visitor_id v).

(** An identifier that [gen_random_uuid()] has handed out already. *)
Definition drawn (s : Store) (i : string) : bool :=
  existsb (fun n => gen_random_uuid n =? i) (seq 0 (uuids s)).

(** The option a vote points to is an option of the vote's poll. *)
Definition vote_in_poll (s : Store) (v : VoteRow) : bool :=
  existsb (fun o => (option_id o =? vote_option_id v)
                    && (option_poll_id o =? vote_poll_id v)) (option_rows s).

(** What the schema enforces (primary keys, the uniqueness of
    [(poll_id, visitor_id)], foreign keys, generated identifiers) and what
    the vote handler adds (a vote's option belongs to the vote's poll). *)
Definition store_ok (s : Store) : bool :=
  distinct String.eqb (map poll_id (poll_rows s))
  && distinct String.eqb (map option_id (option_rows s))
  && distinct String.eqb (map vote_id (vote_rows s))
  && distinct pair_eqb (map voter (vote_rows s))
  && forallb (fun o => has_poll s (option_poll_id o)) (option_rows s)
  && forallb (fun v => has_poll s (vote_poll_id v)) (vote_rows s)
  && forallb (fun v => vote_in_poll s v) (vote_rows s)
  && forallb (fun p => drawn s (poll_id p)) (poll_rows s)
  && forallb (fun o => drawn s (option_id o)) (option_rows s)
  && forallb (fun v => drawn s (vote_id v)) (vote_rows s).

(** What a well-formed store gives, conjunct by conjunct. *)
Record well_formed (s : Store) : Prop := {
  polls_pkey : NoDup (map poll_id (poll_rows s));
  options_pkey : NoDup (map option_id (option_rows s));
  votes_pkey : NoDup (map vote_id (vote_rows s));
  votes_unique : NoDup (map voter (vote_rows s));
  options_poll : forall o, In o (option_rows s) -> has_poll s (option_poll_id o) = true;
  votes_poll : forall v, In v (vote_rows s) -> has_poll s (vote_poll_id v) = true;
  votes_option : forall v, In v (vote_rows s) -> vote_in_poll s v = true;
  polls_drawn : forall p, In p (poll_rows s) -> drawn s (poll_id p) = true;
  options_drawn : forall o, In o (option_rows s) -> drawn s (option_id o) = true;
  votes_drawn : forall v, In v (vote_rows s) -> drawn s (vote_id v) = true
}.

(** What a statement needs of the store for the store to stay well formed:
    a vote must name an option of its own poll.  The schema does not ask for
    it (the two foreign keys of a vote are independent); the vote handler
    does, by looking the option up under the poll first. *)
Definition guard {X : Type} (q : Query X) (s : Store) : Prop :=
  match q with
  | votes_insert pollId optionId _ =>
      forall o, In o (option_rows s) -> option_id o = optionId ->
                option_poll_id o = pollId
  | _ => True
  end.

(** How the [options] table can differ between two moments: rows are never
    changed, only deleted, and a new row carries an identifier generated in
    between. *)
Definition evolves (s s' : Store) : Prop :=
  uuids s <= uuids s' /\
  forall o, In o (option_rows s') ->
            In o (option_rows s)
            \/ exists k, uuids s <= k /\ option_id o = gen_random_uuid k.

(** A handler whose remaining statements keep the store well formed,
    whatever well-formed store they meet when they are served and whether
    the store executes or refuses them. *)
Fixpoint safe {R : Type} (p : Prog R) (s : Store) : Prop :=
  match p with
  | Ret _ => True
  | Call q k =>
      forall s1, evolves s s1 -> store_ok s1 = true ->
                 guard q s1 /\
                 forall fault, safe (k (fst (answer fault q s1)))
                                    (snd (answer fault q s1))
  end.

(** *** Vocabulary of the vote flow *)

(** The response of the duplicate pre-check. *)
Definition conflict : Response :=
  json 409 (ErrorBody "You have already voted on this poll").

(** The error of a refused [insert] into [votes], if the event is one. *)
Definition refused_insert (e : Event) : option PgError :=
  match e with
  | Exchange q r =>
      match q, r with
      | votes_insert _ _ _, Error err => Some err
      | _, _ => None
      end
  end.

(** The visitor identifier an event hands to the [votes] table, if any. *)
Definition event_visitor (e : Event) : option string :=
  match e with
  | Exchange q _ =>
      match q with
      | votes_select_id _ v | votes_insert _ _ v => Some v
      | _ => None
      end
  end.

(** The identity resolver as the specification words it: the id of the
    authenticated session if there is one, otherwise the token the client
    supplies in the header or in the cookie, otherwise a fresh token. *)
Definition spec_visitor_id (req : VoteRequest) : string :=
  match session_user req, x_visitor_id req, cookie_visitor_id req with
  | Some user, _, _ => user
  | None, Some token, _ => token
  | None, None, Some token => token
  | None, None, None => fresh_visitor_id req
  end.

(** One year, in seconds. *)
Definition one_year : N := 31536000.

(** *** Vocabulary of the edit flow *)

(** Whether the store answered a call with data rather than an error. *)
Definition succeeded (e : Event) : bool :=
  match e with
  | Exchange _ (Data _) => true
  | Exchange _ (Error _) => false
  end.

(** *** Sample data *)

(** A [uuid] check: 8-4-4-4-12 hexadecimal digits. *)
Definition is_hex (c : ascii) : bool :=
  let n := nat_of_ascii c in
  ((48 <=? n) && (n <=? 57) || (65 <=? n) && (n <=? 70)
   || (97 <=? n) && (n <=? 102))%nat.

Fixpoint has_shape (dashes : list bool) (s : string) : bool :=
  match dashes, s with
  | [], EmptyString => true
  | dash :: rest, String c t =>
      (if dash then Ascii.eqb c "-" else is_hex c) && has_shape rest t
  | _, _ => false
  end.

Definition uuid_shape (s : string) : bool :=
  has_shape (repeat false 8 ++ true :: repeat false 4 ++ true :: repeat false 4
             ++ true :: repeat false 4 ++ true :: repeat false 12) s.

(** Two polls; the first has two options and one vote, the second one
    option. *)
Definition demo : Store :=
  mkStore
    [mkPoll (gen_random_uuid 0) "user-1" "Best framework?" "2024-01-01T00:00:00Z";
     mkPoll (gen_random_uuid 3) "user-2" "Tabs or spaces?" "2024-01-02T00:00:00Z"]
    [mkOption (gen_random_uuid 2) (gen_random_uuid 0) "Vue" 1;
     mkOption (gen_random_uuid 1) (gen_random_uuid 0) "React" 0;
     mkOption (gen_random_uuid 4) (gen_random_uuid 3) "Tabs" 0]
    [mkVote (gen_random_uuid 5) (gen_random_uuid 0) (gen_random_uuid 1) "visitor-789"]
    6.

Definition vote_request (header : option string) (optionId : string) : VoteRequest :=
  mkVoteRequest (gen_random_uuid 0) header None None (vote_optionId optionId)
                1700000000000 "0.4fzyo82mvyr" false.

(** A second vote of the visitor who has voted. *)
Definition again : VoteRequest :=
  vote_request (Some "visitor-789") (gen_random_uuid 2).

(** A vote for the option of the other poll. *)
Definition astray : VoteRequest :=
  vote_request (Some "visitor-123") (gen_random_uuid 4).

(** A vote without the header. *)
Definition anonymous : VoteRequest :=
  vote_request None (gen_random_uuid 1).

(** The store after that vote has been cast. *)
Definition voted : Store :=
  snd (fst (run [] demo (POST uuid_shape anonymous))).

(** A signed-in visitor whose browser sends the header and no cookie. *)
Definition signed_in : VoteRequest :=
  mkVoteRequest (gen_random_uuid 0) (Some "visitor-123") None (Some "user-1")
                (vote_optionId (gen_random_uuid 1)) 1700000000000 "0.4fzyo82mvyr" false.

(** The same visitor twice at once. *)
Definition twice : VoteRequest :=
  vote_request (Some "visitor-456") (gen_random_uuid 1).

(** Both look for a poll and an earlier vote before either inserts. *)
Definition neck_and_neck : list bool :=
  [false; true; false; true; false; true; false].

(** The store refuses the fourth statement, or the third. *)
Definition insert_refused : list (option PgError) :=
  [None; None; None; Some unavailable].

Definition delete_refused : list (option PgError) :=
  [None; None; Some unavailable].

Definition edit : EditRequest :=
  mkEditRequest (gen_random_uuid 0) (Some "user-1")
    (poll_fields "Best framework in 2024?" ["Svelte"; "Solid"; "Qwik"]).

(* ================================================================= *)
(** ** The other routes and the pages *)

(** *** Deleting and creating polls *)

(** [delete().eq('id', pollId)] on [polls]: the options of the poll go with
    it, and so do the votes that point to the poll or to one of its options
    ([on delete cascade]). *)
Definition polls_delete (pollId : string) (s : Store) : Store :=
  mkStore (filter (fun p => negb (poll_id p =? pollId)) (poll_rows s))
          (filter (fun o => negb (option_poll_id o =? pollId)) (option_rows s))
          (filter (fun v => negb ((vote_poll_id v =? pollId)
                                  || existsb (fun o => option_id o =? vote_option_id v)
                                             (options_of s pollId)))
                  (vote_rows s))
          (uuids s).

(** [insert({ user_id, question }).select().single()] on [polls]: the new
    row, with a generated id and the store's clock reading. *)
Definition polls_insert (user question created_at : string) (s : Store)
  : PollRow * Store :=
  let p := mkPoll (gen_random_uuid (uuids s)) user question created_at in
  (p, mkStore (poll_rows s ++ [p]) (option_rows s) (vote_rows s) (S (uuids s))).

(** A delete request; [delete_user] is the user [supabase.auth.getUser()]
    finds, if any. *)
Record DeleteRequest : Type := mkDeleteRequest {
  delete_params_id : string;
  delete_user : option string
}.

(** [DELETE] of the poll route, in store-passing style: the store may
    refuse the first statement (the ownership read) or the second (the
    delete). *)
Definition DELETE (req : DeleteRequest) (faults : list (option PgError)) (s : Store)
  : Response * Store :=
  let pollId := delete_params_id req in
  match delete_user req with
  | None => (json 401 (ErrorBody "Unauthorized"), s)
  | Some user =>
      let '(existingPoll, s1) := answer (hd None faults) (polls_select_owner pollId) s in
      match existingPoll with
      | Error _ => (json 404 (ErrorBody "Poll not found"), s1)
      | Data (_, owner) =>
          if negb (owner =? user) then (json 403 (ErrorBody "Forbidden"), s1)
          else
            match hd None (tl faults) with
            | Some _ => (json 500 (ErrorBody "Failed to delete poll"), s1)
            | None =>
                (json 200 (MessageBody "Poll deleted successfully"),
                 polls_delete pollId s1)
            end
      end
  end.

(** The collection route [app/api/polls]. *)
Module Polls.

Record CreateRequest : Type := mkCreateRequest {
  create_user : option string;
  create_json : PollJson
}.

Inductive CreateBody : Type :=
| Created (poll : PollRow)           (* [{ poll }] *)
| CreateError (error : string)       (* [{ error }] *)
| CreateDetails (error : string).    (* [{ error, details }] *)

Record CreateResponse : Type := mkCreateResponse {
  create_status : nat;
  create_body : CreateBody
}.

(** [createPollSchema]: the bounds of [updatePollSchema], word for word. *)
Definition createPollSchema_parse (j : PollJson) : Parse (string * list string) :=
  updatePollSchema_parse j.

(** [POST]: create the poll, then its options; if the options cannot be
    created, delete the poll again (the outcome of that delete is not looked
    at).  [created_at] is the store's clock reading; the store may refuse
    the first statement (insert the poll), the second (insert the options)
    or the third (the clean-up). *)
Definition POST (req : CreateRequest) (created_at : string)
           (faults : list (option PgError)) (s : Store) : CreateResponse * Store :=
  match create_user req with
  | None => (mkCreateResponse 401 (CreateError "Unauthorized"), s)
  | Some user =>
      match createPollSchema_parse (create_json req) with
      | Threw => (mkCreateResponse 500 (CreateError "Internal server error"), s)
      | ZodError => (mkCreateResponse 400 (CreateDetails "Validation failed"), s)
      | Parsed (question, texts) =>
          match hd None faults with
          | Some _ => (mkCreateResponse 500 (CreateError "Failed to create poll"), s)
          | None =>
              let '(poll, s1) := polls_insert user question created_at s in
              let '(created, s2) :=
                answer (hd None (tl faults))
                       (options_insert (optionsData (poll_id poll) 0 texts)) s1 in
              match created with
              | Error _ =>
                  (mkCreateResponse 500 (CreateError "Failed to create poll options"),
                   match hd None (tl (tl faults)) with
                   | Some _ => s2
                   | None => polls_delete (poll_id poll) s2
                   end)
              | Data _ => (mkCreateResponse 201 (Created poll), s2)
              end
          end
      end
  end.

End Polls.

(** *** The poll page ([app/polls/[id]/page.tsx]) *)

(** [getVisitorId]: the [visitor_id] item of [localStorage], made up and
    stored when it is missing or empty.  Returns the id and the item
    afterwards. *)
Definition getVisitorId (item : option string) (now : N) (random36 : string)
  : string * option string :=
  let made_up := ("visitor_" ++ decimal now ++ "_" ++ substr 2 9 random36)%string in
  match item with
  | Some v => if v =? "" then (made_up, Some made_up) else (v, item)
  | None => (made_up, Some made_up)
  end.

(** The state of the page: [poll], [isLoading], [isVoting],
    [selectedOption], [voteState] and [error]. *)
Record Page : Type := mkPage {
  page_poll : option PollStats;
  isLoading : bool;
  isVoting : bool;
  selectedOption : string;
  hasVoted : bool;
  selectedOptionId : option string;
  results : option VotePoll;
  page_error : string
}.

(** The state the page starts with. *)
Definition initial_page : Page :=
  mkPage None true false "" false None None "".

(** [response.ok] *)
Definition ok (r : Response) : bool :=
  ((200 <=? status r) && (status r <=? 299))%nat.

(** [data.error], [undefined] where the body has none. *)
Definition data_error (b : Body) : option string :=
  match b with
  | ErrorBody e | ErrorDetails e => Some e
  | _ => None
  end.

(** [x || fallback] on a string that may be missing: missing and empty are
    both falsy. *)
Definition or_else (x : option string) (fallback : string) : string :=
  match x with
  | Some e => if e =? "" then fallback else e
  | None => fallback
  end.

(** [fetchPoll], given the answer of the read route: the routes answer 200
    with the poll and anything else with an error. *)
Definition fetchPoll (response : Response) (p : Page) : Page :=
  if ok response then
    mkPage (match body response with PollBody poll => Some poll | _ => None end)
           false (isVoting p) (selectedOption p) (hasVoted p)
           (selectedOptionId p) (results p) (page_error p)
  else
    mkPage (page_poll p) false (isVoting p) (selectedOption p) (hasVoted p)
           (selectedOptionId p) (results p) "Failed to load poll".

(** [setSelectedOption] *)
Definition setSelectedOption (optionId : string) (p : Page) : Page :=
  mkPage (page_poll p) (isLoading p) (isVoting p) optionId (hasVoted p)
         (selectedOptionId p) (results p) (page_error p).

(** *** Header values

    What [Headers] make of a value, in [fetch] and in [request.headers]
    alike: leading and trailing HTTP whitespace (tab, line feed, carriage
    return, space) is removed, and a value that then still holds a NUL, a
    line feed or a carriage return is refused with a [TypeError]. *)
Definition http_whitespace (c : ascii) : bool :=
  let n := nat_of_ascii c in
  ((n =? 9) || (n =? 10) || (n =? 13) || (n =? 32))%nat.

Fixpoint strip_leading (s : string) : string :=
  match s with
  | EmptyString => EmptyString
  | String c rest => if http_whitespace c then strip_leading rest else s
  end.

Fixpoint strip_trailing (s : string) : string :=
  match s with
  | EmptyString => EmptyString
  | String c rest =>
      match strip_trailing rest with
      | EmptyString => if http_whitespace c then EmptyString else String c EmptyString
      | kept => String c kept
      end
  end.

Definition normalize (value : string) : string :=
  strip_trailing (strip_leading value).

Definition refused_byte (c : ascii) : bool :=
  let n := nat_of_ascii c in ((n =? 0) || (n =? 10) || (n =? 13))%nat.

Fixpoint holds_refused_byte (s : string) : bool :=
  match s with
  | EmptyString => false
  | String c rest => refused_byte c || holds_refused_byte rest
  end.

(** [headers.append(name, value)]: the value as the headers hold it, or
    [None] for the [TypeError]. *)
Definition Headers_append (value : string) : option string :=
  if holds_refused_byte (normalize value) then None else Some (normalize value).

(** What surrounds one click on "Cast Vote": the clocks and random draws of
    browser and server, what the browser sends along unasked, and the
    message of the [TypeError] this browser raises for a header value it
    refuses. *)
Record Click : Type := mkClick {
  click_now : N;
  click_random36 : string;
  sent_cookie : option string;
  sent_session : option string;
  server_now : N;
  server_random36 : string;
  server_production : bool;
  type_error : string
}.

(** A browser in front of the application: the store behind the vote
    route, the [visitor_id] item of [localStorage] and the page. *)
Record World : Type := mkWorld {
  world_store : Store;
  world_item : option string;
  world_page : Page
}.

(** [handleVote] for the poll [pollId], the [fetch] resolved against the vote
    route: nothing happens without a selected option or a poll; otherwise
    [getVisitorId()] is put into the [x-visitor-id] header.  When the headers
    refuse it, [fetch] throws before anything is sent and the page shows the
    message of the [TypeError]; otherwise the vote is posted with the header
    as the headers hold it, and the page shows the results of a 2xx answer or
    the error of any other. *)
Definition handleVote (is_uuid : string -> bool) (pollId : string) (c : Click)
           (w : World) : World :=
  let p := world_page w in
  match (selectedOption p =? ""), page_poll p with
  | false, Some _ =>
      let '(visitorId, item) :=
        getVisitorId (world_item w) (click_now c) (click_random36 c) in
      match Headers_append visitorId with
      | None =>
          mkWorld (world_store w) item
            (mkPage (page_poll p) (isLoading p) false (selectedOption p) (hasVoted p)
                    (selectedOptionId p) (results p) (type_error c))
      | Some header =>
          let request :=
            mkVoteRequest pollId (Some header) (sent_cookie c) (sent_session c)
                          (vote_optionId (selectedOption p))
                          (server_now c) (server_random36 c) (server_production c) in
          let '(response, s, _) := run [] (world_store w) (POST is_uuid request) in
          mkWorld s item
            (if ok response then
               mkPage (page_poll p) (isLoading p) false (selectedOption p) true
                      (Some (selectedOption p))
                      (match body response with
                       | VoteBody poll => Some poll
                       | _ => None
                       end)
                      (page_error p)
             else
               mkPage (page_poll p) (isLoading p) false (selectedOption p) (hasVoted p)
                      (selectedOptionId p) (results p)
                      (or_else (data_error (body response)) "Failed to cast vote"))
      end
  | _, _ => w
  end.

(** What the page renders: the skeleton while loading, else the error
    screen if there is an error, else "not found" without a poll, else the
    results after a vote and the voting form before. *)
Inductive View : Type :=
| Skeleton
| ErrorScreen (message : string)
| PollNotFound
| ResultsView (results : option VotePoll)
| VotingForm.

Definition view (p : Page) : View :=
  if isLoading p then Skeleton
  else if negb (page_error p =? "") then ErrorScreen (page_error p)
  else match page_poll p with
       | None => PollNotFound
       | Some _ => if hasVoted p then ResultsView (results p) else VotingForm
       end.

(** *** The poll forms ([app/polls/new] and [app/polls/edit/[id]]) *)

(** [remove(index)] of the field array. *)
Fixpoint remove_at {A : Type} (index : nat) (l : list A) : list A :=
  match l, index with
  | [], _ => []
  | _ :: rest, 0 => rest
  | x :: rest, S i => x :: remove_at i rest
  end.

(** [addOption]: [if (fields.length < 10) append({ text: '' })] *)
Definition addOption (fields : list string) : list string :=
  if (List.length fields <? 10)%nat then fields ++ [""] else fields.

(** [removeOption]: [if (fields.length > 2) remove(index)] *)
Definition removeOption (index : nat) (fields : list string) : list string :=
  if (2 <? List.length fields)%nat then remove_at index fields else fields.

Inductive FormAction : Type :=
| AddOption
| RemoveOption (index : nat).

Definition act (fields : list string) (a : FormAction) : list string :=
  match a with
  | AddOption => addOption fields
  | RemoveOption index => removeOption index fields
  end.

(** [editPollSchema] of the form: the question and the option texts within
    their bounds. *)
Definition editPollSchema_check (question : string) (texts : list string) : bool :=
  (5 <=? String.length question)%nat && (String.length question <=? 200)%nat
  && forallb (fun t => (1 <=? String.length t)%nat && (String.length t <=? 100)%nat) texts
  && (2 <=? List.length texts)%nat && (List.length texts <=? 10)%nat.

(** [form.reset] of [fetchPoll] in the edit page: the question and the
    option texts by position. *)
Definition editForm_reset (poll : PollStats) : string * list string :=
  (ps_question poll, map ovc_text (sort_by ovc_position (ps_options poll))).

(** [form.handleSubmit(onSubmit)] of the edit page: nothing is sent unless
    the form validates; the request carries the question and the texts. *)
Definition editForm_submit (pollId : string) (user : option string)
           (form : string * list string) : option EditRequest :=
  if editPollSchema_check (fst form) (snd form)
  then Some (mkEditRequest pollId user (poll_fields (fst form) (snd form)))
  else None.

(** *** Vocabulary of the added properties *)

(** The vote row a successful insert of the event created, by its key. *)
Definition inserted_voter (e : Event) : option (string * string) :=
  match e with
  | Exchange q r =>
      match q, r with
      | votes_insert pollId _ visitorId, Data _ => Some (pollId, visitorId)
      | _, _ => None
      end
  end.

(** A handler that deletes nothing. *)
Fixpoint deletes_nothing {R : Type} (p : Prog R) : Prop :=
  match p with
  | Ret _ => True
  | Call q k =>
      match q with options_delete _ => False | _ => True end
      /\ forall a, deletes_nothing (k a)
  end.

(** The number of vote rows of a visitor on a poll. *)
Definition votes_by (s : Store) (k : string * string) : nat :=
  List.length (filter (fun v => pair_eqb (voter v) k) (vote_rows s)).

(** The number of successful vote inserts of a visitor on a poll in a
    trace. *)
Definition inserts_by (tr : list Event) (k : string * string) : nat :=
  List.length (filter (fun e => match inserted_voter e with
                                | Some k' => pair_eqb k' k
                                | None => false
                                end) tr).

(** A character of a decimal numeral. *)
Definition is_digit (c : ascii) : bool :=
  let n := nat_of_ascii c in ((48 <=? n) && (n <=? 57))%nat.

Fixpoint all_digits (s : string) : bool :=
  match s with
  | EmptyString => true
  | String c rest => is_digit c && all_digits rest
  end.

(** A character of [Math.random().toString(36)]: a digit, a lower-case
    letter or the point. *)
Definition is_base36 (c : ascii) : bool :=
  let n := nat_of_ascii c in
  ((48 <=? n) && (n <=? 57) || (97 <=? n) && (n <=? 122) || (n =? 46))%nat.

Fixpoint all_base36 (s : string) : bool :=
  match s with
  | EmptyString => true
  | String c rest => is_base36 c && all_base36 rest
  end.

(** A string the headers take as it is: it holds no whitespace and no
    refused byte. *)
Fixpoint header_safe (s : string) : bool :=
  match s with
  | EmptyString => true
  | String c rest =>
      negb (http_whitespace c) && negb (refused_byte c) && header_safe rest
  end.

(** A request to any of the routes. *)
Inductive AnyRequest : Type :=
| ToPoll (r : Request)
| ToDelete (req : DeleteRequest)
| ToCreate (req : Polls.CreateRequest) (created_at : string).

(** The store after a request served alone, given with what the store
    refuses while it is served. *)
Definition served (is_uuid : string -> bool) (s : Store)
           (r : AnyRequest * list (option PgError)) : Store :=
  match fst r with
  | ToPoll q => snd (fst (run (snd r) s (handle is_uuid q)))
  | ToDelete req => snd (DELETE req (snd r) s)
  | ToCreate req created_at => snd (Polls.POST req created_at (snd r) s)
  end.

(** A page of the sample poll with its second option selected. *)
Definition loaded_page : Page :=
  setSelectedOption (gen_random_uuid 1)
    (fetchPoll (fst (fst (run [] demo (GET (gen_random_uuid 0))))) initial_page).

Definition first_click : Click :=
  mkClick 1700000000000 "0.4fzyo82mvyr" None None 1700000000123 "0.x7k2m9q4zzz" false
          "Invalid value".

Definition second_click : Click :=
  mkClick 1700000999000 "0.9zzzz11abcd" None None 1700000999456 "0.b8n3p0r5yyy" false
          "Invalid value".

(** A browser whose storage holds a blank identifier. *)
Definition blank : World := mkWorld demo (Some " ") loaded_page.

Definition create : Polls.CreateRequest :=
  Polls.mkCreateRequest (Some "user-1")
    (poll_fields "Favourite editor?" ["Vim"; "Emacs"]).

Definition removal : DeleteRequest :=
  mkDeleteRequest (gen_random_uuid 0) (Some "user-1").

(* ================================================================= *)
(** ** The tally presenter *)

Unset Implicit Arguments.






(** The percentages need not agree with exact arithmetic at a tie:
    29 votes of 200 are 14.5 percent, the binary64 product is just below,
    and the page shows 14. *)
Example getOptionPercentage_29_of_200 : getOptionPercentage 29 200 = Int 14.
Proof. vm_compute. reflexivity. Qed.

Example getOptionPercentage_no_votes : getOptionPercentage 0 0 = Int 0.
Proof. reflexivity. Qed.

(** On every tally of up to 200 votes the double computation yields an
    integer percentage nearest to the exact quotient. *)
Example percentages_nearest_up_to_200 : all_tallies_up_to 200 = true.
Proof. vm_compute. reflexivity. Qed.

(** *** Winner determination *)

Lemma fold_pick_last_greatest :
  forall (rest before mid : list OptionCount) (x : OptionCount),
    (forall o, In o before -> votes o <= votes x) ->
    (forall o, In o mid -> votes o < votes x) ->
    last_greatest (before ++ x :: mid ++ rest) (fold_left pick rest x).
Proof.
  induction rest as [| y rest IH]; intros before mid x Hb Hm; simpl.
  - exists before, mid. rewrite app_nil_r. auto.
  - unfold pick at 2. destruct (Nat.ltb_spec (votes y) (votes x)) as [Hlt | Hge].
    + replace (before ++ x :: mid ++ y :: rest)
        with (before ++ x :: (mid ++ [y]) ++ rest)
        by (rewrite <- app_assoc; reflexivity).
      apply IH; [assumption |].
      intros o Ho. apply in_app_or in Ho. destruct Ho as [Ho | [<- | []]]; auto.
    + replace (before ++ x :: mid ++ y :: rest)
        with ((before ++ x :: mid) ++ y :: [] ++ rest)
        by (rewrite <- app_assoc; reflexivity).
      apply IH; [| intros o []].
      intros o Ho. apply in_app_or in Ho. destruct Ho as [Ho | [<- | Ho]].
      * specialize (Hb o Ho). lia.
      * assumption.
      * specialize (Hm o Ho). lia.
Qed.

Lemma OptionCount_eq_dec (a b : OptionCount) : {a = b} + {a <> b}.
Proof.
  decide equality;
    [apply Nat.eq_dec | apply Z.eq_dec | apply string_dec | apply string_dec].
Qed.

(** C5, as the code has it. For every non-empty option list the winner is
    an option with the greatest vote count (strictly greater than every
    option after it, at least as great as every option before it): an option
    with strictly more votes than every other option wins, and when several
    options tie for the greatest count, the last of them in list order
    wins. *)
Theorem winner_last_greatest :
  forall options : list OptionCount,
    options <> [] ->
    exists w,
      winner options = Some w /\ last_greatest options w /\
      (forall o, In o options ->
                 (forall o', In o' options -> o' <> o -> votes o' < votes o) ->
                 w = o).
Proof.
  intros [| x rest] Hne; [congruence |].
  exists (fold_left pick rest x). split; [reflexivity |].
  pose proof (fold_pick_last_greatest rest [] [] x
                ltac:(intros o []) ltac:(intros o [])) as Hlast.
  split; [exact Hlast |].
  intros o Hin Hmax. simpl in Hlast.
  destruct Hlast as [before [after [Heq [Hb Ha]]]].
  set (w := fold_left pick rest x) in *.
  destruct (OptionCount_eq_dec w o) as [He | Hne']; [assumption | exfalso].
  assert (Hw : In w (x :: rest))
    by (rewrite Heq; apply in_or_app; right; now left).
  pose proof (Hmax w Hw Hne') as Hlt.
  rewrite Heq in Hin. apply in_app_or in Hin.
  destruct Hin as [Hin | [Hin | Hin]].
  - specialize (Hb o Hin). lia.
  - congruence.
  - specialize (Ha o Hin). lia.
Qed.

Lemma winner_last_greatest_witness :
  tie <> [] /\ exists w, winner tie = Some w /\ last_greatest tie w.
Proof.
  split; [discriminate |].
  destruct (winner_last_greatest tie ltac:(discriminate)) as [w [Hw [Hlast _]]].
  exists w. split; assumption.
Defined.

(** C5, as the specification words it, fails: on two options with five
    votes each the winner is the second one, which is not the
    first-encountered option with the greatest count. *)
Lemma winner_tie_not_first :
  ~ (forall w, winner tie = Some w -> first_greatest tie w).
Proof.
  intros H. specialize (H _ eq_refl).
  destruct H as [before [after [Heq [Hb _]]]].
  destruct before as [| b before].
  - discriminate Heq.
  - injection Heq as Hb0 Hrest. specialize (Hb b (or_introl eq_refl)).
    subst b. simpl in Hb. lia.
Qed.

(* ================================================================= *)
(** ** Keys and well-formed stores *)

Section Keys.

Context {A K : Type} (key : A -> K) (eqb : K -> K -> bool).
Hypothesis eqb_eq : forall a b, eqb a b = true <-> a = b.

Lemma existsb_eqb_false (k : K) (l : list K) :
  existsb (eqb k) l = false <-> ~ In k l.
Proof.
  split.
  - intros He Hin.
    assert (existsb (eqb k) l = true) as Ht
      by (apply existsb_exists; exists k; split; [assumption | now apply eqb_eq]).
    congruence.
  - intros Hn. destruct (existsb (eqb k) l) eqn:He; [| reflexivity].
    apply existsb_exists in He. destruct He as [k' [Hin Hk]].
    apply eqb_eq in Hk. subst k'. contradiction.
Qed.

Lemma distinct_NoDup (l : list K) : distinct eqb l = true <-> NoDup l.
Proof.
  induction l as [| k l IH]; simpl.
  - split; [constructor | reflexivity].
  - rewrite andb_true_iff, negb_true_iff, existsb_eqb_false, IH.
    split.
    + intros [Hn Hd]. now constructor.
    + intros Hnd. inversion Hnd. now split.
Qed.

Lemma filter_key_absent (k : K) (l : list A) :
  ~ In k (map key l) -> filter (fun y => eqb (key y) k) l = [].
Proof.
  induction l as [| y l IH]; simpl; intros Hn; [reflexivity |].
  destruct (eqb (key y) k) eqn:He.
  - apply eqb_eq in He. tauto.
  - apply IH. tauto.
Qed.

Lemma filter_key_single (x : A) (l : list A) :
  NoDup (map key l) -> In x l -> filter (fun y => eqb (key y) (key x)) l = [x].
Proof.
  induction l as [| y l IH]; simpl; intros Hnd Hin; [contradiction |].
  inversion Hnd as [| k ks Hny Hnd']; subst.
  destruct Hin as [-> | Hin].
  - replace (eqb (key x) (key x)) with true by (symmetry; now apply eqb_eq).
    now rewrite filter_key_absent.
  - destruct (eqb (key y) (key x)) eqn:He.
    + apply eqb_eq in He. exfalso. apply Hny. rewrite He. now apply in_map.
    + now apply IH.
Qed.

End Keys.

Lemma pair_eqb_eq (a b : string * string) : pair_eqb a b = true <-> a = b.
Proof.
  destruct a as [a1 a2], b as [b1 b2]. unfold pair_eqb. simpl.
  rewrite andb_true_iff, !String.eqb_eq. split.
  - now intros [-> ->].
  - intros [= -> ->]. now split.
Qed.

Lemma store_ok_well_formed (s : Store) : store_ok s = true <-> well_formed s.
Proof.
  unfold store_ok. rewrite !andb_true_iff, !forallb_forall.
  rewrite !(distinct_NoDup String.eqb String.eqb_eq).
  rewrite (distinct_NoDup pair_eqb pair_eqb_eq).
  split.
  - intros [[[[[[[[[? ?] ?] ?] ?] ?] ?] ?] ?] ?]. now constructor.
  - intros []. tauto.
Qed.

(** The select behind [.eq('id', pollId).single()] finds a poll that is
    there. *)
Lemma polls_with_single (s : Store) (p : PollRow) :
  store_ok s = true -> In p (poll_rows s) -> polls_with s (poll_id p) = [p].
Proof.
  intros Hok Hin. apply store_ok_well_formed in Hok.
  apply (filter_key_single poll_id String.eqb String.eqb_eq);
    [apply (polls_pkey Hok) | assumption].
Qed.

Lemma votes_by_voter_single (s : Store) (v : VoteRow) :
  store_ok s = true -> In v (vote_rows s) ->
  filter (fun w => (vote_poll_id w =? vote_poll_id v)
                   && (vote_visitor_id w =? vote_visitor_id v)) (vote_rows s) = [v].
Proof.
  intros Hok Hin. apply store_ok_well_formed in Hok.
  apply (filter_key_single voter pair_eqb pair_eqb_eq);
    [apply (votes_unique Hok) | assumption].
Qed.

Lemma has_vote_false (s : Store) (pollId visitorId : string) :
  has_vote s pollId visitorId = false ->
  filter (fun w => (vote_poll_id w =? pollId) && (vote_visitor_id w =? visitorId))
         (vote_rows s) = [].
Proof.
  unfold has_vote. induction (vote_rows s) as [| w l IH]; simpl; [reflexivity |].
  intros H. apply orb_false_iff in H. destruct H as [Hw Hl].
  rewrite Hw. now apply IH.
Qed.

Lemma find_option_cols (optionId : string) (l : list OptionRow) :
  find (fun o => o_id o =? optionId) (map cols_of_option l)
  = option_map cols_of_option (find (fun o => option_id o =? optionId) l).
Proof.
  induction l as [| o l IH]; simpl; [reflexivity |].
  destruct (option_id o =? optionId); [reflexivity | assumption].
Qed.

Lemma find_option_of_poll (s : Store) (pollId optionId : string) :
  find (fun o => option_id o =? optionId) (options_of s pollId) = None <->
  forall o, In o (option_rows s) -> option_poll_id o = pollId -> option_id o <> optionId.
Proof.
  unfold options_of. split.
  - intros Hf o Hin Hp He.
    assert (Hin' : In o (filter (fun o => option_poll_id o =? pollId) (option_rows s)))
      by (apply filter_In; split; [assumption | now apply String.eqb_eq]).
    pose proof (find_none _ _ Hf o Hin') as Hfalse. simpl in Hfalse.
    apply String.eqb_eq in He. congruence.
  - intros H. destruct (find _ _) as [o |] eqn:Hf; [| reflexivity].
    apply find_some in Hf. destruct Hf as [Hin He].
    apply filter_In in Hin. destruct Hin as [Hin Hp].
    apply String.eqb_eq in He, Hp. exfalso. exact (H o Hin Hp He).
Qed.

(** A handler run alone produces a trace that is one of its runs. *)
Lemma run_runs {R : Type} (p : Prog R) :
  forall faults s r s' tr, run faults s p = (r, s', tr) -> runs p tr r.
Proof.
  induction p as [r0 | X q k IH]; intros faults s r s' tr; simpl.
  - intros [= <- _ <-]. now split.
  - destruct (answer (hd None faults) q s) as [a s1].
    destruct (run (tl faults) s1 (k a)) as [[r1 s2] tr1] eqn:Hrun.
    intros [= <- _ <-]. exists a, tr1. split; [reflexivity |].
    exact (IH a _ _ _ _ _ Hrun).
Qed.

(* ================================================================= *)
(** ** The vote service *)

Lemma run_Call_faults {R X : Type} (faults : list (option PgError))
      (q : Query X) (k : Reply X -> Prog R) (s : Store) :
  run faults s (Call q k) =
  let a := answer (hd None faults) q s in
  let rest := run (tl faults) (snd a) (k (fst a)) in
  (fst (fst rest), snd (fst rest), Exchange q (fst a) :: snd rest).
Proof.
  simpl. destruct (answer (hd None faults) q s) as [a s1]. simpl.
  destruct (run (tl faults) s1 (k a)) as [[r s2] tr]. reflexivity.
Qed.

Lemma run_Call {R X : Type} (q : Query X) (k : Reply X -> Prog R) (s : Store) :
  run [] s (Call q k) =
  (fst (fst (run [] (snd (exec q s)) (k (fst (exec q s))))),
   snd (fst (run [] (snd (exec q s)) (k (fst (exec q s))))),
   Exchange q (fst (exec q s)) :: snd (run [] (snd (exec q s)) (k (fst (exec q s))))).
Proof. apply (run_Call_faults []). Qed.

Lemma exec_read {X : Type} (q : Query X) (s : Store) :
  is_read q = true -> snd (exec q s) = s.
Proof. destruct q; simpl; intros H; try discriminate H; reflexivity. Qed.

(** A refused statement leaves the store as it was. *)
Lemma exec_refused {X : Type} (q : Query X) (s s' : Store) (e : PgError) :
  exec q s = (Error e, s') -> s' = s.
Proof.
  destruct q; simpl; try (intros [= _ <-]; reflexivity); try discriminate.
  - destruct (has_vote s pollId visitorId); [now intros [= _ <-] |].
    destruct (negb _); [now intros [= _ <-] | discriminate].
  - destruct (forallb _ rows); [discriminate | now intros [= _ <-]].
Qed.

Lemma answer_read {X : Type} (fault : option PgError) (q : Query X) (s : Store) :
  is_read q = true -> snd (answer fault q s) = s.
Proof. destruct fault; [reflexivity | apply exec_read]. Qed.

Lemma exec_poll_found (s : Store) (p : PollRow) (pollId : string) :
  store_ok s = true -> In p (poll_rows s) -> poll_id p = pollId ->
  exec (polls_select_options pollId) s
  = (Data (mkPollOptions (poll_id p) (poll_question p)
             (map cols_of_option (options_of s (poll_id p)))), s).
Proof.
  intros Hok Hin <-. simpl. now rewrite (polls_with_single s p Hok Hin).
Qed.

Lemma exec_vote_found (s : Store) (v : VoteRow) (pollId visitorId : string) :
  store_ok s = true -> In v (vote_rows s) -> voter v = (pollId, visitorId) ->
  exec (votes_select_id pollId visitorId) s = (Data (vote_id v), s).
Proof.
  intros Hok Hin [= <- <-]. simpl. now rewrite (votes_by_voter_single s v Hok Hin).
Qed.

Lemma exec_vote_absent (s : Store) (pollId visitorId : string) :
  has_vote s pollId visitorId = false ->
  exec (votes_select_id pollId visitorId) s = (Error not_single_row, s).
Proof.
  intros H. simpl. now rewrite (has_vote_false s pollId visitorId H).
Qed.

Lemma find_option_found (s : Store) (o : OptionRow) (pollId : string) :
  In o (option_rows s) -> option_poll_id o = pollId ->
  find (fun c => o_id c =? option_id o) (map cols_of_option (options_of s pollId))
  <> None.
Proof.
  intros Hin Hp Hf. rewrite find_option_cols in Hf.
  destruct (find _ (options_of s pollId)) eqn:Hfind; [discriminate |].
  pose proof (proj1 (find_option_of_poll _ _ _) Hfind o Hin Hp) as Hne.
  now apply Hne.
Qed.

(** C2. For every vote request that passes validation (the body parses, the
    poll is there and the option is one of its options) while a vote row
    already exists for its (poll, visitor identifier) pair, the handler
    answers with the conflict error after two reads: no vote is inserted,
    the tally is not read again, and the store is unchanged. *)
Theorem castVote_duplicate_is_conflict :
  forall (is_uuid : string -> bool) (req : VoteRequest) (s : Store)
         (p : PollRow) (o : OptionRow) (v : VoteRow),
    store_ok s = true ->
    voteSchema_parse is_uuid (vote_json req) = Parsed (option_id o) ->
    In p (poll_rows s) -> poll_id p = vote_params_id req ->
    In o (option_rows s) -> option_poll_id o = vote_params_id req ->
    In v (vote_rows s) -> voter v = (vote_params_id req, visitor_id_of req) ->
    run [] s (POST is_uuid req) =
      (conflict, s,
       [Exchange (polls_select_options (vote_params_id req))
          (Data (mkPollOptions (poll_id p) (poll_question p)
                   (map cols_of_option (options_of s (poll_id p)))));
        Exchange (votes_select_id (vote_params_id req) (visitor_id_of req))
          (Data (vote_id v))]).
Proof.
  intros is_uuid req s p o v Hok Hparse Hp Hpid Ho Hopid Hv Hvoter.
  unfold POST. rewrite Hparse.
  rewrite run_Call, (exec_poll_found s p _ Hok Hp Hpid). simpl fst. simpl snd.
  cbv beta iota. simpl po_options.
  pose proof (find_option_found s o _ Ho (eq_trans Hopid (eq_sym Hpid))) as Hfind.
  destruct (find _ _) as [c |]; [clear Hfind | congruence].
  rewrite run_Call, (exec_vote_found s v _ _ Hok Hv Hvoter). reflexivity.
Qed.

Lemma castVote_duplicate_is_conflict_witness :
  exists tr, run [] demo (POST uuid_shape again) = (conflict, demo, tr).
Proof.
  eexists.
  apply (castVote_duplicate_is_conflict uuid_shape again demo
           (mkPoll (gen_random_uuid 0) "user-1" "Best framework?" "2024-01-01T00:00:00Z")
           (mkOption (gen_random_uuid 2) (gen_random_uuid 0) "Vue" 1)
           (mkVote (gen_random_uuid 5) (gen_random_uuid 0) (gen_random_uuid 1)
                   "visitor-789")).
  - vm_compute. reflexivity.
  - vm_compute. reflexivity.
  - simpl. auto.
  - reflexivity.
  - simpl. auto.
  - reflexivity.
  - simpl. auto.
  - reflexivity.
Defined.

(** Validation comes first: the visitor who has voted, voting again for the
    option of another poll, is answered 400, not 409. *)
Example castVote_validation_comes_first :
  fst (fst (run [] demo (POST uuid_shape
                           (vote_request (Some "visitor-789") (gen_random_uuid 4)))))
  = json 400 (ErrorBody "Invalid option for this poll").
Proof. vm_compute. reflexivity. Qed.

(** The pre-check keeps the data of its reply and drops the error: when the
    store refuses that read, the handler goes on to the insert, which the
    uniqueness constraint refuses. *)
Example castVote_precheck_refused :
  fst (fst (run [None; Some unavailable] demo (POST uuid_shape again)))
  = json 500 (ErrorBody "Failed to cast vote")
  /\ map refused_insert (snd (run [None; Some unavailable] demo (POST uuid_shape again)))
     = [None; None; Some unique_violation]
  /\ snd (fst (run [None; Some unavailable] demo (POST uuid_shape again))) = demo.
Proof. vm_compute. repeat split; reflexivity. Qed.

(** C3. For every vote request whose poll exists while the submitted
    optionId is not the id of one of that poll's options, the handler answers
    400 (the poll/option mismatch error when the id is a well-formed uuid,
    the schema error otherwise), issues reads only and leaves the store
    unchanged; options of other polls play no part. *)
Theorem castVote_foreign_option_is_rejected :
  forall (is_uuid : string -> bool) (req : VoteRequest) (s : Store)
         (p : PollRow) (optionId : string),
    store_ok s = true ->
    vote_json req = vote_optionId optionId ->
    In p (poll_rows s) -> poll_id p = vote_params_id req ->
    (forall o, In o (option_rows s) ->
               option_poll_id o = vote_params_id req -> option_id o <> optionId) ->
    exists tr,
      run [] s (POST is_uuid req)
      = (json 400 (if is_uuid optionId
                   then ErrorBody "Invalid option for this poll"
                   else ErrorDetails "Invalid request data"), s, tr)
      /\ forallb event_is_read tr = true.
Proof.
  intros is_uuid req s p optionId Hok Hjson Hp Hpid Hnone.
  unfold POST, voteSchema_parse. rewrite Hjson.
  destruct (is_uuid optionId).
  - rewrite run_Call, (exec_poll_found s p _ Hok Hp Hpid). simpl fst. simpl snd.
    cbv beta iota. simpl po_options.
    rewrite find_option_cols.
    rewrite <- Hpid in Hnone.
    rewrite (proj2 (find_option_of_poll s (poll_id p) optionId) Hnone).
    simpl. eexists. split; reflexivity.
  - simpl. eexists. split; reflexivity.
Qed.

Lemma castVote_foreign_option_is_rejected_witness :
  exists tr,
    run [] demo (POST uuid_shape astray)
    = (json 400 (ErrorBody "Invalid option for this poll"), demo, tr)
    /\ forallb event_is_read tr = true.
Proof.
  apply (castVote_foreign_option_is_rejected uuid_shape astray demo
           (mkPoll (gen_random_uuid 0) "user-1" "Best framework?" "2024-01-01T00:00:00Z")
           (gen_random_uuid 4)).
  - vm_compute. reflexivity.
  - reflexivity.
  - simpl. auto.
  - reflexivity.
  - intros o [<- | [<- | [<- | []]]]; vm_compute; intros H1 H2; discriminate.
Defined.

(** The option of the sample request does exist, under the other poll. *)
Example astray_option_exists_elsewhere :
  has_option demo (gen_random_uuid 4) = true
  /\ find (fun o => option_id o =? gen_random_uuid 4) (options_of demo (gen_random_uuid 0))
     = None.
Proof. vm_compute. split; reflexivity. Qed.

(** C9, as the code has it. For every vote request that carries no
    [x-visitor-id] header, the visitor identifier is the token made up for
    this request from the clock and a random draw; unless a vote of the poll
    already carries that very token, the duplicate pre-check finds no vote
    and, whatever the store does with the other statements, the answer is
    never the 409 conflict. *)
Theorem castVote_fresh_token_never_conflict :
  forall (is_uuid : string -> bool) (req : VoteRequest) (s : Store)
         (faults : list (option PgError)),
    x_visitor_id req = None ->
    has_vote s (vote_params_id req) (fresh_visitor_id req) = false ->
    visitor_id_of req = fresh_visitor_id req /\
    exec (votes_select_id (vote_params_id req) (visitor_id_of req)) s
    = (Error not_single_row, s) /\
    status (fst (fst (run faults s (POST is_uuid req)))) <> 409.
Proof.
  intros is_uuid req s faults Hheader Hfresh.
  assert (Hid : visitor_id_of req = fresh_visitor_id req)
    by (unfold visitor_id_of; now rewrite Hheader).
  split; [assumption |]. rewrite Hid.
  split; [now apply exec_vote_absent |].
  unfold POST. rewrite Hid.
  destruct (voteSchema_parse is_uuid (vote_json req)) as [| | optionId];
    [simpl; lia | simpl; lia |].
  rewrite run_Call_faults. cbv zeta.
  pose proof (answer_read (hd None faults) (polls_select_options (vote_params_id req))
                s eq_refl) as Hs1.
  destruct (answer (hd None faults) _ s) as [found s1]. simpl in Hs1. subst s1.
  cbn [fst snd].
  destruct found as [poll | e]; [| simpl; lia].
  destruct (find _ (po_options poll)); [| simpl; lia].
  rewrite run_Call_faults. cbv zeta.
  assert (Hpre : exists e, answer (hd None (tl faults))
                   (votes_select_id (vote_params_id req) (fresh_visitor_id req)) s
                 = (Error e, s)).
  { destruct (hd None (tl faults)) as [e |]; simpl answer.
    - now exists e.
    - exists not_single_row. now apply exec_vote_absent. }
  destruct Hpre as [e ->]. cbn [fst snd].
  rewrite run_Call_faults. cbv zeta.
  destruct (answer (hd None (tl (tl faults))) _ s) as [[[] | e3] s3];
    cbn [fst snd]; [| simpl; lia].
  rewrite run_Call_faults. cbv zeta.
  destruct (answer (hd None (tl (tl (tl faults)))) _ s3) as [[rows | e4] s4];
    simpl; lia.
Qed.

Lemma castVote_fresh_token_never_conflict_witness :
  visitor_id_of anonymous = "visitor_1700000000000_4fzyo82mv" /\
  status (fst (fst (run [] demo (POST uuid_shape anonymous)))) <> 409.
Proof.
  destruct (castVote_fresh_token_never_conflict uuid_shape anonymous demo []
              eq_refl eq_refl) as [Hid [_ Hstatus]].
  split; [exact Hid | exact Hstatus].
Defined.

(** C9, as stated, fails: the made-up token is not fresh by construction.
    A request without the header that meets the same clock reading and the
    same random draw as an earlier one (or a token a client has sent in the
    header before) finds the earlier vote and is answered with the
    conflict. *)
Lemma castVote_without_header_collision :
  x_visitor_id anonymous = None /\
  status (fst (fst (run [] demo (POST uuid_shape anonymous)))) = 200 /\
  has_vote voted (vote_params_id anonymous) (fresh_visitor_id anonymous) = true /\
  fst (fst (run [] voted (POST uuid_shape anonymous))) = conflict.
Proof. vm_compute. repeat split; reflexivity. Qed.

(** Taking a run of a handler apart, call by call and branch by branch. *)
Ltac runs_cases H :=
  repeat (simpl in H;
          match type of H with
          | _ = [] /\ _ = _ => destruct H as [-> ->]
          | exists _, _ => destruct H as [? [? [-> H]]]
          | runs (match ?x with _ => _ end) _ _ => destruct x eqn:?
          end).

(** C1, as the code has it. For every vote request whose insert is refused
    by the store, whatever the error and so also for a violation of
    [unique(poll_id, visitor_id)], the handler answers with the storage error
    500 "Failed to cast vote"; nothing tells a duplicate from another
    failure.  The conflict error comes from the pre-check only: a request
    answered 409 is answered with the conflict error, after exactly two
    reads, the second of which is the pre-check under the request's poll and
    visitor returning a vote row; no insert was tried. *)
Theorem castVote_refused_insert_is_storage_error :
  forall (is_uuid : string -> bool) (req : VoteRequest)
         (tr : list Event) (resp : Response),
    runs (POST is_uuid req) tr resp ->
    (forall e, In (Some e) (map refused_insert tr) ->
               resp = json 500 (ErrorBody "Failed to cast vote"))
    /\ (status resp = 409 ->
        resp = conflict
        /\ exists poll vote,
             tr = [Exchange (polls_select_options (vote_params_id req)) (Data poll);
                   Exchange (votes_select_id (vote_params_id req) (visitor_id_of req))
                            (Data vote)]).
Proof.
  intros is_uuid req tr resp Hruns.
  unfold POST in Hruns. split.
  - intros e Hin.
    runs_cases Hruns; simpl in Hin;
      repeat (destruct Hin as [Hin | Hin]; try discriminate Hin);
      solve [reflexivity | contradiction].
  - intros Hstatus.
    runs_cases Hruns; simpl in Hstatus; try discriminate Hstatus.
    split; [reflexivity |]. eexists. eexists. reflexivity.
Qed.

Lemma castVote_refused_insert_is_storage_error_witness :
  exists tr resp,
    runs (POST uuid_shape twice) tr resp /\
    In (Some unique_violation) (map refused_insert tr) /\
    resp = json 500 (ErrorBody "Failed to cast vote").
Proof.
  exists (second_trace (race neck_and_neck demo (POST uuid_shape twice)
                             (POST uuid_shape twice))).
  exists (json 500 (ErrorBody "Failed to cast vote")).
  assert (Hruns : runs (POST uuid_shape twice)
                    (second_trace (race neck_and_neck demo (POST uuid_shape twice)
                                        (POST uuid_shape twice)))
                    (json 500 (ErrorBody "Failed to cast vote"))).
  { vm_compute.
    repeat (cbn; eexists; eexists; split; [reflexivity |]).
    cbn. split; reflexivity. }
  assert (Hin : In (Some unique_violation)
                  (map refused_insert
                     (second_trace (race neck_and_neck demo (POST uuid_shape twice)
                                         (POST uuid_shape twice)))))
    by (vm_compute; auto).
  split; [exact Hruns |]. split; [exact Hin |].
  exact (proj1 (castVote_refused_insert_is_storage_error uuid_shape twice _ _ Hruns)
               _ Hin).
Defined.

(** C1, as the specification words it, fails.  Two requests of the same
    visitor race: both look for the poll and for an earlier vote before
    either inserts.  The first insert succeeds; the second is refused by the
    uniqueness constraint, and its request is answered with the storage
    error, not with the conflict error of the pre-check. *)
Lemma castVote_race_loser_is_not_conflict :
  let c := race neck_and_neck demo (POST uuid_shape twice) (POST uuid_shape twice) in
  map refused_insert (first_trace c) = [None; None; None; None] /\
  map refused_insert (second_trace c) = [None; None; Some unique_violation] /\
  second c = Ret (json 500 (ErrorBody "Failed to cast vote")) /\
  second c <> Ret conflict /\
  List.length (votes_of (store c) (gen_random_uuid 0)) = 2.
Proof.
  vm_compute. repeat split; try reflexivity. intros H. discriminate H.
Qed.

(* ================================================================= *)
(** ** The identity resolver *)

Lemma visitor_id_of_header (req : VoteRequest) (token : string) :
  x_visitor_id req = Some token -> token <> "" -> visitor_id_of req = token.
Proof.
  intros Hh Hne. unfold visitor_id_of. rewrite Hh.
  destruct (String.eqb_spec token ""); [contradiction | reflexivity].
Qed.

Lemma visitor_id_of_fresh (req : VoteRequest) :
  x_visitor_id req = None \/ x_visitor_id req = Some "" ->
  visitor_id_of req = fresh_visitor_id req.
Proof.
  unfold visitor_id_of. intros [-> | ->]; reflexivity.
Qed.

Lemma Headers_append_normalize (sent header : string) :
  Headers_append sent = Some header -> header = normalize sent.
Proof.
  unfold Headers_append. destruct (holds_refused_byte (normalize sent));
    [discriminate | now intros [= <-]].
Qed.

(** C6, as the code has it by design.  No session is consulted.  A vote
    request whose [x-visitor-id] header, as the headers hold it (the value
    sent without its surrounding whitespace), is not empty is known by that
    client-supplied token; a request without such a header and without a
    [visitor_id] cookie is known by a token made up from the clock and a
    random suffix.  The identifier depends on nothing but header, cookie,
    clock and random draw.  It is the one presented to the store, and it is
    written back in a [visitor_id] cookie of one year on every successful
    answer (whether it was made up or supplied) and on no other answer.
    What becomes of a request with a cookie and no header is left open
    here. *)
Theorem visitor_id_from_header_or_fresh :
  forall (is_uuid : string -> bool) (req : VoteRequest)
         (tr : list Event) (resp : Response),
    runs (POST is_uuid req) tr resp ->
    (forall token, x_visitor_id req = Some token -> token <> "" ->
                   visitor_id_of req = token) /\
    (forall sent header, Headers_append sent = Some header ->
                         x_visitor_id req = Some header -> header <> "" ->
                         visitor_id_of req = normalize sent) /\
    (x_visitor_id req = None \/ x_visitor_id req = Some "" ->
     cookie_visitor_id req = None ->
     visitor_id_of req
     = ("visitor_" ++ decimal (now req) ++ "_" ++ substr 2 9 (random36 req))%string) /\
    (forall req', x_visitor_id req' = x_visitor_id req ->
                  cookie_visitor_id req' = cookie_visitor_id req ->
                  now req' = now req -> random36 req' = random36 req ->
                  visitor_id_of req' = visitor_id_of req) /\
    (forall v, In (Some v) (map event_visitor tr) -> v = visitor_id_of req) /\
    cookies resp
    = (if (status resp =? 200)%nat
       then [mkCookie "visitor_id" (visitor_id_of req) one_year true
                      (production req) "lax"]
       else []).
Proof.
  intros is_uuid req tr resp Hruns.
  split; [apply visitor_id_of_header |].
  split.
  { intros sent header Hsent Hh Hne.
    rewrite <- (Headers_append_normalize sent header Hsent).
    now apply visitor_id_of_header. }
  split; [intros Hh _; now apply visitor_id_of_fresh |].
  split.
  { intros req' Hh _ Hn Hr. unfold visitor_id_of, fresh_visitor_id.
    now rewrite Hh, Hn, Hr. }
  unfold POST in Hruns.
  runs_cases Hruns; (split; [| reflexivity]); intros v Hin; simpl in Hin;
    repeat (destruct Hin as [Hin | Hin]; try discriminate Hin);
    try contradiction; now injection Hin.
Qed.

Lemma visitor_id_from_header_or_fresh_witness :
  exists tr resp,
    runs (POST uuid_shape anonymous) tr resp /\
    status resp = 200 /\
    cookies resp
    = [mkCookie "visitor_id" "visitor_1700000000000_4fzyo82mv" 31536000 true false "lax"].
Proof.
  exists (snd (run [] demo (POST uuid_shape anonymous))).
  exists (fst (fst (run [] demo (POST uuid_shape anonymous)))).
  assert (Hruns : runs (POST uuid_shape anonymous)
                    (snd (run [] demo (POST uuid_shape anonymous)))
                    (fst (fst (run [] demo (POST uuid_shape anonymous))))).
  { apply (run_runs (POST uuid_shape anonymous) [] demo _
             (snd (fst (run [] demo (POST uuid_shape anonymous))))).
    destruct (run [] demo (POST uuid_shape anonymous)) as [[r s] tr]. reflexivity. }
  split; [exact Hruns |]. split; [vm_compute; reflexivity |].
  destruct (visitor_id_from_header_or_fresh uuid_shape anonymous _ _ Hruns)
    as [_ [_ [_ [_ [_ Hcookie]]]]].
  rewrite Hcookie. vm_compute. reflexivity.
Defined.

(** A header sent with whitespace around the token reaches the route
    without it, and a blank header reaches it empty. *)
Example Headers_append_strips :
  Headers_append "  visitor-123 " = Some "visitor-123"
  /\ Headers_append " " = Some "".
Proof. split; reflexivity. Qed.

(** C6, as the specification words it, fails: a signed-in visitor whose
    request carries the header (and no cookie) is not known by the id of the
    session but by the token of the header. *)
Lemma visitor_id_ignores_session :
  session_user signed_in = Some "user-1" /\
  x_visitor_id signed_in = Some "visitor-123" /\
  cookie_visitor_id signed_in = None /\
  spec_visitor_id signed_in = "user-1" /\
  visitor_id_of signed_in = "visitor-123" /\
  visitor_id_of signed_in <> spec_visitor_id signed_in.
Proof.
  vm_compute. repeat split; try reflexivity. intros H. discriminate H.
Qed.

(* ================================================================= *)
(** ** The poll edit flow *)

Lemma exec_update (s : Store) (pollId question : string) :
  exec (polls_update_question pollId question) s
  = (Data tt, mkStore (map (retitled pollId question) (poll_rows s))
                      (option_rows s) (vote_rows s) (uuids s)).
Proof. reflexivity. Qed.

Lemma options_of_deleted (s : Store) (pollId : string) :
  options_of (snd (exec (options_delete pollId) s)) pollId = [].
Proof.
  unfold options_of. simpl.
  induction (option_rows s) as [| o l IH]; simpl; [reflexivity |].
  destruct (option_poll_id o =? pollId) eqn:He; simpl; [assumption |].
  now rewrite He.
Qed.

Lemma exec_owner_found (fault : option PgError) (s s1 : Store) (pollId : string)
      (row : string * string) :
  answer fault (polls_select_owner pollId) s = (Data row, s1) ->
  s1 = s /\ exists p, In p (poll_rows s) /\ poll_id p = pollId
                      /\ row = (poll_id p, poll_user_id p).
Proof.
  destruct fault as [e |]; simpl; [discriminate |].
  unfold polls_with.
  destruct (filter _ (poll_rows s)) as [| p [| p' l]] eqn:Hf; simpl;
    try discriminate.
  intros [= <- <-]. split; [reflexivity |].
  assert (Hin : In p (filter (fun p => poll_id p =? pollId) (poll_rows s)))
    by (rewrite Hf; now left).
  apply filter_In in Hin. destruct Hin as [Hin He].
  apply String.eqb_eq in He. now exists p.
Qed.

Lemma retitled_poll (pollId question : string) (l : list PollRow) (p : PollRow) :
  In p l -> poll_id p = pollId ->
  exists p', In p' (map (retitled pollId question) l)
             /\ poll_id p' = pollId /\ poll_question p' = question.
Proof.
  intros Hin Hp. exists (retitled pollId question p).
  split; [now apply in_map |].
  unfold retitled. rewrite (proj2 (String.eqb_eq _ _) Hp). now split.
Qed.

Lemma updatePollSchema_parsed (j : PollJson) (question : string) (texts : list string) :
  updatePollSchema_parse j = Parsed (question, texts) -> j = poll_fields question texts.
Proof.
  destruct j as [| | q ts]; simpl; try discriminate.
  destruct (_ && _); [| discriminate]. now intros [= <- <-].
Qed.

(** C10. The edit is not atomic.  For every edit whose question update
    succeeded: when the delete of the options is then refused, the answer is
    the storage error 500 "Failed to update poll options" and the store is
    the one with the question already replaced; when the delete succeeded and
    the insert of the new options is refused, the answer is 500 "Failed to
    create poll options", the question is replaced and the poll is left with
    no option at all. *)
Theorem updatePoll_is_not_atomic :
  forall (req : EditRequest) (s : Store) (faults : list (option PgError))
         (resp : Response) (s' : Store) (tr : list Event),
    run faults s (PUT req) = (resp, s', tr) ->
    map succeeded tr = [true; true; false]
    \/ map succeeded tr = [true; true; true; false] ->
    exists question texts p,
      edit_json req = poll_fields question texts /\
      In p (poll_rows s') /\ poll_id p = edit_params_id req /\
      poll_question p = question /\
      poll_rows s' = map (retitled (edit_params_id req) question) (poll_rows s) /\
      ((map succeeded tr = [true; true; false] /\
        resp = json 500 (ErrorBody "Failed to update poll options") /\
        option_rows s' = option_rows s /\ vote_rows s' = vote_rows s)
       \/
       (map succeeded tr = [true; true; true; false] /\
        resp = json 500 (ErrorBody "Failed to create poll options") /\
        options_of s' (edit_params_id req) = [])).
Proof.
  intros req s faults resp s' tr Hrun Hsteps.
  unfold PUT in Hrun.
  destruct (auth_user req) as [user |];
    [| injection Hrun as <- <- <-; destruct Hsteps; discriminate].
  rewrite run_Call_faults in Hrun. cbv zeta in Hrun.
  destruct (answer (hd None faults) _ s) as [[[pid owner] | e1] s1] eqn:Hfound;
    cbn [fst snd] in Hrun;
    [| injection Hrun as <- <- <-; destruct Hsteps; discriminate].
  apply exec_owner_found in Hfound.
  destruct Hfound as [-> [p0 [Hp0 [Hpid _]]]].
  destruct (negb (owner =? user));
    [simpl in Hrun; injection Hrun as <- <- <-; destruct Hsteps; discriminate |].
  destruct (updatePollSchema_parse (edit_json req)) as [| | [question texts]] eqn:Hparse;
    try (simpl in Hrun; injection Hrun as <- <- <-; destruct Hsteps; discriminate).
  apply updatePollSchema_parsed in Hparse.
  rewrite run_Call_faults in Hrun. cbv zeta in Hrun.
  destruct (hd None (tl faults)) as [e2 |]; cbn [answer fst snd] in Hrun;
    [injection Hrun as <- <- <-; destruct Hsteps; discriminate |].
  rewrite exec_update in Hrun. cbn [fst snd] in Hrun.
  rewrite run_Call_faults in Hrun. cbv zeta in Hrun.
  destruct (retitled_poll (edit_params_id req) question (poll_rows s) p0 Hp0 Hpid)
    as [p [Hp [Hppid Hpq]]].
  exists question, texts, p.
  destruct (hd None (tl (tl faults))) as [e3 |]; cbn [answer fst snd] in Hrun.
  - injection Hrun as <- <- <-. simpl.
    repeat split; try assumption; try reflexivity.
    left. repeat split; reflexivity.
  - set (s2 := mkStore (map (retitled (edit_params_id req) question) (poll_rows s))
                       (option_rows s) (vote_rows s) (uuids s)) in *.
    pose proof (options_of_deleted s2 (edit_params_id req)) as Hnone.
    destruct (exec (options_delete (edit_params_id req)) s2) as [[[] | e] s3] eqn:Hdel;
      [| discriminate Hdel].
    cbn [fst snd] in Hrun, Hnone.
    rewrite run_Call_faults in Hrun. cbv zeta in Hrun.
    assert (Hpolls : poll_rows s3 = poll_rows s2) by (now injection Hdel as <-).
    destruct (hd None (tl (tl (tl faults)))) as [e4 |]; cbn [answer fst snd] in Hrun.
    + injection Hrun as <- <- <-. simpl.
      repeat split; try assumption; try reflexivity.
      * now rewrite Hpolls.
      * right. repeat split; try reflexivity. assumption.
    + destruct (exec (options_insert _) s3) as [[[] | e] s4] eqn:Hins;
        simpl in Hrun; injection Hrun as <- <- <-.
      * simpl in Hsteps. destruct Hsteps; discriminate.
      * apply exec_refused in Hins. subst s4. simpl.
        repeat split; try assumption; try reflexivity.
        -- now rewrite Hpolls.
        -- right. repeat split; try reflexivity. assumption.
Qed.

Lemma updatePoll_is_not_atomic_witness :
  exists question texts p,
    edit_json edit = poll_fields question texts /\
    In p (poll_rows (snd (fst (run insert_refused demo (PUT edit))))) /\
    poll_id p = edit_params_id edit /\
    poll_question p = question /\
    poll_rows (snd (fst (run insert_refused demo (PUT edit))))
    = map (retitled (edit_params_id edit) question) (poll_rows demo) /\
    ((map succeeded (snd (run insert_refused demo (PUT edit))) = [true; true; false] /\
      fst (fst (run insert_refused demo (PUT edit)))
      = json 500 (ErrorBody "Failed to update poll options") /\
      option_rows (snd (fst (run insert_refused demo (PUT edit)))) = option_rows demo /\
      vote_rows (snd (fst (run insert_refused demo (PUT edit)))) = vote_rows demo)
     \/
     (map succeeded (snd (run insert_refused demo (PUT edit)))
      = [true; true; true; false] /\
      fst (fst (run insert_refused demo (PUT edit)))
      = json 500 (ErrorBody "Failed to create poll options") /\
      options_of (snd (fst (run insert_refused demo (PUT edit)))) (edit_params_id edit)
      = [])).
Proof.
  apply (updatePoll_is_not_atomic edit demo insert_refused).
  - destruct (run insert_refused demo (PUT edit)) as [[r s] tr]. reflexivity.
  - right. vm_compute. reflexivity.
Defined.

(** The other half on the sample: the delete is refused, the question is
    already the new one and the old options are still there. *)
Example updatePoll_delete_refused :
  fst (fst (run delete_refused demo (PUT edit)))
  = json 500 (ErrorBody "Failed to update poll options")
  /\ map poll_question (polls_with (snd (fst (run delete_refused demo (PUT edit))))
                                   (gen_random_uuid 0))
     = ["Best framework in 2024?"]
  /\ map option_text (options_of (snd (fst (run delete_refused demo (PUT edit))))
                                 (gen_random_uuid 0))
     = ["Vue"; "React"].
Proof. vm_compute. repeat split; reflexivity. Qed.

(** *** Generated identifiers *)

Lemma decimal_inj (a b : N) : decimal a = decimal b -> a = b.
Proof.
  unfold decimal. intros H.
  assert (Hnil : forall n, N.to_uint n <> Decimal.Nil).
  { intros [| p]; [discriminate | apply DecimalPos.Unsigned.to_uint_nonnil]. }
  pose proof (NilZero.usu (N.to_uint a) (Hnil a)) as Ha.
  pose proof (NilZero.usu (N.to_uint b) (Hnil b)) as Hb.
  rewrite H in Ha. rewrite Ha in Hb. injection Hb as Hab.
  now apply DecimalN.Unsigned.to_uint_inj.
Qed.

Lemma append_inv_head (p a b : string) : (p ++ a = p ++ b)%string -> a = b.
Proof.
  induction p as [| c p IH]; simpl; [trivial |].
  intros [= H]. now apply IH.
Qed.

Lemma gen_random_uuid_inj (n m : nat) :
  gen_random_uuid n = gen_random_uuid m -> n = m.
Proof.
  unfold gen_random_uuid. intros H.
  apply append_inv_head, decimal_inj in H. lia.
Qed.

Lemma drawn_lt (s : Store) (i : string) :
  drawn s i = true -> exists k, k < uuids s /\ gen_random_uuid k = i.
Proof.
  unfold drawn. intros H. apply existsb_exists in H.
  destruct H as [k [Hin He]]. apply in_seq in Hin. apply String.eqb_eq in He.
  exists k. split; [lia | assumption].
Qed.

Lemma fresh_options_ids (rows : list NewOption) :
  forall n o, In o (fresh_options n rows) ->
              exists k, n <= k /\ option_id o = gen_random_uuid k.
Proof.
  induction rows as [| r rows IH]; simpl; intros n o Hin; [contradiction |].
  destruct Hin as [<- | Hin].
  - exists n. split; [lia | reflexivity].
  - destruct (IH (S n) o Hin) as [k [Hk He]]. exists k. split; [lia | assumption].
Qed.

Lemma fresh_options_own (pollId : string) (texts : list string) :
  forall n i,
    filter (fun o => option_poll_id o =? pollId)
           (fresh_options n (optionsData pollId i texts))
    = fresh_options n (optionsData pollId i texts).
Proof.
  induction texts as [| t texts IH]; simpl; intros n i; [reflexivity |].
  rewrite String.eqb_refl. now rewrite IH.
Qed.

Lemma fresh_options_other (pollId other : string) (texts : list string) :
  other <> pollId ->
  forall n i,
    filter (fun o => option_poll_id o =? other)
           (fresh_options n (optionsData pollId i texts)) = [].
Proof.
  intros Hne. induction texts as [| t texts IH]; simpl; intros n i; [reflexivity |].
  destruct (String.eqb_spec pollId other); [congruence | apply IH].
Qed.

Lemma fresh_options_texts (pollId : string) (texts : list string) :
  forall n i, map option_text (fresh_options n (optionsData pollId i texts)) = texts.
Proof.
  induction texts as [| t texts IH]; simpl; intros n i; [reflexivity |].
  now rewrite IH.
Qed.

Lemma fresh_options_positions (pollId : string) (texts : list string) :
  forall n i,
    map option_position (fresh_options n (optionsData pollId i texts))
    = map Z.of_nat (seq i (List.length texts)).
Proof.
  induction texts as [| t texts IH]; simpl; intros n i; [reflexivity |].
  now rewrite IH.
Qed.

Lemma filter_filter_negb {A : Type} (f : A -> bool) (l : list A) :
  filter f (filter (fun x => negb (f x)) l) = [].
Proof.
  induction l as [| x l IH]; simpl; [reflexivity |].
  destruct (f x) eqn:Hf; simpl; [assumption | now rewrite Hf].
Qed.

Lemma filter_other_poll (pollId other : string) (l : list OptionRow) :
  other <> pollId ->
  filter (fun o => option_poll_id o =? other)
         (filter (fun o => negb (option_poll_id o =? pollId)) l)
  = filter (fun o => option_poll_id o =? other) l.
Proof.
  intros Hne. induction l as [| o l IH]; simpl; [reflexivity |].
  destruct (String.eqb_spec (option_poll_id o) pollId) as [He | He]; simpl.
  - destruct (String.eqb_spec (option_poll_id o) other); [congruence | assumption].
  - now rewrite IH.
Qed.

(** An identifier of the store is none of those generated later. *)
Lemma drawn_not_fresh (s : Store) (o o' : OptionRow) (rows : list NewOption) :
  drawn s (option_id o) = true -> In o' (fresh_options (uuids s) rows) ->
  option_id o' <> option_id o.
Proof.
  intros Hd Hin He.
  apply drawn_lt in Hd. destruct Hd as [j [Hj Hgen]].
  apply fresh_options_ids in Hin. destruct Hin as [k [Hk Hgen']].
  rewrite <- Hgen, Hgen' in He. apply gen_random_uuid_inj in He. lia.
Qed.

(** The store a successful edit leaves behind. *)
Lemma updatePoll_success_store :
  forall (req : EditRequest) (s : Store) (faults : list (option PgError))
         (resp : Response) (s' : Store) (tr : list Event),
    run faults s (PUT req) = (resp, s', tr) ->
    status resp = 200 ->
    exists question texts,
      edit_json req = poll_fields question texts /\
      poll_rows s' = map (retitled (edit_params_id req) question) (poll_rows s) /\
      option_rows s'
      = filter (fun o => negb (option_poll_id o =? edit_params_id req)) (option_rows s)
        ++ fresh_options (uuids s) (optionsData (edit_params_id req) 0 texts).
Proof.
  intros req s faults resp s' tr Hrun Hok.
  unfold PUT in Hrun.
  destruct (auth_user req) as [user |];
    [| injection Hrun as <- <- <-; discriminate].
  rewrite run_Call_faults in Hrun. cbv zeta in Hrun.
  destruct (answer (hd None faults) _ s) as [[[pid owner] | e1] s1] eqn:Hfound;
    cbn [fst snd] in Hrun;
    [| injection Hrun as <- <- <-; discriminate].
  apply exec_owner_found in Hfound. destruct Hfound as [-> _].
  destruct (negb (owner =? user));
    [simpl in Hrun; injection Hrun as <- <- <-; discriminate |].
  destruct (updatePollSchema_parse (edit_json req)) as [| | [question texts]] eqn:Hparse;
    try (simpl in Hrun; injection Hrun as <- <- <-; discriminate).
  apply updatePollSchema_parsed in Hparse.
  exists question, texts. split; [assumption |].
  rewrite run_Call_faults in Hrun. cbv zeta in Hrun.
  destruct (hd None (tl faults)) as [e2 |]; cbn [answer fst snd] in Hrun;
    [injection Hrun as <- <- <-; discriminate |].
  rewrite exec_update in Hrun. cbn [fst snd] in Hrun.
  rewrite run_Call_faults in Hrun. cbv zeta in Hrun.
  destruct (hd None (tl (tl faults))) as [e3 |]; cbn [answer fst snd] in Hrun;
    [injection Hrun as <- <- <-; discriminate |].
  cbn [exec fst snd] in Hrun.
  rewrite run_Call_faults in Hrun. cbv zeta in Hrun.
  destruct (hd None (tl (tl (tl faults)))) as [e4 |]; cbn [answer fst snd] in Hrun;
    [injection Hrun as <- <- <-; discriminate |].
  cbn [exec] in Hrun.
  destruct (forallb _ (optionsData (edit_params_id req) 0 texts));
    cbn [fst snd run] in Hrun; injection Hrun as <- <- <-;
    [| discriminate].
  split; reflexivity.
Qed.

(** C7. For every successful edit the poll's question is replaced, every
    option row the poll had is gone, and the poll's options are a fresh set:
    the submitted texts in order, at positions 0 to n-1, under identifiers
    none of which is the identifier of an option that existed before.  The
    options of other polls are as they were. *)
Theorem updatePoll_replaces_question_and_options :
  forall (req : EditRequest) (s : Store) (faults : list (option PgError))
         (resp : Response) (s' : Store) (tr : list Event),
    store_ok s = true ->
    run faults s (PUT req) = (resp, s', tr) ->
    status resp = 200 ->
    exists question texts,
      edit_json req = poll_fields question texts /\
      poll_rows s' = map (retitled (edit_params_id req) question) (poll_rows s) /\
      (forall o, In o (options_of s (edit_params_id req)) -> ~ In o (option_rows s')) /\
      options_of s' (edit_params_id req)
      = fresh_options (uuids s) (optionsData (edit_params_id req) 0 texts) /\
      map option_text (options_of s' (edit_params_id req)) = texts /\
      map option_position (options_of s' (edit_params_id req))
      = map Z.of_nat (seq 0 (List.length texts)) /\
      (forall o o', In o (option_rows s) -> In o' (options_of s' (edit_params_id req)) ->
                    option_id o' <> option_id o) /\
      (forall other, other <> edit_params_id req ->
                     options_of s' other = options_of s other).
Proof.
  intros req s faults resp s' tr Hwf Hrun Hok.
  destruct (updatePoll_success_store req s faults resp s' tr Hrun Hok)
    as [question [texts [Hjson [Hpolls Hoptions]]]].
  apply store_ok_well_formed in Hwf.
  exists question, texts.
  assert (Hnew : options_of s' (edit_params_id req)
                 = fresh_options (uuids s) (optionsData (edit_params_id req) 0 texts)).
  { unfold options_of. rewrite Hoptions, filter_app.
    rewrite (filter_filter_negb (fun o => option_poll_id o =? edit_params_id req)).
    now rewrite fresh_options_own. }
  split; [assumption |]. split; [assumption |]. split.
  { intros o Hin Hin'. unfold options_of in Hin. apply filter_In in Hin.
    destruct Hin as [Hin Hp]. rewrite Hoptions in Hin'.
    apply in_app_or in Hin'. destruct Hin' as [Hin' | Hin'].
    - apply filter_In in Hin'. destruct Hin' as [_ Hp']. rewrite Hp in Hp'. discriminate.
    - exact (drawn_not_fresh s o o _ (options_drawn Hwf o Hin) Hin' eq_refl). }
  split; [assumption |]. rewrite Hnew.
  split; [apply fresh_options_texts |].
  split; [apply fresh_options_positions |]. split.
  - intros o o' Hin Hin'.
    exact (drawn_not_fresh s o o' _ (options_drawn Hwf o Hin) Hin').
  - intros other Hne. unfold options_of. rewrite Hoptions, filter_app.
    rewrite (fresh_options_other _ _ texts Hne), app_nil_r.
    now apply filter_other_poll.
Qed.

Lemma updatePoll_replaces_question_and_options_witness :
  status (fst (fst (run [] demo (PUT edit)))) = 200 /\
  map poll_question (polls_with (snd (fst (run [] demo (PUT edit)))) (gen_random_uuid 0))
  = ["Best framework in 2024?"] /\
  exists question texts,
    edit_json edit = poll_fields question texts /\
    map option_text (options_of (snd (fst (run [] demo (PUT edit)))) (edit_params_id edit))
    = texts.
Proof.
  split; [vm_compute; reflexivity |]. split; [vm_compute; reflexivity |].
  destruct (updatePoll_replaces_question_and_options edit demo []
              (fst (fst (run [] demo (PUT edit))))
              (snd (fst (run [] demo (PUT edit))))
              (snd (run [] demo (PUT edit))))
    as [question [texts [Hjson [_ [_ [_ [Htexts _]]]]]]].
  - vm_compute. reflexivity.
  - destruct (run [] demo (PUT edit)) as [[r s] tr]. reflexivity.
  - vm_compute. reflexivity.
  - exists question, texts. split; assumption.
Defined.

(* ================================================================= *)
(** ** Totals and per-option counts *)


Section Sums.

Context {A : Type} (f : A -> nat).

Lemma list_sum_insert_by (key : A -> Z) (x : A) (l : list A) :
  list_sum (map f (insert_by key x l)) = f x + list_sum (map f l).
Proof.
  induction l as [| y l IH]; simpl; [reflexivity |].
  destruct (key x <=? key y)%Z; simpl; [reflexivity |].
  rewrite IH. lia.
Qed.

Lemma list_sum_sort_by (key : A -> Z) (l : list A) :
  list_sum (map f (sort_by key l)) = list_sum (map f l).
Proof.
  induction l as [| x l IH]; simpl; [reflexivity |].
  now rewrite list_sum_insert_by, IH.
Qed.

End Sums.

Lemma NoDup_map_filter {A B : Type} (f : A -> B) (keep : A -> bool) (l : list A) :
  NoDup (map f l) -> NoDup (map f (filter keep l)).
Proof.
  induction l as [| x l IH]; simpl; intros Hnd; [constructor |].
  inversion Hnd as [| k ks Hnin Hnd']; subst.
  destruct (keep x); simpl; [| now apply IH].
  constructor; [| now apply IH].
  intros Hin. apply Hnin. apply in_map_iff in Hin.
  destruct Hin as [y [Hy Hin]]. apply filter_In in Hin.
  rewrite <- Hy. apply in_map. tauto.
Qed.

(** Exactly one option of a duplicate-free list carries a given id of the
    list. *)
Lemma one_option_per_id (k : string) (opts : list OptionCols) :
  NoDup (map o_id opts) -> In k (map o_id opts) ->
  list_sum (map (fun o => if k =? o_id o then 1 else 0) opts) = 1.
Proof.
  induction opts as [| o opts IH]; simpl; intros Hnd Hin; [contradiction |].
  inversion Hnd as [| i ids Hnin Hnd']; subst.
  destruct (String.eqb_spec k (o_id o)) as [He | Hne].
  - assert (Hzero : list_sum (map (fun o => if k =? o_id o then 1 else 0) opts) = 0).
    { clear IH Hin Hnd Hnd'. subst k.
      induction opts as [| o' opts IH]; simpl; [reflexivity |].
      destruct (String.eqb_spec (o_id o) (o_id o')) as [He | _].
      - exfalso. apply Hnin. rewrite He. now left.
      - apply IH. intros Hin. apply Hnin. now right. }
    now rewrite Hzero.
  - destruct Hin as [Hin | Hin]; [congruence |].
    now rewrite (IH Hnd' Hin).
Qed.

(** Votes that all point to options of the list are partitioned by them. *)
Lemma votes_partitioned (opts : list OptionCols) (vs : list VoteCols) :
  NoDup (map o_id opts) ->
  (forall v, In v vs -> In (v_option_id v) (map o_id opts)) ->
  list_sum (map (fun o => List.length (filter (fun v => v_option_id v =? o_id o) vs)) opts)
  = List.length vs.
Proof.
  intros Hnd. induction vs as [| v vs IH]; intros Hall.
  - simpl. induction opts as [| o opts IHo]; simpl; [reflexivity |].
    inversion Hnd; subst. now apply IHo.
  - assert (Hsplit : forall l : list OptionCols,
               list_sum (map (fun o => List.length
                                         (filter (fun v => v_option_id v =? o_id o)
                                                 (v :: vs))) l)
               = list_sum (map (fun o => if v_option_id v =? o_id o then 1 else 0) l)
                 + list_sum (map (fun o => List.length
                                             (filter (fun v => v_option_id v =? o_id o)
                                                     vs)) l)).
    { induction l as [| o l IHl]; simpl; [reflexivity |].
      simpl in IHl. rewrite IHl.
      destruct (v_option_id v =? o_id o); simpl; lia. }
    rewrite Hsplit, IH by (intros w Hw; apply Hall; now right).
    rewrite (one_option_per_id _ _ Hnd (Hall v (or_introl eq_refl))).
    reflexivity.
Qed.

Lemma in_poll_option (s : Store) (v : VoteRow) :
  vote_in_poll s v = true ->
  In (vote_option_id v) (map option_id (options_of s (vote_poll_id v))).
Proof.
  unfold vote_in_poll. intros H. apply existsb_exists in H.
  destruct H as [o [Hin He]]. apply andb_true_iff in He.
  destruct He as [Hid Hp]. apply String.eqb_eq in Hid.
  rewrite <- Hid. apply in_map. unfold options_of. apply filter_In. now split.
Qed.

(** The read flow on a well-formed store. *)
Lemma GET_total_is_sum (s : Store) (pollId : string) (poll : PollFull) :
  store_ok s = true ->
  exec (polls_select_full pollId) s = (Data poll, s) ->
  List.length (pf_votes poll)
  = list_sum (map voteCount
                (map (with_voteCount (pf_votes poll))
                     (sort_by o_position (pf_options poll))))
  /\ List.length (pf_votes poll) = List.length (votes_of s pollId).
Proof.
  intros Hok Hexec. apply store_ok_well_formed in Hok.
  simpl in Hexec. unfold polls_with in Hexec.
  destruct (filter _ (poll_rows s)) as [| p [| p' l]] eqn:Hf; simpl in Hexec;
    try discriminate.
  assert (Hp : poll_id p = pollId).
  { assert (Hin : In p (filter (fun p => poll_id p =? pollId) (poll_rows s)))
      by (rewrite Hf; now left).
    apply filter_In in Hin. now apply String.eqb_eq. }
  injection Hexec as <-. simpl. rewrite Hp.
  split; [| now rewrite length_map].
  rewrite map_map.
  rewrite (list_sum_sort_by
             (fun o => voteCount (with_voteCount (map cols_of_vote (votes_of s pollId)) o))).
  symmetry.
  apply (votes_partitioned (map cols_of_option (options_of s pollId))
                           (map cols_of_vote (votes_of s pollId))).
  - rewrite map_map. simpl.
    apply (NoDup_map_filter option_id). apply (options_pkey Hok).
  - intros c Hc. apply in_map_iff in Hc. destruct Hc as [v [<- Hv]].
    unfold votes_of in Hv. apply filter_In in Hv. destruct Hv as [Hv Hvp].
    apply String.eqb_eq in Hvp.
    rewrite map_map. simpl. rewrite <- Hvp.
    apply in_poll_option. now apply (votes_option Hok).
Qed.

(* ================================================================= *)
(** ** Well-formedness is kept *)

Lemma has_poll_In (s : Store) (pollId : string) :
  has_poll s pollId = true <-> In pollId (map poll_id (poll_rows s)).
Proof.
  unfold has_poll. rewrite existsb_exists, in_map_iff. split.
  - intros [p [Hin He]]. apply String.eqb_eq in He. now exists p.
  - intros [p [He Hin]]. exists p. split; [assumption | now apply String.eqb_eq].
Qed.

Lemma drawn_iff (s : Store) (i : string) :
  drawn s i = true <-> exists k, k < uuids s /\ gen_random_uuid k = i.
Proof.
  split; [apply drawn_lt |].
  intros [k [Hk He]]. unfold drawn. apply existsb_exists.
  exists k. split; [apply in_seq; lia | now apply String.eqb_eq].
Qed.

Lemma drawn_mono (s s' : Store) (i : string) :
  uuids s <= uuids s' -> drawn s i = true -> drawn s' i = true.
Proof.
  rewrite !drawn_iff. intros Hle [k [Hk He]]. exists k. split; [lia | assumption].
Qed.

Lemma NoDup_snoc {A : Type} (l : list A) (x : A) :
  NoDup l -> ~ In x l -> NoDup (l ++ [x]).
Proof.
  induction l as [| y l IH]; simpl; intros Hnd Hnin.
  - constructor; [tauto | constructor].
  - inversion Hnd as [| z zs Hy Hnd']; subst. constructor.
    + rewrite in_app_iff. simpl. intuition congruence.
    + apply IH; tauto.
Qed.

Lemma has_vote_voter (s : Store) (pollId visitorId : string) :
  has_vote s pollId visitorId = false ->
  ~ In (pollId, visitorId) (map voter (vote_rows s)).
Proof.
  unfold has_vote. intros H Hin. apply in_map_iff in Hin.
  destruct Hin as [v [Hv Hin]]. unfold voter in Hv. injection Hv as Hp Hvis.
  assert (Ht : existsb (fun v => (vote_poll_id v =? pollId)
                                 && (vote_visitor_id v =? visitorId)) (vote_rows s) = true).
  { apply existsb_exists. exists v. split; [assumption |].
    apply andb_true_iff. split; now apply String.eqb_eq. }
  congruence.
Qed.

Lemma fresh_options_id_list (rows : list NewOption) :
  forall n, map option_id (fresh_options n rows)
            = map gen_random_uuid (seq n (List.length rows)).
Proof.
  induction rows as [| r rows IH]; simpl; intros n; [reflexivity |].
  now rewrite IH.
Qed.

Lemma fresh_options_polls (rows : list NewOption) :
  forall n o, In o (fresh_options n rows) ->
              In (option_poll_id o) (map new_poll_id rows).
Proof.
  induction rows as [| r rows IH]; simpl; intros n o Hin; [contradiction |].
  destruct Hin as [<- | Hin]; [now left | right; now apply (IH (S n))].
Qed.

Lemma fresh_options_below (rows : list NewOption) :
  forall n o, In o (fresh_options n rows) ->
              exists k, k < n + List.length rows /\ gen_random_uuid k = option_id o.
Proof.
  induction rows as [| r rows IH]; simpl; intros n o Hin; [contradiction |].
  destruct Hin as [<- | Hin].
  - exists n. split; [lia | reflexivity].
  - destruct (IH (S n) o Hin) as [k [Hk He]]. exists k. split; [lia | assumption].
Qed.

Lemma NoDup_gen (n len : nat) : NoDup (map gen_random_uuid (seq n len)).
Proof.
  apply Injective_map_NoDup; [| apply seq_NoDup].
  intros a b. apply gen_random_uuid_inj.
Qed.

Lemma NoDup_app_disjoint {A : Type} (l l' : list A) :
  NoDup l -> NoDup l' -> (forall x, In x l -> ~ In x l') -> NoDup (l ++ l').
Proof.
  induction l as [| x l IH]; simpl; intros Hl Hl' Hd; [assumption |].
  inversion Hl as [| y ys Hx Hnd]; subst. constructor.
  - rewrite in_app_iff. intros [Hin | Hin]; [tauto | exact (Hd x (or_introl eq_refl) Hin)].
  - apply IH; auto.
Qed.

Lemma vote_in_poll_options (s s' : Store) (v : VoteRow) :
  (forall o, In o (option_rows s) -> option_id o = vote_option_id v ->
             option_poll_id o = vote_poll_id v -> In o (option_rows s')) ->
  vote_in_poll s v = true -> vote_in_poll s' v = true.
Proof.
  unfold vote_in_poll. intros Hkeep H. apply existsb_exists in H.
  destruct H as [o [Hin He]]. apply existsb_exists. exists o.
  split; [| assumption]. apply andb_true_iff in He. destruct He as [Hid Hp].
  apply String.eqb_eq in Hid, Hp. now apply Hkeep.
Qed.

(** Every statement whose guard holds takes a well-formed store to a
    well-formed store. *)
Lemma exec_well_formed {X : Type} (q : Query X) (s : Store) :
  well_formed s -> guard q s -> well_formed (snd (exec q s)).
Proof.
  intros Hwf Hguard. destruct q; simpl; try assumption.
  - (* votes_insert *)
    destruct (has_vote s pollId visitorId) eqn:Hdup; [assumption |].
    destruct (has_poll s pollId && has_option s optionId) eqn:Hfk; simpl;
      [| assumption].
    apply andb_true_iff in Hfk. destruct Hfk as [Hpoll Hoption].
    assert (Hnew : ~ In (gen_random_uuid (uuids s)) (map vote_id (vote_rows s))).
    { intros Hin. apply in_map_iff in Hin. destruct Hin as [v [He Hv]].
      pose proof (votes_drawn Hwf v Hv) as Hd. apply drawn_lt in Hd.
      destruct Hd as [k [Hk Hgen]]. rewrite He in Hgen.
      apply gen_random_uuid_inj in Hgen. lia. }
    constructor; simpl.
    + apply (polls_pkey Hwf).
    + apply (options_pkey Hwf).
    + rewrite map_app. simpl. apply NoDup_snoc; [apply (votes_pkey Hwf) | assumption].
    + rewrite map_app. simpl. apply NoDup_snoc; [apply (votes_unique Hwf) |].
      now apply has_vote_voter.
    + apply (options_poll Hwf).
    + intros v Hin. apply in_app_or in Hin. destruct Hin as [Hin | [<- | []]];
        [now apply (votes_poll Hwf) | assumption].
    + intros v Hin. apply in_app_or in Hin. destruct Hin as [Hin | [<- | []]].
      * now apply (votes_option Hwf).
      * unfold has_option in Hoption. apply existsb_exists in Hoption.
        destruct Hoption as [o [Ho He]]. apply String.eqb_eq in He.
        unfold vote_in_poll. simpl. apply existsb_exists. exists o.
        split; [assumption |]. apply andb_true_iff.
        split; apply String.eqb_eq; [assumption | now apply Hguard].
    + intros p Hin. apply (drawn_mono s); [simpl; lia | now apply (polls_drawn Hwf)].
    + intros o Hin. apply (drawn_mono s); [simpl; lia | now apply (options_drawn Hwf)].
    + intros v Hin. apply in_app_or in Hin. destruct Hin as [Hin | [<- | []]].
      * apply (drawn_mono s); [simpl; lia | now apply (votes_drawn Hwf)].
      * apply drawn_iff. exists (uuids s). simpl. split; [lia | reflexivity].
  - (* polls_update_question *)
    assert (Hids : map poll_id (map (retitled pollId question) (poll_rows s))
                   = map poll_id (poll_rows s)).
    { rewrite map_map. apply map_ext. intros p. unfold retitled.
      now destruct (poll_id p =? pollId). }
    assert (Hhas : forall i, has_poll s i = true ->
                     has_poll (mkStore (map (retitled pollId question) (poll_rows s))
                                 (option_rows s) (vote_rows s) (uuids s)) i = true).
    { intros i. rewrite !has_poll_In. simpl. now rewrite Hids. }
    constructor; simpl.
    + rewrite Hids. apply (polls_pkey Hwf).
    + apply (options_pkey Hwf).
    + apply (votes_pkey Hwf).
    + apply (votes_unique Hwf).
    + intros o Hin. apply Hhas. now apply (options_poll Hwf).
    + intros v Hin. apply Hhas. now apply (votes_poll Hwf).
    + apply (votes_option Hwf).
    + intros p Hin. apply in_map_iff in Hin. destruct Hin as [p0 [<- Hin]].
      pose proof (polls_drawn Hwf p0 Hin) as Hd. unfold retitled.
      now destruct (poll_id p0 =? pollId).
    + apply (options_drawn Hwf).
    + apply (votes_drawn Hwf).
  - (* options_delete *)
    constructor; simpl.
    + apply (polls_pkey Hwf).
    + apply NoDup_map_filter, (options_pkey Hwf).
    + apply NoDup_map_filter, (votes_pkey Hwf).
    + apply NoDup_map_filter, (votes_unique Hwf).
    + intros o Hin. apply filter_In in Hin. now apply (options_poll Hwf).
    + intros v Hin. apply filter_In in Hin. now apply (votes_poll Hwf).
    + intros v Hin. apply filter_In in Hin. destruct Hin as [Hin Hkept].
      apply (vote_in_poll_options s); [| now apply (votes_option Hwf)].
      simpl. intros o Ho Hid Hp. apply filter_In. split; [assumption |].
      apply negb_true_iff. apply negb_true_iff in Hkept.
      destruct (String.eqb_spec (option_poll_id o) pollId) as [He | Hne];
        [| reflexivity].
      exfalso. assert (Ht : existsb (fun o => option_id o =? vote_option_id v)
                                    (options_of s pollId) = true); [| congruence].
      apply existsb_exists. exists o. split; [| now apply String.eqb_eq].
      unfold options_of. apply filter_In. split; [assumption | now apply String.eqb_eq].
    + apply (polls_drawn Hwf).
    + intros o Hin. apply filter_In in Hin. now apply (options_drawn Hwf).
    + intros v Hin. apply filter_In in Hin. now apply (votes_drawn Hwf).
  - (* options_insert *)
    destruct (forallb (fun r => has_poll s (new_poll_id r)) rows) eqn:Hfk; simpl;
      [| assumption].
    constructor; simpl.
    + apply (polls_pkey Hwf).
    + rewrite map_app. apply NoDup_app_disjoint.
      * apply (options_pkey Hwf).
      * rewrite fresh_options_id_list. apply NoDup_gen.
      * intros i Hold Hnew. apply in_map_iff in Hold, Hnew.
        destruct Hold as [o [Ho Hin]]. destruct Hnew as [o' [Ho' Hin']].
        apply (drawn_not_fresh s o o' rows); [now apply (options_drawn Hwf) | assumption |].
        congruence.
    + apply (votes_pkey Hwf).
    + apply (votes_unique Hwf).
    + intros o Hin. apply in_app_or in Hin. destruct Hin as [Hin | Hin];
        [now apply (options_poll Hwf) |].
      apply fresh_options_polls, in_map_iff in Hin. destruct Hin as [r [<- Hr]].
      rewrite forallb_forall in Hfk. now apply Hfk.
    + apply (votes_poll Hwf).
    + intros v Hin. apply (vote_in_poll_options s); [| now apply (votes_option Hwf)].
      simpl. intros o Ho _ _. apply in_or_app. now left.
    + intros p Hin. apply (drawn_mono s); [simpl; lia | now apply (polls_drawn Hwf)].
    + intros o Hin. apply in_app_or in Hin. destruct Hin as [Hin | Hin].
      * apply (drawn_mono s); [simpl; lia | now apply (options_drawn Hwf)].
      * apply drawn_iff. simpl. now apply fresh_options_below.
    + intros v Hin. apply (drawn_mono s); [simpl; lia | now apply (votes_drawn Hwf)].
Qed.

(** *** Under interleaving *)

Lemma evolves_refl (s : Store) : evolves s s.
Proof. split; [lia | intros o Hin; now left]. Qed.

Lemma evolves_trans (a b c : Store) : evolves a b -> evolves b c -> evolves a c.
Proof.
  intros [Hab Hb] [Hbc Hc]. split; [lia |].
  intros o Hin. destruct (Hc o Hin) as [Hin' | [k [Hk He]]].
  - apply Hb, Hin'.
  - right. exists k. split; [lia | assumption].
Qed.

Lemma exec_evolves {X : Type} (q : Query X) (s : Store) : evolves s (snd (exec q s)).
Proof.
  destruct q; simpl; try apply evolves_refl.
  - destruct (has_vote s pollId visitorId); [apply evolves_refl |].
    destruct (negb _); [apply evolves_refl |]. simpl.
    split; [simpl; lia | intros o Hin; now left].
  - split; [simpl; lia | intros o Hin; now left].
  - split; [simpl; lia |]. simpl. intros o Hin. apply filter_In in Hin. tauto.
  - destruct (forallb _ rows); [| apply evolves_refl]. simpl.
    split; [simpl; lia |]. simpl. intros o Hin. apply in_app_or in Hin.
    destruct Hin as [Hin | Hin]; [now left | right].
    now apply (fresh_options_ids rows (uuids s)).
Qed.

Lemma safe_mono {R : Type} (p : Prog R) (s s' : Store) :
  evolves s s' -> safe p s -> safe p s'.
Proof.
  destruct p as [r | X q k]; simpl; [trivial |].
  intros Hev Hsafe s1 Hev1 Hok. apply Hsafe; [| assumption].
  now apply (evolves_trans s s' s1).
Qed.

(** An option that was in the store and is still known by its identifier
    later is the same row. *)
Lemma option_still_there (s s' : Store) (o o' : OptionRow) :
  store_ok s = true -> evolves s s' ->
  In o (option_rows s) -> In o' (option_rows s') -> option_id o' = option_id o ->
  o' = o.
Proof.
  intros Hok [_ Hev] Hin Hin' Hid. apply store_ok_well_formed in Hok.
  destruct (Hev o' Hin') as [Hold | [k [Hk He]]].
  - pose proof (filter_key_single option_id String.eqb String.eqb_eq o
                  (option_rows s) (options_pkey Hok) Hin) as Hone.
    assert (Hfilter : In o' (filter (fun y => option_id y =? option_id o) (option_rows s)))
      by (apply filter_In; split; [assumption | now apply String.eqb_eq]).
    rewrite Hone in Hfilter. destruct Hfilter as [<- | []]. reflexivity.
  - exfalso. pose proof (options_drawn Hok o Hin) as Hd. apply drawn_lt in Hd.
    destruct Hd as [j [Hj Hgen]]. rewrite <- Hid, He in Hgen.
    apply gen_random_uuid_inj in Hgen. lia.
Qed.

Lemma safe_POST (is_uuid : string -> bool) (req : VoteRequest) (s : Store) :
  safe (POST is_uuid req) s.
Proof.
  unfold POST.
  destruct (voteSchema_parse is_uuid (vote_json req)) as [| | optionId]; simpl; trivial.
  intros s1 _ Hok1. split; [exact I |]. intros [e1 |]; simpl; trivial.
  unfold polls_with.
  destruct (filter _ (poll_rows s1)) as [| p [| p' l]] eqn:Hf; simpl; trivial.
  assert (Hp : poll_id p = vote_params_id req).
  { assert (Hin : In p (filter (fun p => poll_id p =? vote_params_id req) (poll_rows s1)))
      by (rewrite Hf; now left).
    apply filter_In in Hin. now apply String.eqb_eq. }
  rewrite find_option_cols.
  destruct (find _ (options_of s1 (poll_id p))) as [o |] eqn:Hfind; simpl; trivial.
  apply find_some in Hfind. destruct Hfind as [Ho Hid]. apply String.eqb_eq in Hid.
  unfold options_of in Ho. apply filter_In in Ho. destruct Ho as [Ho Hopoll].
  apply String.eqb_eq in Hopoll.
  assert (Hinsert : forall s2, evolves s1 s2 ->
            safe (await inserted <-
                    votes_insert (vote_params_id req) optionId (visitor_id_of req);
                  match inserted with
                  | Data _ =>
                      await results <- options_select_counts (vote_params_id req);
                      match results with
                      | Data rows =>
                          Ret (set_cookie (visitor_cookie req (visitor_id_of req))
                                 (json 200 (VoteBody
                                    (mkVotePoll (poll_id p) (poll_question p)
                                       (map count_of rows)
                                       (totalVotes (map count_of rows))))))
                      | Error _ =>
                          Ret (json 500 (ErrorBody "Vote cast but failed to fetch results"))
                      end
                  | Error _ => Ret (json 500 (ErrorBody "Failed to cast vote"))
                  end) s2).
  { intros s2 Hev2. simpl. intros s3 Hev3 Hok3. split.
    - intros o' Ho' Hid'.
      assert (o' = o) as ->.
      { apply (option_still_there s1 s3); try assumption; [| congruence].
        now apply (evolves_trans s1 s2 s3). }
      congruence.
    - intros fault.
      destruct (fst (answer fault _ s3)); simpl; trivial.
      intros s4 _ _. split; [exact I |].
      intros fault'. now destruct (fst (answer fault' _ s4)). }
  intros s2 Hev2 Hok2. split; [exact I |].
  intros [e2 |]; simpl; [now apply Hinsert |].
  destruct (single _); simpl; trivial. now apply Hinsert.
Qed.

Lemma safe_GET (pollId : string) (s : Store) : safe (GET pollId) s.
Proof.
  simpl. intros s1 _ _. split; [exact I |].
  intros fault. now destruct (fst (answer fault _ s1)).
Qed.

Lemma safe_PUT (req : EditRequest) (s : Store) : safe (PUT req) s.
Proof.
  unfold PUT. destruct (auth_user req) as [user |]; simpl; trivial.
  intros s1 _ _. split; [exact I |]. intros fault1.
  destruct (fst (answer fault1 _ s1)) as [[pid owner] | e]; simpl; trivial.
  destruct (negb (owner =? user)); simpl; trivial.
  destruct (updatePollSchema_parse (edit_json req)) as [| | [question texts]];
    simpl; trivial.
  intros s2 _ _. split; [exact I |]. intros fault2.
  destruct (fst (answer fault2 _ s2)); simpl; trivial.
  intros s3 _ _. split; [exact I |]. intros fault3.
  destruct (fst (answer fault3 _ s3)); simpl; trivial.
  intros s4 _ _. split; [exact I |]. intros fault4.
  now destruct (fst (answer fault4 _ s4)).
Qed.

Lemma serve_keeps {R : Type} (who : bool) (c : Race R) :
  store_ok (store c) = true /\ safe (first c) (store c) /\ safe (second c) (store c) ->
  store_ok (store (serve who c)) = true
  /\ safe (first (serve who c)) (store (serve who c))
  /\ safe (second (serve who c)) (store (serve who c)).
Proof.
  intros [Hok [Ha Hb]]. unfold serve.
  destruct who.
  - destruct (second c) as [r | X q k] eqn:Hsecond;
      [rewrite Hsecond; repeat split; trivial |].
    simpl in Hb. destruct (Hb (store c) (evolves_refl _) Hok) as [Hguard Hnext].
    specialize (Hnext None). simpl in Hnext.
    pose proof (exec_evolves q (store c)) as Hev.
    apply store_ok_well_formed in Hok.
    pose proof (exec_well_formed q (store c) Hok Hguard) as Hwf.
    apply store_ok_well_formed in Hwf.
    destruct (exec q (store c)) as [a s']. simpl in *.
    split; [assumption |]. split; [now apply (safe_mono (first c) (store c)) | assumption].
  - destruct (first c) as [r | X q k] eqn:Hfirst;
      [rewrite Hfirst; repeat split; trivial |].
    simpl in Ha. destruct (Ha (store c) (evolves_refl _) Hok) as [Hguard Hnext].
    specialize (Hnext None). simpl in Hnext.
    pose proof (exec_evolves q (store c)) as Hev.
    apply store_ok_well_formed in Hok.
    pose proof (exec_well_formed q (store c) Hok Hguard) as Hwf.
    apply store_ok_well_formed in Hwf.
    destruct (exec q (store c)) as [a s']. simpl in *.
    split; [assumption |]. split; [assumption | now apply (safe_mono (second c) (store c))].
Qed.

(** Two safe handlers in flight, served in any order, leave a well-formed
    store well formed. *)
Lemma race_keeps_store_ok {R : Type} (schedule : list bool) (s : Store) (a b : Prog R) :
  store_ok s = true -> safe a s -> safe b s ->
  store_ok (store (race schedule s a b)) = true.
Proof.
  intros Hok Ha Hb. unfold race.
  assert (H : store_ok (store (mkRace a b s [] [])) = true
              /\ safe (first (mkRace a b s [] [])) (store (mkRace a b s [] []))
              /\ safe (second (mkRace a b s [] [])) (store (mkRace a b s [] [])))
    by (simpl; auto).
  revert H. generalize (mkRace a b s [] []).
  induction schedule as [| who schedule IH]; simpl; intros c H; [tauto |].
  apply IH. now apply serve_keeps.
Qed.

Lemma safe_handle (is_uuid : string -> bool) (r : Request) (s : Store) :
  safe (handle is_uuid r) s.
Proof.
  destruct r; simpl; [apply safe_POST | apply safe_PUT | apply safe_GET].
Qed.

(** A handler alone, whatever the store refuses. *)
Lemma run_keeps_store_ok {R : Type} (p : Prog R) :
  forall faults s, store_ok s = true -> safe p s ->
                   store_ok (snd (fst (run faults s p))) = true.
Proof.
  induction p as [r | X q k IH]; intros faults s Hok Hsafe; simpl; [assumption |].
  simpl in Hsafe. destruct (Hsafe s (evolves_refl s) Hok) as [Hguard Hnext].
  specialize (Hnext (hd None faults)).
  assert (Hok1 : store_ok (snd (answer (hd None faults) q s)) = true).
  { destruct (hd None faults) as [e |]; simpl; [assumption |].
    apply store_ok_well_formed. apply exec_well_formed; [| assumption].
    now apply store_ok_well_formed. }
  destruct (answer (hd None faults) q s) as [a s1]. simpl in Hnext, Hok1.
  specialize (IH a (tl faults) s1 Hok1 Hnext).
  destruct (run (tl faults) s1 (k a)) as [[r s2] tr]. exact IH.
Qed.

(** X22. For every poll returned by the read flow on a well-formed store,
    the reported total equals the sum of the reported per-option counts and
    is the number of the poll's vote rows, so that no vote is counted
    without being attributed to an option.  Stores stay well formed: two
    requests to the vote, edit and read routes, served in any interleaving,
    take a well-formed store to a well-formed store. *)
Theorem GET_total_is_sum_of_option_counts :
  (forall (s : Store) (pollId : string) (faults : list (option PgError))
          (resp : Response) (s' : Store) (tr : list Event) (poll : PollStats),
      store_ok s = true ->
      run faults s (GET pollId) = (resp, s', tr) ->
      body resp = PollBody poll ->
      ps_totalVotes poll = list_sum (map voteCount (ps_options poll))
      /\ ps_totalVotes poll = List.length (votes_of s pollId))
  /\
  (forall (is_uuid : string -> bool) (schedule : list bool) (s : Store)
          (a b : Request),
      store_ok s = true ->
      store_ok (store (race schedule s (handle is_uuid a) (handle is_uuid b))) = true).
Proof.
  split.
  - intros s pollId faults resp s' tr poll Hok Hrun Hbody.
    unfold GET in Hrun. rewrite run_Call_faults in Hrun. cbv zeta in Hrun.
    destruct (hd None faults) as [e |]; cbn [answer fst snd] in Hrun.
    + simpl in Hrun. injection Hrun as <- _ _. discriminate Hbody.
    + pose proof (exec_read (polls_select_full pollId) s eq_refl) as Hs.
      destruct (exec (polls_select_full pollId) s) as [[found | e] s1] eqn:Hexec;
        cbn [fst snd] in Hrun, Hs; subst s1; simpl in Hrun;
        injection Hrun as <- _ _; simpl in Hbody; [| discriminate Hbody].
      injection Hbody as <-. simpl.
      exact (GET_total_is_sum s pollId found Hok Hexec).
  - intros is_uuid schedule s a b Hok.
    apply race_keeps_store_ok; [assumption | apply safe_handle | apply safe_handle].
Qed.

Lemma GET_total_is_sum_of_option_counts_witness :
  exists poll,
    body (fst (fst (run [] demo (GET (gen_random_uuid 0))))) = PollBody poll /\
    ps_totalVotes poll = 1 /\
    ps_totalVotes poll = list_sum (map voteCount (ps_options poll)).
Proof.
  eexists. split; [vm_compute; reflexivity |]. split; [reflexivity |].
  apply (proj1 GET_total_is_sum_of_option_counts demo (gen_random_uuid 0) []
               (fst (fst (run [] demo (GET (gen_random_uuid 0)))))
               (snd (fst (run [] demo (GET (gen_random_uuid 0)))))
               (snd (run [] demo (GET (gen_random_uuid 0))))).
  - vm_compute. reflexivity.
  - destruct (run [] demo (GET (gen_random_uuid 0))) as [[r s] tr]. reflexivity.
  - vm_compute. reflexivity.
Defined.

(* ================================================================= *)
(** ** More of the vote route *)

Lemma has_poll_false (s : Store) (pollId : string) :
  has_poll s pollId = false -> polls_with s pollId = [].
Proof.
  unfold has_poll, polls_with.
  induction (poll_rows s) as [| p l IH]; simpl; [reflexivity |].
  intros H. apply orb_false_iff in H. destruct H as [Hp Hl].
  rewrite Hp. now apply IH.
Qed.

(** What an insert into [votes] does: it appends the row, or it is refused
    and changes nothing. *)
Lemma answer_votes_insert (fault : option PgError) (s : Store)
      (pollId optionId visitorId : string) :
  answer fault (votes_insert pollId optionId visitorId) s
  = (Data tt,
     mkStore (poll_rows s) (option_rows s)
       (vote_rows s ++ [mkVote (gen_random_uuid (uuids s)) pollId optionId visitorId])
       (S (uuids s)))
  \/ exists e, answer fault (votes_insert pollId optionId visitorId) s = (Error e, s).
Proof.
  destruct fault as [e |]; simpl; [right; now exists e |].
  destruct (has_vote s pollId visitorId); [right; now eexists |].
  destruct (negb _); [right; now eexists | now left].
Qed.

(** Every way through the vote route: the answer and the store left
    behind. *)
Lemma POST_outcomes (is_uuid : string -> bool) (req : VoteRequest) (s : Store)
      (faults : list (option PgError)) :
  (snd (fst (run faults s (POST is_uuid req))) = s
   /\ In (status (fst (fst (run faults s (POST is_uuid req))))) [400; 404; 409; 500]
   /\ exists message,
        data_error (body (fst (fst (run faults s (POST is_uuid req))))) = Some message
        /\ message <> "")
  \/
  (exists optionId,
      voteSchema_parse is_uuid (vote_json req) = Parsed optionId
      /\ snd (fst (run faults s (POST is_uuid req)))
         = mkStore (poll_rows s) (option_rows s)
             (vote_rows s
              ++ [mkVote (gen_random_uuid (uuids s)) (vote_params_id req) optionId
                         (visitor_id_of req)])
             (S (uuids s))
      /\ ((status (fst (fst (run faults s (POST is_uuid req)))) = 200
           /\ exists poll,
                body (fst (fst (run faults s (POST is_uuid req)))) = VoteBody poll)
          \/ fst (fst (run faults s (POST is_uuid req)))
             = json 500 (ErrorBody "Vote cast but failed to fetch results"))).
Proof.
  assert (Hstop : forall st message,
             In st [400; 404; 409; 500] -> message <> "" ->
             forall b, data_error b = Some message ->
             In (status (json st b)) [400; 404; 409; 500]
             /\ exists m, data_error (body (json st b)) = Some m /\ m <> "")
    by (intros st message Hst Hm b Hb; split; [exact Hst | now exists message]).
  unfold POST.
  destruct (voteSchema_parse is_uuid (vote_json req)) as [| | optionId].
  1, 2: left; cbn [run fst snd]; split; [reflexivity |];
    eapply Hstop; [simpl; tauto | | reflexivity]; discriminate.
  rewrite run_Call_faults. cbv zeta.
  pose proof (answer_read (hd None faults) (polls_select_options (vote_params_id req))
                s eq_refl) as Hs1.
  destruct (answer (hd None faults) _ s) as [found s1]. simpl in Hs1. subst s1.
  cbn [fst snd].
  destruct found as [poll | e].
  2: left; cbn [run fst snd]; split; [reflexivity |];
    eapply Hstop; [simpl; tauto | | reflexivity]; discriminate.
  destruct (find _ (po_options poll)).
  2: left; cbn [run fst snd]; split; [reflexivity |];
    eapply Hstop; [simpl; tauto | | reflexivity]; discriminate.
  rewrite run_Call_faults. cbv zeta.
  pose proof (answer_read (hd None (tl faults))
                (votes_select_id (vote_params_id req) (visitor_id_of req))
                s eq_refl) as Hs2.
  destruct (answer (hd None (tl faults)) _ s) as [existing s2]. simpl in Hs2. subst s2.
  cbn [fst snd].
  destruct existing as [vid | e].
  1: left; cbn [run fst snd]; split; [reflexivity |];
    eapply Hstop; [simpl; tauto | | reflexivity]; discriminate.
  rewrite run_Call_faults. cbv zeta.
  destruct (answer_votes_insert (hd None (tl (tl faults))) s (vote_params_id req)
              optionId (visitor_id_of req)) as [-> | [e3 ->]]; cbn [fst snd].
  2: left; cbn [run fst snd]; split; [reflexivity |];
    eapply Hstop; [simpl; tauto | | reflexivity]; discriminate.
  right. exists optionId. split; [reflexivity |].
  rewrite run_Call_faults. cbv zeta.
  match goal with
  | |- context [answer ?f ?q ?st] =>
      pose proof (answer_read f q st eq_refl) as Hs4;
      destruct (answer f q st) as [[rows | e4] s4]
  end; simpl in Hs4; subst s4; cbn [run fst snd]; split; try reflexivity.
  - left. split; [reflexivity |]. eexists. reflexivity.
  - right. reflexivity.
Qed.

(** X1. Whatever the request, the store and what the store refuses, the
    vote route either leaves the store as it is, and then answers 400, 404,
    409 or 500 with an error message, or appends exactly one vote row: the
    request's poll, option and visitor identifier under a generated id, polls
    and options untouched.  In that case the answer is 200 with the poll,
    or, when the tally cannot be read afterwards, the 500 "Vote cast but
    failed to fetch results". *)
Theorem castVote_writes_one_row_or_nothing :
  forall (is_uuid : string -> bool) (req : VoteRequest) (s : Store)
         (faults : list (option PgError)),
    (snd (fst (run faults s (POST is_uuid req))) = s
     /\ In (status (fst (fst (run faults s (POST is_uuid req))))) [400; 404; 409; 500]
     /\ exists message,
          data_error (body (fst (fst (run faults s (POST is_uuid req))))) = Some message
          /\ message <> "")
    \/
    (exists optionId,
        voteSchema_parse is_uuid (vote_json req) = Parsed optionId
        /\ snd (fst (run faults s (POST is_uuid req)))
           = mkStore (poll_rows s) (option_rows s)
               (vote_rows s
                ++ [mkVote (gen_random_uuid (uuids s)) (vote_params_id req) optionId
                           (visitor_id_of req)])
               (S (uuids s))
        /\ ((status (fst (fst (run faults s (POST is_uuid req)))) = 200
             /\ exists poll,
                  body (fst (fst (run faults s (POST is_uuid req)))) = VoteBody poll)
            \/ fst (fst (run faults s (POST is_uuid req)))
               = json 500 (ErrorBody "Vote cast but failed to fetch results"))).
Proof.
  intros is_uuid req s faults. apply POST_outcomes.
Qed.

(** *** The tally of the vote response *)




Lemma answer_owner_missing (fault : option PgError) (s : Store) (pollId : string) :
  has_poll s pollId = false ->
  exists e, answer fault (polls_select_owner pollId) s = (Error e, s).
Proof.
  intros H. destruct fault as [e |]; simpl; [now exists e |].
  rewrite (has_poll_false s pollId H). now eexists.
Qed.

(** X2. A poll id that no poll row carries is answered 404 "Poll not found"
    by every route of a poll (a vote with a well-formed body, a read, an edit
    and a delete by a signed-in user), whatever the store refuses, and
    nothing is written. *)
Theorem unknown_poll_is_not_found :
  forall (s : Store) (pollId : string) (faults : list (option PgError)),
    has_poll s pollId = false ->
    (forall (is_uuid : string -> bool) (req : VoteRequest) (optionId : string),
        vote_params_id req = pollId ->
        voteSchema_parse is_uuid (vote_json req) = Parsed optionId ->
        fst (run faults s (POST is_uuid req))
        = (json 404 (ErrorBody "Poll not found"), s))
    /\ fst (run faults s (GET pollId)) = (json 404 (ErrorBody "Poll not found"), s)
    /\ (forall (req : EditRequest) (user : string),
           edit_params_id req = pollId -> auth_user req = Some user ->
           fst (run faults s (PUT req)) = (json 404 (ErrorBody "Poll not found"), s))
    /\ (forall (req : DeleteRequest) (user : string),
           delete_params_id req = pollId -> delete_user req = Some user ->
           DELETE req faults s = (json 404 (ErrorBody "Poll not found"), s)).
Proof.
  intros s pollId faults Hnone.
  pose proof (has_poll_false s pollId Hnone) as Hrows.
  split; [| split; [| split]].
  - intros is_uuid req optionId Hid Hparse. unfold POST. rewrite Hparse, Hid.
    rewrite run_Call_faults. cbv zeta.
    destruct (hd None faults) as [e |]; simpl; [reflexivity |].
    now rewrite Hrows.
  - unfold GET. rewrite run_Call_faults. cbv zeta.
    destruct (hd None faults) as [e |]; simpl; [reflexivity |].
    now rewrite Hrows.
  - intros req user Hid Huser. unfold PUT. rewrite Huser, Hid.
    rewrite run_Call_faults. cbv zeta.
    destruct (answer_owner_missing (hd None faults) s pollId Hnone) as [e ->].
    reflexivity.
  - intros req user Hid Huser. unfold DELETE. rewrite Huser, Hid.
    destruct (answer_owner_missing (hd None faults) s pollId Hnone) as [e ->].
    reflexivity.
Qed.

Lemma unknown_poll_is_not_found_witness :
  fst (run [] demo (GET "no-such-poll")) = (json 404 (ErrorBody "Poll not found"), demo).
Proof.
  exact (proj1 (proj2 (unknown_poll_is_not_found demo "no-such-poll" [] eq_refl))).
Defined.

(** A first vote on a well-formed store that answers. *)
Lemma POST_first_vote (is_uuid : string -> bool) (req : VoteRequest) (s : Store)
      (p : PollRow) (o : OptionRow) :
  store_ok s = true ->
  voteSchema_parse is_uuid (vote_json req) = Parsed (option_id o) ->
  In p (poll_rows s) -> poll_id p = vote_params_id req ->
  In o (option_rows s) -> option_poll_id o = vote_params_id req ->
  has_vote s (vote_params_id req) (visitor_id_of req) = false ->
  exists poll,
    fst (run [] s (POST is_uuid req))
    = (set_cookie (visitor_cookie req (visitor_id_of req)) (json 200 (VoteBody poll)),
       mkStore (poll_rows s) (option_rows s)
         (vote_rows s
          ++ [mkVote (gen_random_uuid (uuids s)) (vote_params_id req) (option_id o)
                     (visitor_id_of req)])
         (S (uuids s))).
Proof.
  intros Hok Hparse Hp Hpid Ho Hopid Hfresh.
  unfold POST. rewrite Hparse.
  rewrite run_Call, (exec_poll_found s p _ Hok Hp Hpid). cbn [fst snd].
  cbv beta iota. simpl po_options.
  pose proof (find_option_found s o _ Ho (eq_trans Hopid (eq_sym Hpid))) as Hfind.
  destruct (find _ _) as [c |]; [clear Hfind | congruence].
  rewrite run_Call, (exec_vote_absent s _ _ Hfresh). cbn [fst snd].
  rewrite run_Call.
  assert (Hins : exec (votes_insert (vote_params_id req) (option_id o) (visitor_id_of req)) s
                 = (Data tt,
                    mkStore (poll_rows s) (option_rows s)
                      (vote_rows s
                       ++ [mkVote (gen_random_uuid (uuids s)) (vote_params_id req)
                                  (option_id o) (visitor_id_of req)])
                      (S (uuids s)))).
  { simpl. rewrite Hfresh.
    assert (Hhp : has_poll s (vote_params_id req) = true).
    { unfold has_poll. apply existsb_exists. exists p.
      split; [assumption | now apply String.eqb_eq]. }
    assert (Hho : has_option s (option_id o) = true).
    { unfold has_option. apply existsb_exists. exists o.
      split; [assumption | now apply String.eqb_eq]. }
    now rewrite Hhp, Hho. }
  rewrite Hins. cbn [fst snd]. rewrite run_Call. simpl. eexists. reflexivity.
Qed.

(** A vote of a visitor who has voted, on a well-formed store that
    answers. *)
Lemma POST_repeated_vote (is_uuid : string -> bool) (req : VoteRequest) (s : Store)
      (p : PollRow) (o : OptionRow) (v : VoteRow) :
  store_ok s = true ->
  voteSchema_parse is_uuid (vote_json req) = Parsed (option_id o) ->
  In p (poll_rows s) -> poll_id p = vote_params_id req ->
  In o (option_rows s) -> option_poll_id o = vote_params_id req ->
  In v (vote_rows s) -> voter v = (vote_params_id req, visitor_id_of req) ->
  fst (run [] s (POST is_uuid req)) = (conflict, s).
Proof.
  intros Hok Hparse Hp Hpid Ho Hopid Hv Hvoter.
  unfold POST. rewrite Hparse.
  rewrite run_Call, (exec_poll_found s p _ Hok Hp Hpid). cbn [fst snd].
  cbv beta iota. simpl po_options.
  pose proof (find_option_found s o _ Ho (eq_trans Hopid (eq_sym Hpid))) as Hfind.
  destruct (find _ _) as [c |]; [clear Hfind | congruence].
  rewrite run_Call, (exec_vote_found s v _ _ Hok Hv Hvoter). reflexivity.
Qed.

Lemma votes_by_app (s : Store) (extra : list VoteRow) (k : string * string) :
  votes_by (mkStore (poll_rows s) (option_rows s) (vote_rows s ++ extra) (S (uuids s))) k
  = votes_by s k + List.length (filter (fun v => pair_eqb (voter v) k) extra).
Proof. unfold votes_by. simpl. now rewrite filter_app, length_app. Qed.

Lemma votes_by_none (s : Store) (pollId visitorId : string) :
  has_vote s pollId visitorId = false -> votes_by s (pollId, visitorId) = 0.
Proof.
  intros H. unfold votes_by.
  rewrite (filter_ext _ (fun w => (vote_poll_id w =? pollId)
                                  && (vote_visitor_id w =? visitorId)))
    by (intros w; reflexivity).
  now rewrite (has_vote_false s pollId visitorId H).
Qed.

Lemma pair_eqb_refl (k : string * string) : pair_eqb k k = true.
Proof. now apply pair_eqb_eq. Qed.

(** X3. One visitor, one vote.  On a well-formed store, a valid first vote
    of a visitor on a poll is answered 200 and recorded; every later vote
    under the same visitor identifier on that poll, for the same or for
    another of its options, is answered with the 409 conflict and changes
    nothing: the visitor has exactly one vote row. *)
Theorem second_vote_is_refused :
  forall (is_uuid : string -> bool) (req req' : VoteRequest) (s : Store)
         (p : PollRow) (o o' : OptionRow),
    store_ok s = true ->
    In p (poll_rows s) -> poll_id p = vote_params_id req ->
    In o (option_rows s) -> option_poll_id o = vote_params_id req ->
    voteSchema_parse is_uuid (vote_json req) = Parsed (option_id o) ->
    has_vote s (vote_params_id req) (visitor_id_of req) = false ->
    vote_params_id req' = vote_params_id req ->
    visitor_id_of req' = visitor_id_of req ->
    In o' (option_rows s) -> option_poll_id o' = vote_params_id req ->
    voteSchema_parse is_uuid (vote_json req') = Parsed (option_id o') ->
    status (fst (fst (run [] s (POST is_uuid req)))) = 200
    /\ fst (run [] (snd (fst (run [] s (POST is_uuid req)))) (POST is_uuid req'))
       = (conflict, snd (fst (run [] s (POST is_uuid req))))
    /\ votes_by (snd (fst (run [] s (POST is_uuid req))))
                (vote_params_id req, visitor_id_of req) = 1.
Proof.
  intros is_uuid req req' s p o o' Hok Hp Hpid Ho Hopid Hparse Hfresh
         Hpid' Hvid' Ho' Hopid' Hparse'.
  pose proof (run_keeps_store_ok (POST is_uuid req) [] s Hok (safe_POST is_uuid req s))
    as Hok1.
  destruct (POST_first_vote is_uuid req s p o Hok Hparse Hp Hpid Ho Hopid Hfresh)
    as [poll Hrun].
  destruct (run [] s (POST is_uuid req)) as [[r1 s1] tr1]. simpl in Hrun, Hok1 |- *.
  injection Hrun as -> ->.
  split; [reflexivity |]. split.
  - apply (POST_repeated_vote is_uuid req' _ p o'
             (mkVote (gen_random_uuid (uuids s)) (vote_params_id req) (option_id o)
                     (visitor_id_of req))); simpl; try assumption; try congruence.
    + apply in_or_app. right. now left.
    + unfold voter. simpl. congruence.
  - rewrite votes_by_app, (votes_by_none s _ _ Hfresh). simpl.
    unfold voter. simpl. now rewrite pair_eqb_refl.
Qed.

Lemma second_vote_is_refused_witness :
  status (fst (fst (run [] demo (POST uuid_shape twice)))) = 200
  /\ fst (run [] (snd (fst (run [] demo (POST uuid_shape twice))))
              (POST uuid_shape (vote_request (Some "visitor-456") (gen_random_uuid 2))))
     = (conflict, snd (fst (run [] demo (POST uuid_shape twice))))
  /\ votes_by (snd (fst (run [] demo (POST uuid_shape twice))))
              (gen_random_uuid 0, "visitor-456") = 1.
Proof.
  apply (second_vote_is_refused uuid_shape twice
           (vote_request (Some "visitor-456") (gen_random_uuid 2)) demo
           (mkPoll (gen_random_uuid 0) "user-1" "Best framework?" "2024-01-01T00:00:00Z")
           (mkOption (gen_random_uuid 1) (gen_random_uuid 0) "React" 0)
           (mkOption (gen_random_uuid 2) (gen_random_uuid 0) "Vue" 1)).
  - vm_compute. reflexivity.
  - simpl. auto.
  - reflexivity.
  - simpl. auto.
  - reflexivity.
  - vm_compute. reflexivity.
  - vm_compute. reflexivity.
  - reflexivity.
  - reflexivity.
  - simpl. auto.
  - reflexivity.
  - vm_compute. reflexivity.
Defined.

(** *** Two votes in flight *)

(** What a request has exchanged so far and what it exchanges from here
    make up one of its runs. *)
Lemma race_traces {R : Type} (schedule : list bool) (s : Store) (a b : Prog R) :
  (forall tr r, runs (first (race schedule s a b)) tr r ->
                runs a (first_trace (race schedule s a b) ++ tr) r)
  /\ (forall tr r, runs (second (race schedule s a b)) tr r ->
                   runs b (second_trace (race schedule s a b) ++ tr) r).
Proof.
  unfold race.
  assert (H : (forall tr r, runs (first (mkRace a b s [] [])) tr r ->
                            runs a (first_trace (mkRace a b s [] []) ++ tr) r)
              /\ (forall tr r, runs (second (mkRace a b s [] [])) tr r ->
                               runs b (second_trace (mkRace a b s [] []) ++ tr) r))
    by (simpl; auto).
  revert H. generalize (mkRace a b s [] []).
  induction schedule as [| who schedule IH]; simpl; intros c H; [exact H |].
  apply IH. destruct H as [Ha Hb]. unfold serve. destruct who.
  - destruct (second c) as [r0 | X q k] eqn:Hsecond; [rewrite Hsecond; auto |].
    destruct (exec q (store c)) as [x s'] eqn:Hexec. simpl.
    split; [assumption |]. intros tr r Hruns.
    rewrite <- app_assoc. simpl. apply Hb. simpl. now exists x, tr.
  - destruct (first c) as [r0 | X q k] eqn:Hfirst; [rewrite Hfirst; auto |].
    destruct (exec q (store c)) as [x s'] eqn:Hexec. simpl.
    split; [| assumption]. intros tr r Hruns.
    rewrite <- app_assoc. simpl. apply Ha. simpl. now exists x, tr.
Qed.

Lemma inserts_by_app (tr tr' : list Event) (k : string * string) :
  inserts_by (tr ++ tr') k = inserts_by tr k + inserts_by tr' k.
Proof. unfold inserts_by. now rewrite filter_app, length_app. Qed.

(** A statement other than a delete adds to the votes of a visitor exactly
    the insert it reports. *)
Lemma exec_votes_by {X : Type} (q : Query X) (s : Store) (k : string * string) :
  match q with options_delete _ => False | _ => True end ->
  votes_by (snd (exec q s)) k
  = votes_by s k + inserts_by [Exchange q (fst (exec q s))] k.
Proof.
  destruct q; simpl; intros Hq; try contradiction; unfold inserts_by; simpl;
    try (now rewrite Nat.add_0_r).
  - destruct (has_vote s pollId visitorId); simpl; [now rewrite Nat.add_0_r |].
    destruct (negb _); simpl; [now rewrite Nat.add_0_r |].
    unfold votes_by. simpl. rewrite filter_app, length_app. simpl.
    unfold voter at 2. simpl. now destruct (pair_eqb (pollId, visitorId) k).
  - destruct (forallb _ rows); simpl; now rewrite Nat.add_0_r.
Qed.

Lemma race_votes_by {R : Type} (schedule : list bool) (s : Store) (a b : Prog R)
      (k : string * string) :
  deletes_nothing a -> deletes_nothing b ->
  votes_by (store (race schedule s a b)) k
  = votes_by s k
    + inserts_by (first_trace (race schedule s a b)) k
    + inserts_by (second_trace (race schedule s a b)) k.
Proof.
  intros Ha Hb. unfold race.
  assert (H : deletes_nothing (first (mkRace a b s [] []))
              /\ deletes_nothing (second (mkRace a b s [] []))
              /\ votes_by (store (mkRace a b s [] [])) k
                 = votes_by s k + inserts_by (first_trace (mkRace a b s [] [])) k
                   + inserts_by (second_trace (mkRace a b s [] [])) k)
    by (simpl; repeat split; try assumption; unfold inserts_by; simpl; lia).
  revert H. generalize (mkRace a b s [] []).
  induction schedule as [| who schedule IH]; simpl; intros c H; [tauto |].
  apply IH. destruct H as [Hda [Hdb Hcount]]. unfold serve. destruct who.
  - destruct (second c) as [r0 | X q k0] eqn:Hsecond;
      [rewrite Hsecond; repeat split; assumption |].
    simpl in Hdb. destruct Hdb as [Hq Hk].
    pose proof (exec_votes_by q (store c) k Hq) as Hstep.
    destruct (exec q (store c)) as [x s']. simpl in *.
    repeat split; [assumption | apply Hk |].
    rewrite inserts_by_app. lia.
  - destruct (first c) as [r0 | X q k0] eqn:Hfirst;
      [rewrite Hfirst; repeat split; assumption |].
    simpl in Hda. destruct Hda as [Hq Hk].
    pose proof (exec_votes_by q (store c) k Hq) as Hstep.
    destruct (exec q (store c)) as [x s']. simpl in *.
    repeat split; [apply Hk | assumption |].
    rewrite inserts_by_app. lia.
Qed.

Lemma POST_deletes_nothing (is_uuid : string -> bool) (req : VoteRequest) :
  deletes_nothing (POST is_uuid req).
Proof.
  unfold POST.
  destruct (voteSchema_parse is_uuid (vote_json req)); simpl; trivial.
  split; [exact I |]. intros [? | ?]; simpl; trivial.
  destruct (find _ _); simpl; trivial.
  split; [exact I |]. intros [? | ?]; simpl; trivial.
  split; [exact I |]. intros [? | ?]; simpl; trivial.
  split; [exact I |]. intros [? | ?]; simpl; trivial.
Qed.

(** A vote answered 200 has inserted its row. *)
Lemma POST_200_inserted (is_uuid : string -> bool) (req : VoteRequest)
      (tr : list Event) (resp : Response) :
  runs (POST is_uuid req) tr resp -> status resp = 200 ->
  inserts_by tr (vote_params_id req, visitor_id_of req) = 1.
Proof.
  intros Hruns Hstatus. unfold POST in Hruns.
  runs_cases Hruns; simpl in Hstatus; try discriminate Hstatus.
  unfold inserts_by. simpl. now rewrite pair_eqb_refl.
Qed.

(** The uniqueness constraint, counted. *)
Lemma votes_by_unique (s : Store) (k : string * string) :
  store_ok s = true -> votes_by s k <= 1.
Proof.
  intros Hok. apply store_ok_well_formed in Hok.
  pose proof (votes_unique Hok) as Hnd. unfold votes_by.
  induction (vote_rows s) as [| v l IH]; simpl; [lia |].
  simpl in Hnd. inversion Hnd as [| x xs Hnin Hnd']; subst.
  destruct (pair_eqb (voter v) k) eqn:He; [| now apply IH].
  apply pair_eqb_eq in He. simpl.
  rewrite (filter_ext_in _ (fun _ => false)); [now rewrite filter_false |].
  intros w Hw. destruct (pair_eqb (voter w) k) eqn:Hw'; [| reflexivity].
  apply pair_eqb_eq in Hw'. exfalso. apply Hnin. rewrite He, <- Hw'. now apply in_map.
Qed.

(** X4. Two votes of one visitor on one poll, in flight at the same time and
    served in any order: at most one of them is answered 200, at most one of
    their inserts succeeds, and the store ends with at most one vote row of
    that visitor on that poll. *)
Theorem concurrent_votes_at_most_one_succeeds :
  forall (is_uuid : string -> bool) (a b : VoteRequest) (schedule : list bool)
         (s : Store),
    store_ok s = true ->
    vote_params_id a = vote_params_id b ->
    visitor_id_of a = visitor_id_of b ->
    votes_by (store (race schedule s (POST is_uuid a) (POST is_uuid b)))
             (vote_params_id a, visitor_id_of a) <= 1
    /\ inserts_by (first_trace (race schedule s (POST is_uuid a) (POST is_uuid b)))
                  (vote_params_id a, visitor_id_of a)
       + inserts_by (second_trace (race schedule s (POST is_uuid a) (POST is_uuid b)))
                    (vote_params_id a, visitor_id_of a) <= 1
    /\ forall r1 r2,
        first (race schedule s (POST is_uuid a) (POST is_uuid b)) = Ret r1 ->
        second (race schedule s (POST is_uuid a) (POST is_uuid b)) = Ret r2 ->
        ~ (status r1 = 200 /\ status r2 = 200).
Proof.
  intros is_uuid a b schedule s Hok Hpoll Hvisitor.
  pose proof (race_keeps_store_ok schedule s (POST is_uuid a) (POST is_uuid b) Hok
                (safe_POST is_uuid a s) (safe_POST is_uuid b s)) as Hok'.
  pose proof (votes_by_unique _ (vote_params_id a, visitor_id_of a) Hok') as Hone.
  pose proof (race_votes_by schedule s (POST is_uuid a) (POST is_uuid b)
                (vote_params_id a, visitor_id_of a)
                (POST_deletes_nothing is_uuid a) (POST_deletes_nothing is_uuid b))
    as Hcount.
  destruct (race_traces schedule s (POST is_uuid a) (POST is_uuid b)) as [Hta Htb].
  split; [assumption |]. split; [lia |].
  intros r1 r2 H1 H2 [Hs1 Hs2].
  specialize (Hta [] r1). specialize (Htb [] r2).
  rewrite H1 in Hta. rewrite H2 in Htb. rewrite app_nil_r in Hta, Htb.
  pose proof (POST_200_inserted is_uuid a _ r1 (Hta (conj eq_refl eq_refl)) Hs1) as Ha.
  pose proof (POST_200_inserted is_uuid b _ r2 (Htb (conj eq_refl eq_refl)) Hs2) as Hb.
  rewrite <- Hpoll, <- Hvisitor in Hb. lia.
Qed.

Lemma concurrent_votes_at_most_one_succeeds_witness :
  votes_by (store (race neck_and_neck demo (POST uuid_shape twice) (POST uuid_shape twice)))
           (gen_random_uuid 0, "visitor-456") <= 1.
Proof.
  exact (proj1 (concurrent_votes_at_most_one_succeeds uuid_shape twice twice
                  neck_and_neck demo eq_refl eq_refl eq_refl)).
Defined.

(** ** The read route *)

Section Sorting.

Context {A : Type} (key : A -> Z).

Lemma insert_by_perm (x : A) (l : list A) : Permutation (insert_by key x l) (x :: l).
Proof.
  induction l as [| y l IH]; simpl; [reflexivity |].
  destruct (key x <=? key y)%Z; [reflexivity |].
  rewrite IH. apply perm_swap.
Qed.

Lemma sort_by_perm (l : list A) : Permutation (sort_by key l) l.
Proof.
  induction l as [| x l IH]; simpl; [reflexivity |].
  rewrite insert_by_perm. now apply perm_skip.
Qed.

Lemma insert_by_sorted (x : A) (l : list A) :
  StronglySorted (fun a b => (key a <= key b)%Z) l ->
  StronglySorted (fun a b => (key a <= key b)%Z) (insert_by key x l).
Proof.
  induction l as [| y l IH]; simpl; intros Hs.
  - constructor; [constructor | constructor].
  - inversion Hs as [| y' l' Hl Hy]; subst.
    destruct (key x <=? key y)%Z eqn:Hle.
    + apply Z.leb_le in Hle. constructor; [assumption |].
      constructor; [assumption |].
      rewrite Forall_forall in Hy |- *. intros z Hz. specialize (Hy z Hz). lia.
    + apply Z.leb_gt in Hle. constructor; [now apply IH |].
      rewrite Forall_forall in Hy |- *. intros z Hz.
      apply (Permutation_in _ (insert_by_perm x l)) in Hz.
      destruct Hz as [<- | Hz]; [lia | now apply Hy].
Qed.

Lemma sort_by_sorted (l : list A) :
  StronglySorted (fun a b => (key a <= key b)%Z) (sort_by key l).
Proof.
  induction l as [| x l IH]; simpl; [constructor | now apply insert_by_sorted].
Qed.

(** Rows that come in order stay as they are. *)
Lemma sort_by_id (l : list A) :
  StronglySorted (fun a b => (key a <= key b)%Z) l -> sort_by key l = l.
Proof.
  induction l as [| x l IH]; simpl; intros Hs; [reflexivity |].
  inversion Hs as [| x' l' Hl Hx]; subst. rewrite (IH Hl).
  destruct l as [| y l]; simpl; [reflexivity |].
  inversion Hx as [| y' l' Hy _]; subst.
  apply Z.leb_le in Hy. now rewrite Hy.
Qed.

End Sorting.

Lemma sort_by_map {A B : Type} (f : A -> B) (keyA : A -> Z) (keyB : B -> Z)
      (l : list A) :
  (forall x, keyB (f x) = keyA x) ->
  sort_by keyB (map f l) = map f (sort_by keyA l).
Proof.
  intros Hkey. induction l as [| x l IH]; simpl; [reflexivity |].
  rewrite IH. generalize (sort_by keyA l). intros m.
  induction m as [| y m IHm]; simpl; [reflexivity |].
  rewrite !Hkey. destruct (keyA x <=? keyA y)%Z; simpl; [reflexivity |].
  now rewrite IHm.
Qed.

(** In a well-formed store the votes for an option are votes on the
    option's poll. *)
Lemma votes_for_in_poll (s : Store) (o : OptionRow) :
  store_ok s = true -> In o (option_rows s) ->
  filter (fun v => v_option_id v =? option_id o)
         (map cols_of_vote (votes_of s (option_poll_id o)))
  = map cols_of_vote (votes_for s (option_id o)).
Proof.
  intros Hok Hin. apply store_ok_well_formed in Hok.
  unfold votes_of, votes_for.
  pose proof (votes_option Hok) as Hvotes.
  induction (vote_rows s) as [| v l IH]; simpl; [reflexivity |].
  assert (Hl : forall w, In w l -> vote_in_poll s w = true)
    by (intros w Hw; apply Hvotes; now right).
  specialize (IH Hl).
  destruct (vote_option_id v =? option_id o) eqn:Hopt.
  - assert (Hpoll : vote_poll_id v = option_poll_id o).
    { specialize (Hvotes v (or_introl eq_refl)). unfold vote_in_poll in Hvotes.
      apply existsb_exists in Hvotes. destruct Hvotes as [o' [Hin' He]].
      apply andb_true_iff in He. destruct He as [Hid Hp].
      apply String.eqb_eq in Hid, Hp, Hopt.
      assert (o' = o).
      { pose proof (options_pkey Hok) as Hnd.
        assert (Hsame : option_id o' = option_id o) by congruence.
        clear - Hnd Hin Hin' Hsame.
        induction (option_rows s) as [| x xs IHx]; [contradiction |].
        simpl in Hnd. inversion Hnd as [| y ys Hnin Hnd']; subst.
        destruct Hin as [-> | Hin], Hin' as [-> | Hin']; trivial.
        - exfalso. apply Hnin. rewrite <- Hsame. now apply in_map.
        - exfalso. apply Hnin. rewrite Hsame. now apply in_map.
        - now apply IHx. }
      subst o'. now rewrite <- Hp. }
    apply String.eqb_eq in Hpoll. rewrite Hpoll. simpl. rewrite Hopt.
    now rewrite IH.
  - destruct (vote_poll_id v =? option_poll_id o); simpl; [rewrite Hopt |]; exact IH.
Qed.

Lemma sorted_with_counts (count : OptionRow -> nat) (l : list OptionRow) :
  StronglySorted (fun a b => (ovc_position a <= ovc_position b)%Z)
    (map (fun o => mkOptionVoteCount (option_id o) (option_text o) (option_position o)
                     (count o))
         (sort_by option_position l)).
Proof.
  pose proof (sort_by_sorted option_position l) as Hs.
  induction Hs as [| o m Hm IH Ho]; simpl; constructor; [assumption |].
  rewrite Forall_forall in Ho |- *. intros c Hc.
  apply in_map_iff in Hc. destruct Hc as [o' [<- Ho']]. simpl. now apply Ho.
Qed.

(** The read route on a poll that is there. *)
Lemma GET_found (s : Store) (p : PollRow) :
  store_ok s = true -> In p (poll_rows s) ->
  fst (run [] s (GET (poll_id p)))
  = (json 200
       (PollBody
          (mkPollStats (poll_id p) (poll_question p) (poll_created_at p) (poll_user_id p)
             (map (fun o => mkOptionVoteCount (option_id o) (option_text o)
                              (option_position o)
                              (List.length (votes_for s (option_id o))))
                  (sort_by option_position (options_of s (poll_id p))))
             (map cols_of_vote (votes_of s (poll_id p)))
             (List.length (votes_of s (poll_id p))))), s).
Proof.
  intros Hok Hin. unfold GET. rewrite run_Call. cbv zeta.
  cbn [exec]. rewrite (polls_with_single s p Hok Hin). cbn [map single fst snd run pf_id
    pf_question pf_created_at pf_user_id pf_options pf_votes].
  rewrite length_map.
  rewrite (sort_by_map cols_of_option option_position o_position) by reflexivity.
  rewrite map_map.
  rewrite (map_ext_in
             (fun x => with_voteCount (map cols_of_vote (votes_of s (poll_id p)))
                         (cols_of_option x))
             (fun o => mkOptionVoteCount (option_id o) (option_text o)
                         (option_position o)
                         (List.length (votes_for s (option_id o)))));
    [reflexivity |].
  intros o Ho.
  apply (Permutation_in _ (sort_by_perm option_position _)) in Ho.
  unfold options_of in Ho. apply filter_In in Ho. destruct Ho as [Ho Hp].
  apply String.eqb_eq in Hp.
  unfold with_voteCount. cbn [cols_of_option o_id o_text o_position].
  f_equal. rewrite <- Hp.
  rewrite (votes_for_in_poll s o Hok Ho). now rewrite length_map.
Qed.

(** X5. Reading a poll of a well-formed store changes nothing and answers
    200 with the poll's question and owner, the poll's own options, each
    once and in the order of their positions, and beside each option the
    number of vote rows that name it. *)
Theorem GET_reports_options_in_order_with_their_votes :
  forall (s : Store) (p : PollRow),
    store_ok s = true ->
    In p (poll_rows s) ->
    exists poll,
      fst (run [] s (GET (poll_id p))) = (json 200 (PollBody poll), s)
      /\ ps_id poll = poll_id p
      /\ ps_question poll = poll_question p
      /\ ps_user_id poll = poll_user_id p
      /\ Permutation (map (fun o => (ovc_id o, ovc_text o, ovc_position o))
                          (ps_options poll))
                     (map (fun o => (option_id o, option_text o, option_position o))
                          (options_of s (poll_id p)))
      /\ StronglySorted (fun a b => (ovc_position a <= ovc_position b)%Z)
                        (ps_options poll)
      /\ (forall o, In o (ps_options poll) ->
                    voteCount o = List.length (votes_for s (ovc_id o))).
Proof.
  intros s p Hok Hin. eexists. split; [apply (GET_found s p Hok Hin) |].
  cbn [ps_id ps_question ps_user_id ps_options].
  repeat split.
  - rewrite map_map. cbn [ovc_id ovc_text ovc_position].
    apply Permutation_map. apply sort_by_perm.
  - apply (sorted_with_counts (fun o => List.length (votes_for s (option_id o)))).
  - intros o Ho. apply in_map_iff in Ho. destruct Ho as [o' [<- _]]. reflexivity.
Qed.

Lemma GET_reports_options_in_order_with_their_votes_witness :
  exists poll,
    fst (run [] voted (GET (gen_random_uuid 0))) = (json 200 (PollBody poll), voted)
    /\ map ovc_text (ps_options poll) = ["React"; "Vue"]
    /\ map voteCount (ps_options poll) = [2; 0].
Proof.
  destruct (GET_reports_options_in_order_with_their_votes voted
              (mkPoll (gen_random_uuid 0) "user-1" "Best framework?" "2024-01-01T00:00:00Z"))
    as [poll [Hrun _]].
  - vm_compute. reflexivity.
  - vm_compute. left. reflexivity.
  - exists poll. split; [exact Hrun |].
    assert (Hpoll : PollBody poll
                    = body (fst (fst (run [] voted (GET (gen_random_uuid 0))))))
      by (change (gen_random_uuid 0)
            with (poll_id (mkPoll (gen_random_uuid 0) "user-1" "Best framework?"
                             "2024-01-01T00:00:00Z")); now rewrite Hrun).
    vm_compute in Hpoll. injection Hpoll as ->. split; reflexivity.
Defined.

(** ** More of the edit route *)

Lemma updatePollSchema_bounds (j : PollJson) (question : string) (texts : list string) :
  updatePollSchema_parse j = Parsed (question, texts) ->
  5 <= String.length question <= 200
  /\ 2 <= List.length texts <= 10
  /\ Forall (fun t => 1 <= String.length t <= 100) texts.
Proof.
  destruct j as [| | q ts]; simpl; try discriminate.
  destruct (_ && _) eqn:Hb; [| discriminate]. intros [= <- <-].
  unfold within in Hb. rewrite !andb_true_iff, forallb_forall in Hb.
  destruct Hb as [[[Hq1 Hq2] Hts] [Hn1 Hn2]].
  apply Nat.leb_le in Hq1, Hq2, Hn1, Hn2.
  repeat split; try assumption.
  apply Forall_forall. intros t Ht. specialize (Hts t Ht).
  apply andb_true_iff in Hts. destruct Hts as [H1 H2].
  apply Nat.leb_le in H1, H2. now split.
Qed.

Lemma has_poll_optionsData (s : Store) (pollId : string) (index : nat)
      (texts : list string) :
  has_poll s pollId = true ->
  forallb (fun r => has_poll s (new_poll_id r)) (optionsData pollId index texts) = true.
Proof.
  intros Hp. revert index.
  induction texts as [| t texts IH]; intros index; simpl; [reflexivity |].
  now rewrite Hp, IH.
Qed.

Lemma length_optionsData (pollId : string) (index : nat) (texts : list string) :
  List.length (optionsData pollId index texts) = List.length texts.
Proof.
  revert index. induction texts as [| t texts IH]; intros index; simpl;
    [reflexivity | now rewrite IH].
Qed.

(** Every way through the edit route: what is answered and what is left
    behind, by the point at which the route stops. *)
Lemma PUT_outcomes (req : EditRequest) (s : Store) (faults : list (option PgError)) :
  (snd (fst (run faults s (PUT req))) = s
   /\ status (fst (fst (run faults s (PUT req)))) <> 200)
  \/ exists p question texts,
       In p (poll_rows s) /\ poll_id p = edit_params_id req
       /\ auth_user req = Some (poll_user_id p)
       /\ updatePollSchema_parse (edit_json req) = Parsed (question, texts)
       /\ hd None (tl faults) = None
       /\ (status (fst (fst (run faults s (PUT req)))) = 200 ->
           snd (fst (run faults s (PUT req)))
           = mkStore (map (retitled (edit_params_id req) question) (poll_rows s))
               (filter (fun o => negb (option_poll_id o =? edit_params_id req))
                       (option_rows s)
                ++ fresh_options (uuids s) (optionsData (edit_params_id req) 0 texts))
               (filter (fun v => negb (existsb (fun o => option_id o =? vote_option_id v)
                                               (options_of s (edit_params_id req))))
                       (vote_rows s))
               (uuids s + List.length texts)).
Proof.
  unfold PUT.
  destruct (auth_user req) as [user |]; [| left; split; [reflexivity | discriminate]].
  rewrite run_Call_faults. cbv zeta.
  destruct (answer (hd None faults) _ s) as [[[pid owner] | e1] s1] eqn:Hfound;
    cbn [fst snd].
  2: { assert (s1 = s) as ->
         by (pose proof (answer_read (hd None faults)
                           (polls_select_owner (edit_params_id req)) s eq_refl) as H;
             now rewrite Hfound in H).
       left. split; [reflexivity | discriminate]. }
  apply exec_owner_found in Hfound.
  destruct Hfound as [-> [p [Hin [Hp [= -> ->]]]]].
  destruct (poll_user_id p =? user) eqn:Howner; cbn [negb];
    [| left; split; [reflexivity | discriminate]].
  apply String.eqb_eq in Howner. subst user.
  destruct (updatePollSchema_parse (edit_json req)) as [| | [question texts]] eqn:Hparse;
    try (left; split; [reflexivity | discriminate]).
  rewrite run_Call_faults. cbv zeta.
  destruct (hd None (tl faults)) as [e2 |] eqn:H2; cbn [answer fst snd];
    [left; split; [reflexivity | discriminate] |].
  right. exists p, question, texts. repeat split; try assumption; try reflexivity.
  rewrite exec_update. cbn [fst snd].
  rewrite run_Call_faults. cbv zeta.
  destruct (hd None (tl (tl faults))) as [e3 |]; cbn [answer fst snd];
    [discriminate |].
  cbn [exec fst snd].
  rewrite run_Call_faults. cbv zeta.
  destruct (hd None (tl (tl (tl faults)))) as [e4 |]; cbn [answer fst snd];
    [discriminate |].
  cbn [exec].
  destruct (forallb _ (optionsData (edit_params_id req) 0 texts));
    cbn [fst snd run poll_rows option_rows vote_rows uuids]; [| discriminate].
  intros _. rewrite length_optionsData. reflexivity.
Qed.

(** X6. An edit changes the store only when the requester is signed in as
    the owner of an existing poll and the body is within the bounds of the
    schema: a question of 5 to 200 characters and 2 to 10 options of 1 to
    100 characters.  Every other edit leaves the store as it is and is not
    answered 200. *)
Theorem PUT_writes_only_for_owner_within_bounds :
  forall (req : EditRequest) (s : Store) (faults : list (option PgError)),
    (snd (fst (run faults s (PUT req))) = s
     /\ status (fst (fst (run faults s (PUT req)))) <> 200)
    \/ exists p question texts,
         In p (poll_rows s) /\ poll_id p = edit_params_id req
         /\ auth_user req = Some (poll_user_id p)
         /\ edit_json req = poll_fields question texts
         /\ 5 <= String.length question <= 200
         /\ 2 <= List.length texts <= 10
         /\ Forall (fun t => 1 <= String.length t <= 100) texts.
Proof.
  intros req s faults.
  destruct (PUT_outcomes req s faults)
    as [H | [p [question [texts [Hin [Hp [Hauth [Hparse _]]]]]]]]; [now left |].
  right. exists p, question, texts.
  pose proof (updatePollSchema_bounds _ _ _ Hparse) as [Hq [Hn Hts]].
  apply updatePollSchema_parsed in Hparse. repeat split; tauto.
Qed.

Lemma NoDup_map_same {A B : Type} (f : A -> B) (l : list A) (x y : A) :
  NoDup (map f l) -> In x l -> In y l -> f x = f y -> x = y.
Proof.
  induction l as [| z l IH]; simpl; intros Hnd Hx Hy Hsame; [contradiction |].
  inversion Hnd as [| z' l' Hnin Hnd']; subst.
  destruct Hx as [-> | Hx], Hy as [-> | Hy]; trivial.
  - exfalso. apply Hnin. rewrite Hsame. now apply in_map.
  - exfalso. apply Hnin. rewrite <- Hsame. now apply in_map.
  - now apply IH.
Qed.

(** In a well-formed store a vote names an option of the poll [pollId]
    exactly when it is a vote on that poll. *)
Lemma vote_names_option_of_poll (s : Store) (v : VoteRow) (pollId : string) :
  store_ok s = true -> In v (vote_rows s) ->
  existsb (fun o => option_id o =? vote_option_id v) (options_of s pollId)
  = (vote_poll_id v =? pollId).
Proof.
  intros Hok Hin. apply store_ok_well_formed in Hok.
  pose proof (votes_option Hok v Hin) as Hv. unfold vote_in_poll in Hv.
  apply existsb_exists in Hv. destruct Hv as [o' [Hin' He]].
  apply andb_true_iff in He. destruct He as [Hid Hp].
  apply String.eqb_eq in Hid, Hp.
  destruct (vote_poll_id v =? pollId) eqn:Hpoll.
  - apply String.eqb_eq in Hpoll. apply existsb_exists. exists o'. split.
    + unfold options_of. apply filter_In. split; [assumption |].
      apply String.eqb_eq. congruence.
    + now apply String.eqb_eq.
  - apply not_true_is_false. intros Hex. apply existsb_exists in Hex.
    destruct Hex as [o [Ho Hoid]]. unfold options_of in Ho.
    apply filter_In in Ho. destruct Ho as [Ho Hop].
    apply String.eqb_eq in Hoid, Hop.
    assert (o = o')
      by (apply (NoDup_map_same option_id (option_rows s));
          [apply (options_pkey Hok) | assumption | assumption | congruence]).
    subst o'. apply String.eqb_neq in Hpoll. congruence.
Qed.

Lemma filter_votes_of_poll (s : Store) (pollId : string) :
  store_ok s = true ->
  filter (fun v => negb (existsb (fun o => option_id o =? vote_option_id v)
                                 (options_of s pollId))) (vote_rows s)
  = filter (fun v => negb (vote_poll_id v =? pollId)) (vote_rows s).
Proof.
  intros Hok. apply filter_ext_in. intros v Hv.
  now rewrite (vote_names_option_of_poll s v pollId Hok Hv).
Qed.

Lemma filter_other_vote (pollId other : string) (l : list VoteRow) :
  other <> pollId ->
  filter (fun v => vote_poll_id v =? other)
         (filter (fun v => negb (vote_poll_id v =? pollId)) l)
  = filter (fun v => vote_poll_id v =? other) l.
Proof.
  intros Hne. induction l as [| v l IH]; simpl; [reflexivity |].
  destruct (vote_poll_id v =? pollId) eqn:Hp; simpl.
  - apply String.eqb_eq in Hp.
    destruct (String.eqb_spec (vote_poll_id v) other); [congruence | assumption].
  - destruct (vote_poll_id v =? other); [now rewrite IH | assumption].
Qed.

(** The store a successful edit of a well-formed store leaves behind. *)
Lemma PUT_success_store (req : EditRequest) (s : Store)
      (faults : list (option PgError)) :
  store_ok s = true ->
  status (fst (fst (run faults s (PUT req)))) = 200 ->
  exists p question texts,
    In p (poll_rows s) /\ poll_id p = edit_params_id req
    /\ auth_user req = Some (poll_user_id p)
    /\ updatePollSchema_parse (edit_json req) = Parsed (question, texts)
    /\ snd (fst (run faults s (PUT req)))
       = mkStore (map (retitled (edit_params_id req) question) (poll_rows s))
           (filter (fun o => negb (option_poll_id o =? edit_params_id req))
                   (option_rows s)
            ++ fresh_options (uuids s) (optionsData (edit_params_id req) 0 texts))
           (filter (fun v => negb (vote_poll_id v =? edit_params_id req)) (vote_rows s))
           (uuids s + List.length texts).
Proof.
  intros Hok Hstatus.
  destruct (PUT_outcomes req s faults) as [[_ Hno] | [p [question [texts H]]]];
    [contradiction |].
  destruct H as [Hin [Hp [Hauth [Hparse [_ Hstore]]]]]. specialize (Hstore Hstatus).
  exists p, question, texts. repeat split; try assumption.
  rewrite Hstore. now rewrite (filter_votes_of_poll s _ Hok).
Qed.

(** X7. A successful edit discards every vote cast on the poll, whatever
    is submitted, also the question and the options the poll already has;
    the votes on the other polls are kept as they are. *)
Theorem PUT_success_discards_the_votes :
  forall (req : EditRequest) (s : Store) (faults : list (option PgError)),
    store_ok s = true ->
    status (fst (fst (run faults s (PUT req)))) = 200 ->
    vote_rows (snd (fst (run faults s (PUT req))))
    = filter (fun v => negb (vote_poll_id v =? edit_params_id req)) (vote_rows s)
    /\ votes_of (snd (fst (run faults s (PUT req)))) (edit_params_id req) = []
    /\ forall other, other <> edit_params_id req ->
                     votes_of (snd (fst (run faults s (PUT req)))) other
                     = votes_of s other.
Proof.
  intros req s faults Hok Hstatus.
  destruct (PUT_success_store req s faults Hok Hstatus)
    as [p [question [texts [_ [_ [_ [_ Hstore]]]]]]].
  unfold votes_of. rewrite Hstore. cbn [vote_rows].
  split; [reflexivity |]. split.
  - apply (filter_filter_negb (fun v => vote_poll_id v =? edit_params_id req)).
  - intros other Hne. now apply filter_other_vote.
Qed.

Lemma PUT_success_discards_the_votes_witness :
  votes_of demo (gen_random_uuid 0)
  = [mkVote (gen_random_uuid 5) (gen_random_uuid 0) (gen_random_uuid 1) "visitor-789"]
  /\ votes_of (snd (fst (run [] demo (PUT edit)))) (edit_params_id edit) = [].
Proof.
  split; [vm_compute; reflexivity |].
  apply (PUT_success_discards_the_votes edit demo []); vm_compute; reflexivity.
Defined.

Lemma optionsData_sorted (n : nat) (pollId : string) (texts : list string) :
  forall i,
    StronglySorted (fun a b => (option_position a <= option_position b)%Z)
                   (fresh_options n (optionsData pollId i texts))
    /\ Forall (fun o => (Z.of_nat i <= option_position o)%Z)
              (fresh_options n (optionsData pollId i texts)).
Proof.
  revert n. induction texts as [| t texts IH]; intros n i; simpl.
  - split; constructor.
  - destruct (IH (S n) (S i)) as [Hs Hall]. split.
    + constructor; [assumption |].
      apply Forall_forall. intros o Ho. rewrite Forall_forall in Hall.
      specialize (Hall o Ho). simpl. lia.
    + constructor; [simpl; lia |].
      apply Forall_forall. intros o Ho. rewrite Forall_forall in Hall.
      specialize (Hall o Ho). lia.
Qed.

(** Reading a poll whose options have just been written and which has no
    votes. *)
Lemma GET_fresh_poll (s : Store) (p : PollRow) (n : nat) (texts : list string) :
  store_ok s = true -> In p (poll_rows s) ->
  options_of s (poll_id p) = fresh_options n (optionsData (poll_id p) 0 texts) ->
  votes_of s (poll_id p) = [] ->
  fst (run [] s (GET (poll_id p)))
  = (json 200
       (PollBody
          (mkPollStats (poll_id p) (poll_question p) (poll_created_at p) (poll_user_id p)
             (map (fun o => mkOptionVoteCount (option_id o) (option_text o)
                              (option_position o) 0)
                  (fresh_options n (optionsData (poll_id p) 0 texts)))
             [] 0)), s).
Proof.
  intros Hok Hin Hoptions Hvotes.
  rewrite (GET_found s p Hok Hin), Hoptions, Hvotes.
  rewrite (sort_by_id option_position _
             (proj1 (optionsData_sorted n (poll_id p) texts 0))).
  cbn [map List.length].
  rewrite (map_ext_in
             (fun o => mkOptionVoteCount (option_id o) (option_text o)
                         (option_position o)
                         (List.length (votes_for s (option_id o))))
             (fun o => mkOptionVoteCount (option_id o) (option_text o)
                         (option_position o) 0));
    [reflexivity |].
  intros o Ho. f_equal.
  rewrite <- Hoptions in Ho. unfold options_of in Ho.
  apply filter_In in Ho. destruct Ho as [Ho Hopoll]. apply String.eqb_eq in Hopoll.
  pose proof (votes_for_in_poll s o Hok Ho) as Hfor.
  rewrite Hopoll, Hvotes in Hfor. simpl in Hfor.
  destruct (votes_for s (option_id o)); [reflexivity | discriminate Hfor].
Qed.

(** Reading a poll right after its successful edit. *)
Lemma PUT_then_GET (req : EditRequest) (s : Store) (faults : list (option PgError)) :
  store_ok s = true ->
  status (fst (fst (run faults s (PUT req)))) = 200 ->
  exists p question texts,
    In p (poll_rows s) /\ poll_id p = edit_params_id req
    /\ auth_user req = Some (poll_user_id p)
    /\ edit_json req = poll_fields question texts
    /\ fst (run [] (snd (fst (run faults s (PUT req)))) (GET (edit_params_id req)))
       = (json 200
            (PollBody
               (mkPollStats (edit_params_id req) question (poll_created_at p)
                  (poll_user_id p)
                  (map (fun o => mkOptionVoteCount (option_id o) (option_text o)
                                   (option_position o) 0)
                       (fresh_options (uuids s)
                          (optionsData (edit_params_id req) 0 texts)))
                  [] 0)),
          snd (fst (run faults s (PUT req)))).
Proof.
  intros Hok Hstatus.
  pose proof (run_keeps_store_ok (PUT req) faults s Hok (safe_PUT req s)) as Hok'.
  destruct (PUT_success_store req s faults Hok Hstatus)
    as [p [question [texts [Hin [Hp [Hauth [Hparse Hstore]]]]]]].
  exists p, question, texts. repeat split; try assumption;
    [now apply updatePollSchema_parsed |].
  set (s' := snd (fst (run faults s (PUT req)))) in *.
  assert (Hin' : In (retitled (edit_params_id req) question p) (poll_rows s'))
    by (rewrite Hstore; cbn [poll_rows]; now apply in_map).
  assert (Hp' : retitled (edit_params_id req) question p
                = mkPoll (edit_params_id req) (poll_user_id p) question (poll_created_at p))
    by (unfold retitled; rewrite (proj2 (String.eqb_eq _ _) Hp); now rewrite Hp).
  rewrite Hp' in Hin'.
  apply (GET_fresh_poll s' _ (uuids s) texts Hok' Hin'); cbn [poll_id].
  - unfold options_of. rewrite Hstore. cbn [option_rows]. rewrite filter_app.
    rewrite (filter_filter_negb (fun o => option_poll_id o =? edit_params_id req)).
    now rewrite fresh_options_own.
  - unfold votes_of. rewrite Hstore. cbn [vote_rows].
    apply (filter_filter_negb (fun v => vote_poll_id v =? edit_params_id req)).
Qed.

(** X8. After a successful edit of a poll in a well-formed store, reading
    the poll answers 200 with the submitted question, the submitted option
    texts in the order submitted, at positions 0 to n-1, and no votes: every
    count is zero and so is the total. *)
Theorem PUT_then_GET_shows_the_edit :
  forall (req : EditRequest) (s : Store) (faults : list (option PgError)),
    store_ok s = true ->
    status (fst (fst (run faults s (PUT req)))) = 200 ->
    exists question texts poll,
      edit_json req = poll_fields question texts
      /\ fst (run [] (snd (fst (run faults s (PUT req)))) (GET (edit_params_id req)))
         = (json 200 (PollBody poll), snd (fst (run faults s (PUT req))))
      /\ ps_id poll = edit_params_id req
      /\ ps_question poll = question
      /\ Some (ps_user_id poll) = auth_user req
      /\ map ovc_text (ps_options poll) = texts
      /\ map ovc_position (ps_options poll) = map Z.of_nat (seq 0 (List.length texts))
      /\ Forall (fun o => voteCount o = 0) (ps_options poll)
      /\ ps_totalVotes poll = 0.
Proof.
  intros req s faults Hok Hstatus.
  destruct (PUT_then_GET req s faults Hok Hstatus)
    as [p [question [texts [_ [_ [Hauth [Hjson Hget]]]]]]].
  exists question, texts. eexists. split; [assumption |].
  split; [exact Hget |]. cbn [ps_id ps_question ps_user_id ps_options ps_totalVotes].
  repeat split; try reflexivity.
  - now rewrite Hauth.
  - rewrite map_map. cbn [ovc_text]. apply fresh_options_texts.
  - rewrite map_map. cbn [ovc_position]. apply fresh_options_positions.
  - apply Forall_forall. intros o Ho. apply in_map_iff in Ho.
    destruct Ho as [o' [<- _]]. reflexivity.
Qed.

Lemma PUT_then_GET_shows_the_edit_witness :
  exists poll,
    body (fst (fst (run [] (snd (fst (run [] demo (PUT edit)))) (GET (edit_params_id edit)))))
    = PollBody poll
    /\ map ovc_text (ps_options poll) = ["Svelte"; "Solid"; "Qwik"]
    /\ ps_totalVotes poll = 0.
Proof.
  destruct (PUT_then_GET_shows_the_edit edit demo [])
    as [question [texts [poll [Hjson [Hget [_ [_ [_ [Htexts [_ [_ Htotal]]]]]]]]]]].
  - vm_compute. reflexivity.
  - vm_compute. reflexivity.
  - exists poll. rewrite Hget. cbn [fst body json]. split; [reflexivity |].
    split; [| assumption].
    rewrite Htexts. injection Hjson as _ <-. reflexivity.
Defined.

Lemma has_poll_retitled (s : Store) (pollId question other : string) :
  existsb (fun p => poll_id p =? other) (map (retitled pollId question) (poll_rows s))
  = has_poll s other.
Proof.
  unfold has_poll. induction (poll_rows s) as [| p l IH]; simpl; [reflexivity |].
  rewrite IH. f_equal. unfold retitled. now destruct (poll_id p =? pollId).
Qed.

(** The owner's edit within the bounds goes through when the store refuses
    nothing. *)
Lemma PUT_succeeds (req : EditRequest) (s : Store) (p : PollRow)
      (question : string) (texts : list string) :
  store_ok s = true -> In p (poll_rows s) -> poll_id p = edit_params_id req ->
  auth_user req = Some (poll_user_id p) ->
  updatePollSchema_parse (edit_json req) = Parsed (question, texts) ->
  fst (fst (run [] s (PUT req))) = json 200 (MessageBody "Poll updated successfully").
Proof.
  intros Hok Hin Hp Hauth Hparse. unfold PUT. rewrite Hauth.
  rewrite run_Call. cbv zeta. cbn [exec].
  rewrite <- Hp, (polls_with_single s p Hok Hin). cbn [map single fst snd].
  rewrite String.eqb_refl. cbn [negb]. rewrite Hparse.
  rewrite run_Call. cbv zeta. rewrite exec_update. cbn [fst snd].
  rewrite run_Call. cbv zeta. cbn [exec fst snd].
  rewrite run_Call. cbv zeta. cbn [exec].
  rewrite has_poll_optionsData; [reflexivity |].
  unfold has_poll. cbn [poll_rows]. rewrite has_poll_retitled.
  apply has_poll_In. now apply in_map.
Qed.

(** The form's schema and the route's schema accept the same bodies. *)
Lemma editPollSchema_agrees (question : string) (texts : list string) :
  updatePollSchema_parse (poll_fields question texts)
  = if editPollSchema_check question texts then Parsed (question, texts) else ZodError.
Proof.
  unfold updatePollSchema_parse, editPollSchema_check, within.
  destruct (5 <=? String.length question)%nat, (String.length question <=? 200)%nat,
    (forallb _ texts), (2 <=? List.length texts)%nat, (List.length texts <=? 10)%nat;
    reflexivity.
Qed.

(** X9. The edit form, loaded from a poll of a well-formed store and saved
    by the owner as it was loaded: the edit is answered 200, and the poll read
    again has the question and the option texts it had, in the same order,
    but under new option identifiers and without its votes. *)
Theorem edit_form_saved_as_loaded_keeps_texts_not_votes :
  forall (s : Store) (p : PollRow) (poll : PollStats) (req : EditRequest),
    store_ok s = true ->
    In p (poll_rows s) ->
    body (fst (fst (run [] s (GET (poll_id p))))) = PollBody poll ->
    editForm_submit (poll_id p) (Some (poll_user_id p)) (editForm_reset poll) = Some req ->
    fst (fst (run [] s (PUT req))) = json 200 (MessageBody "Poll updated successfully")
    /\ exists poll',
         fst (run [] (snd (fst (run [] s (PUT req)))) (GET (poll_id p)))
         = (json 200 (PollBody poll'), snd (fst (run [] s (PUT req))))
         /\ ps_question poll' = ps_question poll
         /\ map ovc_text (ps_options poll') = map ovc_text (ps_options poll)
         /\ (forall o o', In o (ps_options poll) -> In o' (ps_options poll') ->
                          ovc_id o' <> ovc_id o)
         /\ Forall (fun o => voteCount o = 0) (ps_options poll')
         /\ ps_totalVotes poll' = 0.
Proof.
  intros s p poll req Hok Hin Hbody Hsubmit.
  rewrite (GET_found s p Hok Hin) in Hbody. cbn [fst body json] in Hbody.
  injection Hbody as <-.
  unfold editForm_submit in Hsubmit.
  destruct (editPollSchema_check _ _) eqn:Hcheck; [| discriminate].
  injection Hsubmit as <-.
  set (form := editForm_reset _) in *.
  set (req := mkEditRequest (poll_id p) (Some (poll_user_id p))
                (poll_fields (fst form) (snd form))).
  assert (Hparse : updatePollSchema_parse (edit_json req) = Parsed (fst form, snd form))
    by (unfold req; cbn [edit_json]; now rewrite editPollSchema_agrees, Hcheck).
  pose proof (PUT_succeeds req s p _ _ Hok Hin eq_refl eq_refl Hparse) as Hput.
  split; [exact Hput |].
  assert (Hstatus : status (fst (fst (run [] s (PUT req)))) = 200)
    by (now rewrite Hput).
  destruct (PUT_then_GET req s [] Hok Hstatus)
    as [p' [question [texts [Hin' [Hp' [_ [Hjson Hget]]]]]]].
  unfold req in Hjson. cbn [edit_json] in Hjson. injection Hjson as <- <-.
  change (edit_params_id req) with (poll_id p) in Hget.
  eexists. split; [exact Hget |].
  cbn [ps_question ps_options ps_totalVotes].
  assert (Htexts : snd form
                   = map option_text (sort_by option_position (options_of s (poll_id p)))).
  { unfold form, editForm_reset. cbn [snd ps_options].
    rewrite sort_by_id.
    - rewrite map_map. reflexivity.
    - apply (sorted_with_counts (fun o => List.length (votes_for s (option_id o)))). }
  repeat split.
  - rewrite !map_map. cbn [ovc_text]. rewrite fresh_options_texts. exact Htexts.
  - intros o o' Ho Ho'.
    apply in_map_iff in Ho. destruct Ho as [r [<- Hr]].
    apply in_map_iff in Ho'. destruct Ho' as [r' [<- Hr']].
    cbn [ovc_id].
    apply (Permutation_in _ (sort_by_perm option_position _)) in Hr.
    unfold options_of in Hr. apply filter_In in Hr. destruct Hr as [Hr _].
    apply store_ok_well_formed in Hok.
    exact (drawn_not_fresh s r r' _ (options_drawn Hok r Hr) Hr').
  - apply Forall_forall. intros o Ho. apply in_map_iff in Ho.
    destruct Ho as [o' [<- _]]. reflexivity.
Qed.

Lemma edit_form_saved_as_loaded_keeps_texts_not_votes_witness :
  exists poll req,
    body (fst (fst (run [] demo (GET (gen_random_uuid 0))))) = PollBody poll
    /\ ps_totalVotes poll = 1
    /\ editForm_submit (gen_random_uuid 0) (Some "user-1") (editForm_reset poll) = Some req
    /\ fst (fst (run [] demo (PUT req)))
       = json 200 (MessageBody "Poll updated successfully").
Proof.
  eexists. eexists.
  split; [vm_compute; reflexivity |]. split; [reflexivity |].
  split; [vm_compute; reflexivity |].
  refine (proj1 (edit_form_saved_as_loaded_keeps_texts_not_votes demo
                   (mkPoll (gen_random_uuid 0) "user-1" "Best framework?"
                           "2024-01-01T00:00:00Z") _ _ _ _ _ _)).
  - vm_compute. reflexivity.
  - vm_compute. left. reflexivity.
  - vm_compute. reflexivity.
  - vm_compute. reflexivity.
Defined.

(** ** Deleting and creating polls *)

Lemma has_poll_kept (s : Store) (pollId other : string) :
  other <> pollId -> has_poll s other = true ->
  has_poll (polls_delete pollId s) other = true.
Proof.
  intros Hne H. apply has_poll_In in H. apply in_map_iff in H.
  destruct H as [p [Hp Hin]]. apply has_poll_In. apply in_map_iff.
  exists p. split; [assumption |]. simpl. apply filter_In. split; [assumption |].
  apply negb_true_iff. apply String.eqb_neq. congruence.
Qed.

(** Deleting a poll takes a well-formed store to a well-formed store. *)
Lemma polls_delete_well_formed (pollId : string) (s : Store) :
  well_formed s -> well_formed (polls_delete pollId s).
Proof.
  intros Hwf. constructor; simpl.
  - apply NoDup_map_filter, (polls_pkey Hwf).
  - apply NoDup_map_filter, (options_pkey Hwf).
  - apply NoDup_map_filter, (votes_pkey Hwf).
  - apply NoDup_map_filter, (votes_unique Hwf).
  - intros o Hin. apply filter_In in Hin. destruct Hin as [Hin Hkept].
    apply negb_true_iff, String.eqb_neq in Hkept.
    apply has_poll_kept; [assumption | now apply (options_poll Hwf)].
  - intros v Hin. apply filter_In in Hin. destruct Hin as [Hin Hkept].
    apply negb_true_iff, orb_false_iff in Hkept. destruct Hkept as [Hkept _].
    apply String.eqb_neq in Hkept.
    apply has_poll_kept; [assumption | now apply (votes_poll Hwf)].
  - intros v Hin. apply filter_In in Hin. destruct Hin as [Hin Hkept].
    apply negb_true_iff, orb_false_iff in Hkept. destruct Hkept as [Hkept _].
    apply String.eqb_neq in Hkept.
    apply (vote_in_poll_options s); [| now apply (votes_option Hwf)].
    simpl. intros o Ho _ Hp. apply filter_In. split; [assumption |].
    apply negb_true_iff, String.eqb_neq. congruence.
  - intros p Hin. apply filter_In in Hin. now apply (polls_drawn Hwf).
  - intros o Hin. apply filter_In in Hin. now apply (options_drawn Hwf).
  - intros v Hin. apply filter_In in Hin. now apply (votes_drawn Hwf).
Qed.

Lemma not_drawn_next (s : Store) : drawn s (gen_random_uuid (uuids s)) = false.
Proof.
  apply not_true_is_false. intros H. apply drawn_lt in H.
  destruct H as [k [Hk He]]. apply gen_random_uuid_inj in He. lia.
Qed.

(** No row of a well-formed store belongs to the poll whose identifier is
    generated next. *)
Lemma next_poll_is_new (s : Store) :
  well_formed s ->
  has_poll s (gen_random_uuid (uuids s)) = false
  /\ options_of s (gen_random_uuid (uuids s)) = []
  /\ votes_of s (gen_random_uuid (uuids s)) = [].
Proof.
  intros Hwf.
  assert (Hpoll : has_poll s (gen_random_uuid (uuids s)) = false).
  { apply not_true_is_false. intros H. apply has_poll_In in H.
    apply in_map_iff in H. destruct H as [p [Hp Hin]].
    pose proof (polls_drawn Hwf p Hin) as Hd. rewrite Hp, not_drawn_next in Hd.
    discriminate. }
  split; [assumption |]. split.
  - unfold options_of.
    rewrite (filter_ext_in _ (fun _ => false)); [apply filter_false |].
    intros o Ho. apply not_true_is_false. intros He. apply String.eqb_eq in He.
    pose proof (options_poll Hwf o Ho) as H. rewrite He in H. congruence.
  - unfold votes_of.
    rewrite (filter_ext_in _ (fun _ => false)); [apply filter_false |].
    intros v Hv. apply not_true_is_false. intros He. apply String.eqb_eq in He.
    pose proof (votes_poll Hwf v Hv) as H. rewrite He in H. congruence.
Qed.

Lemma filter_true {A : Type} (f : A -> bool) (l : list A) :
  (forall x, In x l -> f x = true) -> filter f l = l.
Proof.
  induction l as [| x l IH]; simpl; intros H; [reflexivity |].
  rewrite (H x (or_introl eq_refl)). f_equal. apply IH. intros y Hy. apply H. now right.
Qed.

(** Inserting a poll takes a well-formed store to a well-formed store. *)
Lemma polls_insert_well_formed (user question created_at : string) (s : Store) :
  well_formed s -> well_formed (snd (polls_insert user question created_at s)).
Proof.
  intros Hwf. destruct (next_poll_is_new s Hwf) as [Hnew _].
  assert (Hhas : forall i, has_poll s i = true ->
                           has_poll (snd (polls_insert user question created_at s)) i = true).
  { intros i H. unfold has_poll. simpl. rewrite existsb_app. unfold has_poll in H.
    now rewrite H. }
  constructor; simpl.
  - rewrite map_app. simpl. apply NoDup_snoc; [apply (polls_pkey Hwf) |].
    intros Hin. apply has_poll_In in Hin. congruence.
  - apply (options_pkey Hwf).
  - apply (votes_pkey Hwf).
  - apply (votes_unique Hwf).
  - intros o Hin. apply Hhas. now apply (options_poll Hwf).
  - intros v Hin. apply Hhas. now apply (votes_poll Hwf).
  - intros v Hin. apply (vote_in_poll_options s); [| now apply (votes_option Hwf)].
    simpl. auto.
  - intros p Hin. apply in_app_or in Hin. destruct Hin as [Hin | [<- | []]].
    + apply (drawn_mono s); [simpl; lia | now apply (polls_drawn Hwf)].
    + apply drawn_iff. simpl. exists (uuids s). split; [lia | reflexivity].
  - intros o Hin. apply (drawn_mono s); [simpl; lia | now apply (options_drawn Hwf)].
  - intros v Hin. apply (drawn_mono s); [simpl; lia | now apply (votes_drawn Hwf)].
Qed.

(** Deleting the poll that was inserted last, before anything refers to it,
    gives the tables back. *)
Lemma polls_delete_insert (user question created_at : string) (s : Store) :
  well_formed s ->
  polls_delete (gen_random_uuid (uuids s)) (snd (polls_insert user question created_at s))
  = mkStore (poll_rows s) (option_rows s) (vote_rows s) (S (uuids s)).
Proof.
  intros Hwf. destruct (next_poll_is_new s Hwf) as [Hpoll [Hoptions Hvotes]].
  unfold polls_delete, polls_insert. cbn [snd poll_rows option_rows vote_rows uuids].
  unfold options_of at 1. cbn [option_rows]. fold (options_of s (gen_random_uuid (uuids s))).
  rewrite Hoptions. cbn [existsb]. f_equal.
  - rewrite filter_app. cbn [filter poll_id]. rewrite String.eqb_refl. cbn [negb].
    rewrite app_nil_r.
    apply filter_true. intros p Hp. apply negb_true_iff. apply not_true_is_false.
    intros He. apply String.eqb_eq in He.
    assert (H : has_poll s (gen_random_uuid (uuids s)) = true); [| congruence].
    apply has_poll_In. rewrite <- He. now apply in_map.
  - apply filter_true. intros o Ho. apply negb_true_iff. apply not_true_is_false.
    intros He.
    assert (H : In o (options_of s (gen_random_uuid (uuids s))))
      by (unfold options_of; apply filter_In; now split).
    now rewrite Hoptions in H.
  - apply filter_true. intros v Hv. rewrite orb_false_r.
    apply negb_true_iff. apply not_true_is_false. intros He.
    assert (H : In v (votes_of s (gen_random_uuid (uuids s))))
      by (unfold votes_of; apply filter_In; now split).
    now rewrite Hvotes in H.
Qed.

Lemma filter_other_row {A : Type} (key : A -> string) (pollId other : string)
      (l : list A) :
  other <> pollId ->
  filter (fun x => key x =? other) (filter (fun x => negb (key x =? pollId)) l)
  = filter (fun x => key x =? other) l.
Proof.
  intros Hne. induction l as [| x l IH]; simpl; [reflexivity |].
  destruct (key x =? pollId) eqn:Hp; simpl.
  - apply String.eqb_eq in Hp.
    destruct (String.eqb_spec (key x) other); [congruence | assumption].
  - destruct (key x =? other); [now rewrite IH | assumption].
Qed.

(** The vote rows a poll's deletion leaves in a well-formed store. *)
Lemma polls_delete_votes (pollId : string) (s : Store) :
  store_ok s = true ->
  vote_rows (polls_delete pollId s)
  = filter (fun v => negb (vote_poll_id v =? pollId)) (vote_rows s).
Proof.
  intros Hok. simpl. apply filter_ext_in. intros v Hv.
  rewrite (vote_names_option_of_poll s v pollId Hok Hv). now rewrite orb_diag.
Qed.

(** X11. A delete request removes a poll exactly for its owner.  It is
    answered 200 if and only if the requester is signed in as the owner of
    the one poll row with that id and the store refuses neither the
    ownership read nor the delete; then the store afterwards is the store
    with that poll deleted.  In every other case, whatever is refused, the
    answer is not 200 and the store is left as it is. *)
Theorem DELETE_removes_only_for_the_owner :
  forall (req : DeleteRequest) (s : Store) (faults : list (option PgError)),
    (status (fst (DELETE req faults s)) = 200
     <-> exists p,
           polls_with s (delete_params_id req) = [p]
           /\ delete_user req = Some (poll_user_id p)
           /\ hd None faults = None /\ hd None (tl faults) = None)
    /\ (status (fst (DELETE req faults s)) = 200 ->
        DELETE req faults s
        = (json 200 (MessageBody "Poll deleted successfully"),
           polls_delete (delete_params_id req) s))
    /\ (status (fst (DELETE req faults s)) <> 200 -> snd (DELETE req faults s) = s).
Proof.
  intros req s faults. unfold DELETE.
  destruct (delete_user req) as [user |].
  2: { split; [| split]; [split | |]; try (cbn [fst snd status json]; discriminate);
       try reflexivity.
       intros [p [_ [Hu _]]]. discriminate Hu. }
  destruct (hd None faults) as [e1 |]; cbn [answer].
  { split; [| split]; [split | |]; try (cbn [fst snd status json]; discriminate);
      try reflexivity.
    intros [p [_ [_ [Hf _]]]]. discriminate Hf. }
  cbn [exec].
  destruct (polls_with s (delete_params_id req)) as [| p [| p' l]]; cbn [map single].
  1, 3: split; [| split]; [split | |]; try (cbn [fst snd status json]; discriminate);
    try reflexivity; intros [q [Hq _]]; discriminate Hq.
  destruct (poll_user_id p =? user) eqn:Howner; cbn [negb].
  2: { split; [| split]; [split | |]; try (cbn [fst snd status json]; discriminate);
       try reflexivity.
       intros [q [Hq [Hu _]]]. injection Hq as <-. injection Hu as Hu. subst user.
       rewrite String.eqb_refl in Howner. discriminate Howner. }
  apply String.eqb_eq in Howner. subst user.
  destruct (hd None (tl faults)) as [e2 |].
  { split; [| split]; [split | |]; try (cbn [fst snd status json]; discriminate);
      try reflexivity.
    intros [q [_ [_ [_ Hf]]]]. discriminate Hf. }
  split; [| split]; [split | |]; try reflexivity.
  - intros _. exists p. repeat split; reflexivity.
  - cbn [fst status json]. intros H. now contradiction H.
Qed.

(** X12. When the owner deletes a poll of a well-formed store and nothing
    is refused, the poll, its options and every vote on it are gone, the rows
    of all other polls are as they were, the store is still well formed,
    reading the poll is answered 404 and no vote on it succeeds. *)
Theorem DELETE_cascades_and_spares_other_polls :
  forall (is_uuid : string -> bool) (req : DeleteRequest) (s : Store) (p : PollRow),
    store_ok s = true ->
    In p (poll_rows s) ->
    poll_id p = delete_params_id req ->
    delete_user req = Some (poll_user_id p) ->
    fst (DELETE req [] s) = json 200 (MessageBody "Poll deleted successfully")
    /\ has_poll (snd (DELETE req [] s)) (poll_id p) = false
    /\ options_of (snd (DELETE req [] s)) (poll_id p) = []
    /\ votes_of (snd (DELETE req [] s)) (poll_id p) = []
    /\ (forall o, In o (options_of s (poll_id p)) ->
                  votes_for (snd (DELETE req [] s)) (option_id o) = [])
    /\ (forall other, other <> poll_id p ->
                      polls_with (snd (DELETE req [] s)) other = polls_with s other
                      /\ options_of (snd (DELETE req [] s)) other = options_of s other
                      /\ votes_of (snd (DELETE req [] s)) other = votes_of s other)
    /\ store_ok (snd (DELETE req [] s)) = true
    /\ fst (run [] (snd (DELETE req [] s)) (GET (poll_id p)))
       = (json 404 (ErrorBody "Poll not found"), snd (DELETE req [] s))
    /\ (forall vote, vote_params_id vote = poll_id p ->
                     status (fst (fst (run [] (snd (DELETE req [] s)) (POST is_uuid vote))))
                     <> 200).
Proof.
  intros is_uuid req s p Hok Hin Hp Hauth.
  assert (Hrun : DELETE req [] s
                 = (json 200 (MessageBody "Poll deleted successfully"),
                    polls_delete (poll_id p) s)).
  { unfold DELETE. rewrite Hauth. cbn [hd tl answer exec].
    rewrite <- Hp, (polls_with_single s p Hok Hin). cbn [map single].
    now rewrite String.eqb_refl. }
  rewrite Hrun. cbn [fst snd].
  assert (Hgone : has_poll (polls_delete (poll_id p) s) (poll_id p) = false).
  { unfold has_poll. cbn [polls_delete poll_rows].
    apply not_true_is_false. intros H. apply existsb_exists in H.
    destruct H as [q [Hq He]]. apply filter_In in Hq. destruct Hq as [_ Hq].
    rewrite He in Hq. discriminate. }
  assert (Hvotes : votes_of (polls_delete (poll_id p) s) (poll_id p) = []).
  { unfold votes_of. rewrite (polls_delete_votes _ s Hok).
    apply (filter_filter_negb (fun v => vote_poll_id v =? poll_id p)). }
  assert (Hok' : store_ok (polls_delete (poll_id p) s) = true).
  { apply store_ok_well_formed. apply polls_delete_well_formed.
    now apply store_ok_well_formed. }
  split; [reflexivity |]. split; [assumption |]. split.
  { unfold options_of. cbn [polls_delete option_rows].
    apply (filter_filter_negb (fun o => option_poll_id o =? poll_id p)). }
  split; [assumption |]. split.
  { intros o Ho. unfold votes_for. rewrite (polls_delete_votes _ s Hok).
    unfold options_of in Ho. apply filter_In in Ho. destruct Ho as [Ho Hop].
    apply String.eqb_eq in Hop.
    rewrite (filter_ext_in _ (fun _ => false)); [apply filter_false |].
    intros v Hv. apply filter_In in Hv. destruct Hv as [Hv Hkept].
    apply not_true_is_false. intros He. apply String.eqb_eq in He.
    assert (Hex : existsb (fun o' => option_id o' =? vote_option_id v)
                          (options_of s (poll_id p)) = true).
    { apply existsb_exists. exists o. split.
      - unfold options_of. apply filter_In. split; [assumption |].
        now apply String.eqb_eq.
      - apply String.eqb_eq. congruence. }
    rewrite (vote_names_option_of_poll s v _ Hok Hv) in Hex.
    rewrite Hex in Hkept. discriminate. }
  split.
  { intros other Hne. repeat split.
    - unfold polls_with. cbn [polls_delete poll_rows].
      now apply (filter_other_row poll_id).
    - unfold options_of. cbn [polls_delete option_rows].
      now apply (filter_other_row option_poll_id).
    - unfold votes_of. rewrite (polls_delete_votes _ s Hok).
      now apply (filter_other_row vote_poll_id). }
  split; [assumption |]. split.
  - unfold GET. rewrite run_Call. cbv zeta. cbn [exec].
    rewrite (has_poll_false _ _ Hgone). reflexivity.
  - intros vote Hvote. unfold POST.
    destruct (voteSchema_parse is_uuid (vote_json vote)); try (simpl; discriminate).
    rewrite run_Call. cbv zeta. cbn [exec].
    rewrite Hvote, (has_poll_false _ _ Hgone). simpl. discriminate.
Qed.

Lemma DELETE_cascades_and_spares_other_polls_witness :
  votes_of demo (gen_random_uuid 0) <> []
  /\ votes_of (snd (DELETE removal [] demo)) (gen_random_uuid 0) = []
  /\ store_ok (snd (DELETE removal [] demo)) = true.
Proof.
  split; [vm_compute; discriminate |].
  destruct (DELETE_cascades_and_spares_other_polls uuid_shape removal demo
              (mkPoll (gen_random_uuid 0) "user-1" "Best framework?" "2024-01-01T00:00:00Z"))
    as [_ [_ [_ [Hvotes [_ [_ [Hok _]]]]]]].
  - vm_compute. reflexivity.
  - vm_compute. left. reflexivity.
  - vm_compute. reflexivity.
  - vm_compute. reflexivity.
  - split; assumption.
Defined.

(** The options of a new poll are accepted: the poll is there. *)
Lemma options_insert_after_polls_insert (user question created_at : string)
      (texts : list string) (s : Store) :
  exec (options_insert (optionsData (gen_random_uuid (uuids s)) 0 texts))
       (snd (polls_insert user question created_at s))
  = (Data tt,
     mkStore (poll_rows s ++ [mkPoll (gen_random_uuid (uuids s)) user question created_at])
             (option_rows s
              ++ fresh_options (S (uuids s))
                   (optionsData (gen_random_uuid (uuids s)) 0 texts))
             (vote_rows s)
             (S (uuids s) + List.length texts)).
Proof.
  cbn [exec]. rewrite has_poll_optionsData.
  - cbn [polls_insert snd poll_rows option_rows vote_rows uuids].
    now rewrite length_optionsData.
  - apply has_poll_In. cbn [polls_insert snd poll_rows]. rewrite map_app.
    apply in_or_app. right. cbn [map poll_id]. now left.
Qed.

(** X13. Creating a poll is all or nothing, unless the clean-up is refused
    too.  On a well-formed store, whatever the store refuses: either the
    answer is 201 and the tables gained exactly the new poll, owned by the
    requester, and one option per submitted text; or the answer is not 201
    and the tables are as they were; or the answer is 500, the store refused
    both the insert of the options and the delete that should undo the poll,
    and the poll is left behind without options.  The store stays well
    formed throughout. *)
Theorem create_is_all_or_nothing_unless_cleanup_fails :
  forall (req : Polls.CreateRequest) (created_at : string)
         (faults : list (option PgError)) (s : Store),
    store_ok s = true ->
    store_ok (snd (Polls.POST req created_at faults s)) = true
    /\ ((exists user question texts,
           Polls.create_user req = Some user
           /\ Polls.create_json req = poll_fields question texts
           /\ fst (Polls.POST req created_at faults s)
              = Polls.mkCreateResponse 201
                  (Polls.Created (mkPoll (gen_random_uuid (uuids s)) user question
                                         created_at))
           /\ poll_rows (snd (Polls.POST req created_at faults s))
              = poll_rows s ++ [mkPoll (gen_random_uuid (uuids s)) user question created_at]
           /\ option_rows (snd (Polls.POST req created_at faults s))
              = option_rows s
                ++ fresh_options (S (uuids s))
                     (optionsData (gen_random_uuid (uuids s)) 0 texts)
           /\ vote_rows (snd (Polls.POST req created_at faults s)) = vote_rows s)
        \/ (Polls.create_status (fst (Polls.POST req created_at faults s)) <> 201
            /\ poll_rows (snd (Polls.POST req created_at faults s)) = poll_rows s
            /\ option_rows (snd (Polls.POST req created_at faults s)) = option_rows s
            /\ vote_rows (snd (Polls.POST req created_at faults s)) = vote_rows s)
        \/ (fst (Polls.POST req created_at faults s)
            = Polls.mkCreateResponse 500 (Polls.CreateError "Failed to create poll options")
            /\ hd None (tl faults) <> None /\ hd None (tl (tl faults)) <> None
            /\ has_poll (snd (Polls.POST req created_at faults s))
                        (gen_random_uuid (uuids s)) = true
            /\ has_poll s (gen_random_uuid (uuids s)) = false
            /\ options_of (snd (Polls.POST req created_at faults s))
                          (gen_random_uuid (uuids s)) = [])).
Proof.
  intros req created_at faults s Hok.
  pose proof (proj1 (store_ok_well_formed s) Hok) as Hwf.
  unfold Polls.POST.
  destruct (Polls.create_user req) as [user |];
    [| split; [assumption | right; left; repeat split; discriminate]].
  unfold Polls.createPollSchema_parse.
  destruct (updatePollSchema_parse (Polls.create_json req)) as [| | [question texts]] eqn:Hparse;
    try (split; [assumption | right; left; repeat split; discriminate]).
  apply updatePollSchema_parsed in Hparse.
  destruct (hd None faults) as [e1 |];
    [split; [assumption | right; left; repeat split; discriminate] |].
  pose proof (polls_insert_well_formed user question created_at s Hwf) as Hwf1.
  destruct (polls_insert user question created_at s) as [poll s1] eqn:Hinsert.
  assert (Hpoll : poll = mkPoll (gen_random_uuid (uuids s)) user question created_at)
    by (unfold polls_insert in Hinsert; now injection Hinsert as <- _).
  assert (Hs1 : s1 = snd (polls_insert user question created_at s))
    by (now rewrite Hinsert).
  cbn [snd] in Hwf1. subst poll. cbn [poll_id].
  destruct (hd None (tl faults)) as [e2 |] eqn:H2; cbn [answer].
  - destruct (hd None (tl (tl faults))) as [e3 |] eqn:H3; cbn [fst snd].
    + split; [now apply store_ok_well_formed |].
      right; right. repeat split; try discriminate.
      * rewrite Hs1. apply has_poll_In. cbn [polls_insert snd poll_rows].
        rewrite map_app. apply in_or_app. right. now left.
      * apply (next_poll_is_new s Hwf).
      * rewrite Hs1. unfold options_of. cbn [polls_insert snd option_rows].
        apply (next_poll_is_new s Hwf).
    + rewrite Hs1, (polls_delete_insert user question created_at s Hwf).
      split.
      * rewrite Hs1 in Hwf1.
        pose proof (polls_delete_well_formed (gen_random_uuid (uuids s)) _ Hwf1) as Hwf2.
        rewrite (polls_delete_insert user question created_at s Hwf) in Hwf2.
        now apply store_ok_well_formed.
      * right; left. repeat split. discriminate.
  - rewrite Hs1, options_insert_after_polls_insert. cbn [fst snd].
    split.
    + pose proof (exec_well_formed
                    (options_insert (optionsData (gen_random_uuid (uuids s)) 0 texts))
                    s1 Hwf1 I) as Hwf2.
      rewrite Hs1, options_insert_after_polls_insert in Hwf2.
      now apply store_ok_well_formed.
    + left. exists user, question, texts. repeat split; assumption.
Qed.

Lemma create_is_all_or_nothing_unless_cleanup_fails_witness :
  store_ok (snd (Polls.POST create "2024-02-01T00:00:00Z" [None; Some unavailable] demo))
  = true.
Proof.
  apply (create_is_all_or_nothing_unless_cleanup_fails create "2024-02-01T00:00:00Z"
           [None; Some unavailable] demo).
  vm_compute. reflexivity.
Defined.

(** X14. A signed-in user who submits a question and options within the
    bounds, to a well-formed store that refuses nothing, gets 201 and a poll
    under an identifier no poll had before; reading that poll answers 200
    with the question, the owner, the option texts in the order submitted at
    positions 0 to n-1, and no votes. *)
Theorem created_poll_reads_back :
  forall (req : Polls.CreateRequest) (created_at : string) (s : Store)
         (user question : string) (texts : list string),
    store_ok s = true ->
    Polls.create_user req = Some user ->
    Polls.create_json req = poll_fields question texts ->
    editPollSchema_check question texts = true ->
    has_poll s (gen_random_uuid (uuids s)) = false
    /\ fst (Polls.POST req created_at [] s)
       = Polls.mkCreateResponse 201
           (Polls.Created (mkPoll (gen_random_uuid (uuids s)) user question created_at))
    /\ exists poll,
         fst (run [] (snd (Polls.POST req created_at [] s))
                  (GET (gen_random_uuid (uuids s))))
         = (json 200 (PollBody poll), snd (Polls.POST req created_at [] s))
         /\ ps_question poll = question
         /\ ps_user_id poll = user
         /\ ps_created_at poll = created_at
         /\ map ovc_text (ps_options poll) = texts
         /\ map ovc_position (ps_options poll) = map Z.of_nat (seq 0 (List.length texts))
         /\ Forall (fun o => voteCount o = 0) (ps_options poll)
         /\ ps_totalVotes poll = 0.
Proof.
  intros req created_at s user question texts Hok Huser Hjson Hcheck.
  pose proof (proj1 (store_ok_well_formed s) Hok) as Hwf.
  destruct (next_poll_is_new s Hwf) as [Hnew [Hoptions Hvotes]].
  assert (Hrun : Polls.POST req created_at [] s
                 = (Polls.mkCreateResponse 201
                      (Polls.Created (mkPoll (gen_random_uuid (uuids s)) user question
                                             created_at)),
                    mkStore
                      (poll_rows s
                       ++ [mkPoll (gen_random_uuid (uuids s)) user question created_at])
                      (option_rows s
                       ++ fresh_options (S (uuids s))
                            (optionsData (gen_random_uuid (uuids s)) 0 texts))
                      (vote_rows s)
                      (S (uuids s) + List.length texts))).
  { unfold Polls.POST, Polls.createPollSchema_parse.
    rewrite Huser, Hjson, editPollSchema_agrees, Hcheck.
    cbn [hd tl answer].
    change (polls_insert user question created_at s)
      with (mkPoll (gen_random_uuid (uuids s)) user question created_at,
            snd (polls_insert user question created_at s)).
    cbv iota beta. cbn [poll_id].
    now rewrite options_insert_after_polls_insert. }
  assert (Hok' : store_ok (snd (Polls.POST req created_at [] s)) = true).
  { pose proof (exec_well_formed
                  (options_insert (optionsData (gen_random_uuid (uuids s)) 0 texts))
                  _ (polls_insert_well_formed user question created_at s Hwf) I) as H.
    rewrite options_insert_after_polls_insert in H. rewrite Hrun.
    now apply store_ok_well_formed. }
  rewrite Hrun in Hok' |- *. cbn [fst snd] in Hok' |- *.
  split; [assumption |]. split; [reflexivity |].
  eexists. split.
  - apply (GET_fresh_poll _ (mkPoll (gen_random_uuid (uuids s)) user question created_at)
             (S (uuids s)) texts Hok'); cbn [poll_id poll_rows].
    + apply in_or_app. right. now left.
    + unfold options_of. cbn [option_rows]. rewrite filter_app.
      fold (options_of s (gen_random_uuid (uuids s))). rewrite Hoptions.
      cbn [app]. apply fresh_options_own.
    + exact Hvotes.
  - cbn [ps_question ps_user_id ps_created_at ps_options ps_totalVotes
         poll_question poll_user_id poll_created_at].
    repeat split.
    + rewrite map_map. cbn [ovc_text]. apply fresh_options_texts.
    + rewrite map_map. cbn [ovc_position]. apply fresh_options_positions.
    + apply Forall_forall. intros o Ho. apply in_map_iff in Ho.
      destruct Ho as [o' [<- _]]. reflexivity.
Qed.

Lemma created_poll_reads_back_witness :
  fst (Polls.POST create "2024-02-01T00:00:00Z" [] demo)
  = Polls.mkCreateResponse 201
      (Polls.Created (mkPoll (gen_random_uuid 6) "user-1" "Favourite editor?"
                             "2024-02-01T00:00:00Z")).
Proof.
  refine (proj1 (proj2 (created_poll_reads_back create "2024-02-01T00:00:00Z" demo
                          "user-1" "Favourite editor?" ["Vim"; "Emacs"] _ _ _ _)));
    vm_compute; reflexivity.
Defined.

(** ** The poll page *)

Lemma getVisitorId_item (item : option string) (now : N) (random36 : string) :
  snd (getVisitorId item now random36) = Some (fst (getVisitorId item now random36))
  /\ fst (getVisitorId item now random36) <> "".
Proof.
  unfold getVisitorId. destruct item as [v |].
  - destruct (v =? "") eqn:He; cbn [fst snd].
    + split; [reflexivity | discriminate].
    + split; [reflexivity | now apply String.eqb_neq].
  - cbn [fst snd]. split; [reflexivity | discriminate].
Qed.

Lemma getVisitorId_stored (id : string) (now : N) (random36 : string) :
  id <> "" -> getVisitorId (Some id) now random36 = (id, Some id).
Proof.
  intros Hid. unfold getVisitorId. apply String.eqb_neq in Hid. now rewrite Hid.
Qed.

(** *** The identifier in the header *)

Lemma strip_leading_safe (s : string) :
  header_safe s = true -> strip_leading s = s.
Proof.
  destruct s as [| c s]; [reflexivity |]. simpl.
  destruct (http_whitespace c); [discriminate | reflexivity].
Qed.

Lemma strip_trailing_safe (s : string) :
  header_safe s = true -> strip_trailing s = s.
Proof.
  induction s as [| c s IH]; [reflexivity |]. simpl. intros Hsafe.
  apply andb_true_iff in Hsafe. destruct Hsafe as [Hc Hs].
  apply andb_true_iff in Hc. destruct Hc as [Hw _].
  rewrite (IH Hs). destruct s; [| reflexivity].
  destruct (http_whitespace c); [discriminate | reflexivity].
Qed.

Lemma holds_refused_byte_safe (s : string) :
  header_safe s = true -> holds_refused_byte s = false.
Proof.
  induction s as [| c s IH]; [reflexivity |]. simpl. intros Hsafe.
  apply andb_true_iff in Hsafe. destruct Hsafe as [Hc Hs].
  apply andb_true_iff in Hc. destruct Hc as [_ Hr].
  apply negb_true_iff in Hr. rewrite Hr. now apply IH.
Qed.

Lemma Headers_append_safe (s : string) :
  header_safe s = true -> Headers_append s = Some s.
Proof.
  intros Hsafe. unfold Headers_append, normalize.
  now rewrite (strip_leading_safe s Hsafe), (strip_trailing_safe s Hsafe),
    (holds_refused_byte_safe s Hsafe).
Qed.

Lemma header_safe_app (a b : string) :
  header_safe (a ++ b) = header_safe a && header_safe b.
Proof.
  induction a as [| c a IH]; simpl; [reflexivity |].
  rewrite IH. now rewrite andb_assoc.
Qed.

Lemma is_digit_safe (c : ascii) :
  is_digit c = true -> negb (http_whitespace c) && negb (refused_byte c) = true.
Proof.
  unfold is_digit, http_whitespace, refused_byte. cbv zeta.
  generalize (nat_of_ascii c). intros n H.
  apply andb_true_iff in H. destruct H as [Hlo Hhi]. apply Nat.leb_le in Hlo, Hhi.
  repeat match goal with
         | |- context [(n =? ?k)%nat] =>
             destruct (Nat.eqb_spec n k); [lia |]
         end.
  reflexivity.
Qed.

Lemma is_base36_safe (c : ascii) :
  is_base36 c = true -> negb (http_whitespace c) && negb (refused_byte c) = true.
Proof.
  unfold is_base36, http_whitespace, refused_byte. cbv zeta.
  generalize (nat_of_ascii c). intros n H.
  assert (Hn : 46 <= n) .
  { apply orb_true_iff in H. destruct H as [H | H].
    - apply orb_true_iff in H. destruct H as [H | H];
        apply andb_true_iff in H; destruct H as [Hlo _]; apply Nat.leb_le in Hlo; lia.
    - apply Nat.eqb_eq in H. lia. }
  repeat match goal with
         | |- context [(n =? ?k)%nat] =>
             destruct (Nat.eqb_spec n k); [lia |]
         end.
  reflexivity.
Qed.

Lemma all_digits_safe (s : string) : all_digits s = true -> header_safe s = true.
Proof.
  induction s as [| c s IH]; simpl; [reflexivity |]. intros H.
  apply andb_true_iff in H. destruct H as [Hc Hs].
  now rewrite (is_digit_safe c Hc), (IH Hs).
Qed.

Lemma all_base36_safe (s : string) : all_base36 s = true -> header_safe s = true.
Proof.
  induction s as [| c s IH]; simpl; [reflexivity |]. intros H.
  apply andb_true_iff in H. destruct H as [Hc Hs].
  now rewrite (is_base36_safe c Hc), (IH Hs).
Qed.

Lemma all_base36_substr (start len : nat) (s : string) :
  all_base36 s = true -> all_base36 (substr start len s) = true.
Proof.
  unfold substr. revert start len.
  induction s as [| c s IH]; intros [| start] [| len] H; simpl; trivial.
  - simpl in H. apply andb_true_iff in H. destruct H as [Hc Hs].
    now rewrite Hc, (IH 0 len Hs).
  - simpl in H. apply andb_true_iff in H. destruct H as [_ Hs]. now apply IH.
  - simpl in H. apply andb_true_iff in H. destruct H as [_ Hs]. now apply IH.
Qed.

Lemma all_digits_decimal (n : N) : all_digits (decimal n) = true.
Proof.
  unfold decimal. generalize (N.to_uint n). intros u.
  assert (H : all_digits (NilEmpty.string_of_uint u) = true)
    by (induction u; simpl; trivial).
  destruct u; trivial.
Qed.

(** The identifiers the page makes up pass the headers as they are. *)
Lemma made_up_safe (now : N) (random36 : string) :
  all_base36 random36 = true ->
  header_safe ("visitor_" ++ decimal now ++ "_" ++ substr 2 9 random36) = true.
Proof.
  intros H. rewrite !header_safe_app.
  rewrite (all_digits_safe _ (all_digits_decimal now)).
  rewrite (all_base36_safe _ (all_base36_substr 2 9 random36 H)).
  reflexivity.
Qed.

(** X15. The browser keeps one visitor identifier: [getVisitorId] returns a
    non-empty identifier and leaves it in the storage, and every later call
    returns that identifier whatever the clock and the random draw.  The
    header carries it as the headers hold it, without surrounding
    whitespace: a request whose header holds a non-empty value is taken by
    the vote route to be from the visitor of that value.  An identifier
    without whitespace and refused bytes is carried as it is, and so is every
    identifier the page makes up itself from a base-36 random draw. *)
Theorem getVisitorId_keeps_one_identity :
  forall (item : option string) (now now' : N) (random36 random36' : string),
    fst (getVisitorId item now random36) <> ""
    /\ snd (getVisitorId item now random36) = Some (fst (getVisitorId item now random36))
    /\ getVisitorId (snd (getVisitorId item now random36)) now' random36'
       = getVisitorId item now random36
    /\ (forall header req,
           Headers_append (fst (getVisitorId item now random36)) = Some header ->
           header <> "" ->
           x_visitor_id req = Some header ->
           visitor_id_of req = normalize (fst (getVisitorId item now random36)))
    /\ (header_safe (fst (getVisitorId item now random36)) = true ->
        Headers_append (fst (getVisitorId item now random36))
        = Some (fst (getVisitorId item now random36)))
    /\ (item = None \/ item = Some "" -> all_base36 random36 = true ->
        header_safe (fst (getVisitorId item now random36)) = true).
Proof.
  intros item now now' random36 random36'.
  destruct (getVisitorId_item item now random36) as [Hitem Hid].
  split; [assumption |]. split; [assumption |]. split.
  { rewrite Hitem, (getVisitorId_stored _ now' random36' Hid).
    rewrite <- Hitem. now destruct (getVisitorId item now random36). }
  split.
  { intros header req Hsent Hne Hreq.
    rewrite <- (Headers_append_normalize _ _ Hsent).
    now apply visitor_id_of_header. }
  split; [apply Headers_append_safe |].
  intros [-> | ->] Hdraw; unfold getVisitorId; cbn [String.eqb fst];
    now apply made_up_safe.
Qed.

(** [handleVote] on a page with a poll and a selected option, when the
    headers take the identifier. *)
Lemma handleVote_posts (is_uuid : string -> bool) (pollId : string) (c : Click)
      (w : World) (poll : PollStats) (header : string) :
  selectedOption (world_page w) <> "" ->
  page_poll (world_page w) = Some poll ->
  Headers_append (fst (getVisitorId (world_item w) (click_now c) (click_random36 c)))
  = Some header ->
  handleVote is_uuid pollId c w
  = let p := world_page w in
    let request :=
      mkVoteRequest pollId (Some header)
        (sent_cookie c) (sent_session c) (vote_optionId (selectedOption p))
        (server_now c) (server_random36 c) (server_production c) in
    let response := fst (fst (run [] (world_store w) (POST is_uuid request))) in
    mkWorld (snd (fst (run [] (world_store w) (POST is_uuid request))))
      (snd (getVisitorId (world_item w) (click_now c) (click_random36 c)))
      (if ok response then
         mkPage (page_poll p) (isLoading p) false (selectedOption p) true
                (Some (selectedOption p))
                (match body response with VoteBody poll => Some poll | _ => None end)
                (page_error p)
       else
         mkPage (page_poll p) (isLoading p) false (selectedOption p) (hasVoted p)
                (selectedOptionId p) (results p)
                (or_else (data_error (body response)) "Failed to cast vote")).
Proof.
  intros Hselected Hpoll Hheader. unfold handleVote.
  apply String.eqb_neq in Hselected. rewrite Hselected, Hpoll.
  destruct (getVisitorId _ _ _) as [visitorId item]. cbn [fst snd] in *.
  rewrite Hheader.
  destruct (run [] (world_store w) _) as [[response s] tr]. reflexivity.
Qed.

(** [handleVote] when the headers refuse the identifier: nothing is sent. *)
Lemma handleVote_throws (is_uuid : string -> bool) (pollId : string) (c : Click)
      (w : World) (poll : PollStats) :
  selectedOption (world_page w) <> "" ->
  page_poll (world_page w) = Some poll ->
  Headers_append (fst (getVisitorId (world_item w) (click_now c) (click_random36 c)))
  = None ->
  handleVote is_uuid pollId c w
  = let p := world_page w in
    mkWorld (world_store w)
      (snd (getVisitorId (world_item w) (click_now c) (click_random36 c)))
      (mkPage (page_poll p) (isLoading p) false (selectedOption p) (hasVoted p)
              (selectedOptionId p) (results p) (type_error c)).
Proof.
  intros Hselected Hpoll Hheader. unfold handleVote.
  apply String.eqb_neq in Hselected. rewrite Hselected, Hpoll.
  destruct (getVisitorId _ _ _) as [visitorId item]. cbn [fst snd] in *.
  now rewrite Hheader.
Qed.

Lemma has_vote_appended (s : Store) (row : VoteRow) (n : nat) :
  has_vote (mkStore (poll_rows s) (option_rows s) (vote_rows s ++ [row]) n)
           (vote_poll_id row) (vote_visitor_id row) = true.
Proof.
  unfold has_vote. cbn [vote_rows]. rewrite existsb_app. simpl.
  rewrite !String.eqb_refl. simpl. now rewrite orb_true_r.
Qed.

Lemma votes_by_has_vote (s : Store) (pollId visitorId : string) :
  has_vote s pollId visitorId = true -> 1 <= votes_by s (pollId, visitorId).
Proof.
  unfold has_vote, votes_by. intros H. apply existsb_exists in H.
  destruct H as [v [Hv He]].
  assert (Hin : In v (filter (fun v => pair_eqb (voter v) (pollId, visitorId))
                             (vote_rows s)))
    by (apply filter_In; split; assumption).
  destruct (filter _ (vote_rows s)); [contradiction | simpl; lia].
Qed.

(** A vote of a visitor who has voted changes nothing and is answered with
    an error, on a well-formed store that refuses nothing. *)
Lemma POST_after_vote (is_uuid : string -> bool) (req : VoteRequest) (s : Store) :
  store_ok s = true ->
  has_vote s (vote_params_id req) (visitor_id_of req) = true ->
  snd (fst (run [] s (POST is_uuid req))) = s
  /\ ok (fst (fst (run [] s (POST is_uuid req)))) = false
  /\ exists message,
       data_error (body (fst (fst (run [] s (POST is_uuid req))))) = Some message
       /\ message <> "".
Proof.
  intros Hok Hvoted.
  pose proof (run_keeps_store_ok (POST is_uuid req) [] s Hok (safe_POST is_uuid req s))
    as Hok'.
  destruct (POST_outcomes is_uuid req s [])
    as [[Hs [Hstatus Hmessage]] | [optionId [_ [Hs _]]]].
  - split; [assumption |]. split; [| assumption].
    unfold ok. simpl in Hstatus.
    destruct Hstatus as [<- | [<- | [<- | [<- | []]]]]; reflexivity.
  - exfalso.
    pose proof (votes_by_unique _ (vote_params_id req, visitor_id_of req) Hok') as Hone.
    rewrite Hs, votes_by_app in Hone.
    pose proof (votes_by_has_vote s _ _ Hvoted) as Hhad.
    simpl in Hone. unfold voter in Hone. simpl in Hone.
    rewrite pair_eqb_refl in Hone. simpl in Hone. lia.
Qed.

(** X16. A browser votes once, unless its identifier is blank.  Let the
    header hold the browser's identifier as a non-empty value (the value
    without its surrounding whitespace).  When a click on "Cast Vote" turns
    the page of a not yet voted poll into the results, the store holds
    exactly one vote of that value on the poll.  From then on a click in
    that browser on any page of the poll, the page as it is or loaded again,
    whatever is selected, leaves the store and the identifier as they are and
    gives the page an error message, which the page shows as its error
    screen; for an option of the poll the message is "You have already voted
    on this poll". *)
Theorem browser_votes_once :
  forall (is_uuid : string -> bool) (pollId : string) (c c' : Click)
         (w w1 w2 : World) (page : Page) (poll : PollStats),
    store_ok (world_store w) = true ->
    hasVoted (world_page w) = false ->
    Headers_append (fst (getVisitorId (world_item w) (click_now c) (click_random36 c)))
    <> Some "" ->
    w1 = handleVote is_uuid pollId c w ->
    hasVoted (world_page w1) = true ->
    page_poll page = Some poll ->
    selectedOption page <> "" ->
    w2 = handleVote is_uuid pollId c' (mkWorld (world_store w1) (world_item w1) page) ->
    (exists id header,
        world_item w1 = Some id
        /\ Headers_append id = Some header
        /\ header = normalize id
        /\ votes_by (world_store w1) (pollId, header) = 1)
    /\ world_store w2 = world_store w1
    /\ world_item w2 = world_item w1
    /\ page_error (world_page w2) <> ""
    /\ hasVoted (world_page w2) = hasVoted page
    /\ (isLoading page = false ->
        view (world_page w2) = ErrorScreen (page_error (world_page w2)))
    /\ (forall o, In o (options_of (world_store w1) pollId) ->
                  selectedOption page = option_id o ->
                  is_uuid (option_id o) = true ->
                  page_error (world_page w2) = "You have already voted on this poll").
Proof.
  intros is_uuid pollId c c' w w1 w2 page poll' Hok Hnot Hblank Hw1 Hvoted
         Hpoll2 Hselected Hw2.
  (* the first click *)
  assert (Hfirst : selectedOption (world_page w) <> ""
                   /\ exists poll, page_poll (world_page w) = Some poll).
  { rewrite Hw1 in Hvoted. unfold handleVote in Hvoted.
    destruct (selectedOption (world_page w) =? "") eqn:He;
      [congruence |].
    destruct (page_poll (world_page w)) as [poll |]; [| congruence].
    split; [now apply String.eqb_neq | now exists poll]. }
  destruct Hfirst as [Hsel [poll Hpoll]].
  destruct (getVisitorId_item (world_item w) (click_now c) (click_random36 c))
    as [Hitem Hid].
  set (id := fst (getVisitorId (world_item w) (click_now c) (click_random36 c))) in *.
  destruct (Headers_append id) as [header |] eqn:Hheader.
  2: { rewrite (handleVote_throws is_uuid pollId c w poll Hsel Hpoll Hheader) in Hw1.
       rewrite Hw1 in Hvoted. cbn [world_page hasVoted] in Hvoted. congruence. }
  assert (Hne : header <> "") by congruence.
  rewrite (handleVote_posts is_uuid pollId c w poll header Hsel Hpoll Hheader) in Hw1.
  cbv zeta in Hw1.
  set (request := mkVoteRequest pollId (Some header) (sent_cookie c) (sent_session c)
                    (vote_optionId (selectedOption (world_page w)))
                    (server_now c) (server_random36 c) (server_production c)) in *.
  assert (Hvisitor : visitor_id_of request = header)
    by (now apply visitor_id_of_header).
  pose proof (run_keeps_store_ok (POST is_uuid request) [] _ Hok
                (safe_POST is_uuid request (world_store w))) as Hok1.
  assert (Hstored : has_vote (world_store w1) pollId header = true
                    /\ store_ok (world_store w1) = true
                    /\ world_item w1 = Some id).
  { rewrite Hw1 in Hvoted |- *. cbn [world_store world_item world_page] in *.
    destruct (ok (fst (fst (run [] (world_store w) (POST is_uuid request))))) eqn:Hokr;
      cbn [hasVoted] in *; [| congruence].
    repeat split; try assumption.
    destruct (POST_outcomes is_uuid request (world_store w) [])
      as [[_ [Hstatus _]] | [optionId [_ [Hs _]]]].
    - exfalso. unfold ok in Hokr. simpl in Hstatus.
      destruct Hstatus as [H | [H | [H | [H | []]]]]; rewrite <- H in Hokr;
        discriminate Hokr.
    - rewrite Hs. rewrite <- Hvisitor.
      apply (has_vote_appended (world_store w)
               (mkVote (gen_random_uuid (uuids (world_store w))) pollId optionId
                       (visitor_id_of request))). }
  destruct Hstored as [Hhas [Hok1' Hitem1]].
  split.
  { exists id, header. split; [assumption |]. split; [exact Hheader |].
    split; [now apply Headers_append_normalize |].
    pose proof (votes_by_unique _ (pollId, header) Hok1').
    pose proof (votes_by_has_vote _ _ _ Hhas). lia. }
  (* the later click *)
  assert (Hheader' : Headers_append
                       (fst (getVisitorId (world_item (mkWorld (world_store w1)
                                                         (world_item w1) page))
                                          (click_now c') (click_random36 c')))
                     = Some header).
  { cbn [world_item]. rewrite Hitem1, (getVisitorId_stored id _ _ Hid). exact Hheader. }
  rewrite (handleVote_posts is_uuid pollId c' _ poll' header) in Hw2;
    [| cbn [world_page]; assumption | cbn [world_page]; assumption | exact Hheader'].
  cbv zeta in Hw2. cbn [world_store world_item world_page] in Hw2.
  rewrite Hitem1, (getVisitorId_stored id _ _ Hid) in Hw2. cbn [fst snd] in Hw2.
  set (request' := mkVoteRequest pollId (Some header) (sent_cookie c') (sent_session c')
                     (vote_optionId (selectedOption page))
                     (server_now c') (server_random36 c') (server_production c')) in *.
  assert (Hvisitor' : visitor_id_of request' = header)
    by (now apply visitor_id_of_header).
  destruct (POST_after_vote is_uuid request' (world_store w1) Hok1')
    as [Hs2 [Hok2 [message [Hmessage Hmne]]]].
  { now rewrite Hvisitor'. }
  assert (Herror : page_error (world_page w2) = message).
  { rewrite Hw2. cbn [world_page]. rewrite Hok2. cbn [page_error].
    rewrite Hmessage. unfold or_else. apply String.eqb_neq in Hmne. now rewrite Hmne. }
  split; [rewrite Hw2; exact Hs2 |].
  split; [rewrite Hw2; cbn [world_item]; now rewrite Hitem1 |].
  split; [now rewrite Herror |].
  split; [rewrite Hw2; cbn [world_page]; now rewrite Hok2 |].
  split.
  { intros Hloaded. unfold view.
    assert (Hl : isLoading (world_page w2) = false)
      by (rewrite Hw2; cbn [world_page]; now rewrite Hok2).
    rewrite Hl, Herror. apply String.eqb_neq in Hmne. now rewrite Hmne. }
  intros o Ho Hselect Huuid.
  unfold options_of in Ho. apply filter_In in Ho. destruct Ho as [Ho Hopoll].
  apply String.eqb_eq in Hopoll.
  assert (Hp : exists p, In p (poll_rows (world_store w1)) /\ poll_id p = pollId).
  { apply store_ok_well_formed in Hok1'.
    pose proof (options_poll Hok1' o Ho) as H. rewrite Hopoll in H.
    apply has_poll_In, in_map_iff in H. destruct H as [p [Hp Hin]]. now exists p. }
  destruct Hp as [p [Hp Hpid]].
  unfold has_vote in Hhas. apply existsb_exists in Hhas.
  destruct Hhas as [v [Hv Hkey]]. apply andb_true_iff in Hkey.
  destruct Hkey as [Hvp Hvv]. apply String.eqb_eq in Hvp, Hvv.
  pose proof (POST_repeated_vote is_uuid request' (world_store w1) p o v Hok1') as Hrun.
  rewrite Hvisitor' in Hrun.
  assert (Hconflict : fst (run [] (world_store w1) (POST is_uuid request'))
                      = (conflict, world_store w1)).
  { apply Hrun; try assumption.
    - unfold request'. cbn [vote_json voteSchema_parse].
      rewrite Hselect. now rewrite Huuid.
    - unfold voter. unfold request'. cbn [vote_params_id]. congruence. }
  rewrite Hw2. cbn [world_page]. rewrite Hconflict.
  reflexivity.
Qed.

(** The browser of the sample votes, loads the page again and votes for
    the other option. *)
Lemma browser_votes_once_witness :
  world_store (handleVote uuid_shape (gen_random_uuid 0) second_click
                 (mkWorld
                    (world_store (handleVote uuid_shape (gen_random_uuid 0) first_click
                                    (mkWorld demo None loaded_page)))
                    (world_item (handleVote uuid_shape (gen_random_uuid 0) first_click
                                   (mkWorld demo None loaded_page)))
                    (setSelectedOption (gen_random_uuid 2) loaded_page)))
  = world_store (handleVote uuid_shape (gen_random_uuid 0) first_click
                   (mkWorld demo None loaded_page)).
Proof.
  refine (proj1 (proj2 (browser_votes_once uuid_shape (gen_random_uuid 0)
                          first_click second_click
                          (mkWorld demo None loaded_page) _ _
                          (setSelectedOption (gen_random_uuid 2) loaded_page) _
                          _ _ _ eq_refl _ _ _ eq_refl))).
  - vm_compute. reflexivity.
  - vm_compute. reflexivity.
  - vm_compute. discriminate.
  - vm_compute. reflexivity.
  - vm_compute. reflexivity.
  - vm_compute. discriminate.
Defined.

(** A browser whose storage holds a blank identifier does not vote once:
    the header reaches the route empty, the route makes up a token for every
    request, and every click records a vote. *)
Example blank_identifier_votes_on_every_click :
  Headers_append " " = Some ""
  /\ List.length (votes_of (world_store blank) (gen_random_uuid 0)) = 1
  /\ hasVoted (world_page (handleVote uuid_shape (gen_random_uuid 0) first_click blank))
     = true
  /\ world_item (handleVote uuid_shape (gen_random_uuid 0) first_click blank) = Some " "
  /\ List.length
       (votes_of (world_store (handleVote uuid_shape (gen_random_uuid 0) first_click
                                 blank))
                 (gen_random_uuid 0)) = 2
  /\ List.length
       (votes_of (world_store
                    (handleVote uuid_shape (gen_random_uuid 0) second_click
                       (handleVote uuid_shape (gen_random_uuid 0) first_click blank)))
                 (gen_random_uuid 0)) = 3.
Proof. vm_compute. repeat split; reflexivity. Qed.

Lemma gen_random_uuid_not_empty (n : nat) : gen_random_uuid n <> "".
Proof. unfold gen_random_uuid. discriminate. Qed.

(** X20. What the poll page shows once it has loaded: the voting form for
    a poll that exists, the error screen "Failed to load poll" for one that
    does not. *)
Theorem page_shows_form_or_load_error :
  forall (s : Store) (pollId : string),
    store_ok s = true ->
    view (fetchPoll (fst (fst (run [] s (GET pollId)))) initial_page)
    = if has_poll s pollId then VotingForm else ErrorScreen "Failed to load poll".
Proof.
  intros s pollId Hok. destruct (has_poll s pollId) eqn:Hp.
  - apply has_poll_In, in_map_iff in Hp. destruct Hp as [p [<- Hin]].
    now rewrite (GET_found s p Hok Hin).
  - unfold GET. rewrite run_Call. cbv zeta. cbn [exec].
    now rewrite (has_poll_false _ _ Hp).
Qed.

Lemma page_shows_form_or_load_error_witness :
  view (fetchPoll (fst (fst (run [] demo (GET (gen_random_uuid 0))))) initial_page)
  = VotingForm
  /\ view (fetchPoll (fst (fst (run [] demo (GET "no-such-poll")))) initial_page)
     = ErrorScreen "Failed to load poll".
Proof.
  split.
  - exact (page_shows_form_or_load_error demo (gen_random_uuid 0) eq_refl).
  - exact (page_shows_form_or_load_error demo "no-such-poll" eq_refl).
Defined.

(** X21. A first vote from the page goes through.  On a well-formed store
    that refuses nothing, with an option of the loaded poll selected, when
    the headers take the browser's identifier and the visitor the route makes
    of it (the value of the header, or a token made up by the route if that
    value is empty) has no vote on the poll yet, a click on "Cast Vote"
    records exactly the vote of that visitor for that option, keeps the
    identifier in the storage and turns the page to the results. *)
Theorem browser_first_vote_shows_results :
  forall (is_uuid : string -> bool) (c : Click) (w : World) (p : PollRow)
         (o : OptionRow) (poll : PollStats) (header visitor : string),
    store_ok (world_store w) = true ->
    In p (poll_rows (world_store w)) ->
    In o (option_rows (world_store w)) ->
    option_poll_id o = poll_id p ->
    is_uuid (option_id o) = true ->
    page_poll (world_page w) = Some poll ->
    selectedOption (world_page w) = option_id o ->
    Headers_append (fst (getVisitorId (world_item w) (click_now c) (click_random36 c)))
    = Some header ->
    visitor = (if header =? ""
               then ("visitor_" ++ decimal (server_now c) ++ "_"
                     ++ substr 2 9 (server_random36 c))%string
               else header) ->
    has_vote (world_store w) (poll_id p) visitor = false ->
    vote_rows (world_store (handleVote is_uuid (poll_id p) c w))
    = vote_rows (world_store w)
      ++ [mkVote (gen_random_uuid (uuids (world_store w))) (poll_id p) (option_id o)
                 visitor]
    /\ world_item (handleVote is_uuid (poll_id p) c w)
       = Some (fst (getVisitorId (world_item w) (click_now c) (click_random36 c)))
    /\ hasVoted (world_page (handleVote is_uuid (poll_id p) c w)) = true
    /\ selectedOptionId (world_page (handleVote is_uuid (poll_id p) c w))
       = Some (option_id o)
    /\ (exists tally, results (world_page (handleVote is_uuid (poll_id p) c w))
                      = Some tally)
    /\ (isLoading (world_page w) = false -> page_error (world_page w) = "" ->
        view (world_page (handleVote is_uuid (poll_id p) c w))
        = ResultsView (results (world_page (handleVote is_uuid (poll_id p) c w)))).
Proof.
  intros is_uuid c w p o poll header visitor Hok Hp Ho Hopoll Huuid Hpoll Hselected
         Hheader Hvisitor Hfresh.
  assert (Hne : selectedOption (world_page w) <> "").
  { rewrite Hselected. apply store_ok_well_formed in Hok.
    pose proof (options_drawn Hok o Ho) as Hd. apply drawn_lt in Hd.
    destruct Hd as [k [_ <-]]. apply gen_random_uuid_not_empty. }
  rewrite (handleVote_posts is_uuid (poll_id p) c w poll header Hne Hpoll Hheader).
  cbv zeta.
  destruct (getVisitorId_item (world_item w) (click_now c) (click_random36 c))
    as [Hitem Hid].
  set (request := mkVoteRequest (poll_id p) (Some header) (sent_cookie c) (sent_session c)
                    (vote_optionId (selectedOption (world_page w)))
                    (server_now c) (server_random36 c) (server_production c)).
  assert (Hof : visitor_id_of request = visitor)
    by (rewrite Hvisitor; reflexivity).
  destruct (POST_first_vote is_uuid request (world_store w) p o Hok) as [tally Hrun];
    try assumption; try reflexivity.
  { unfold request. cbn [vote_json voteSchema_parse]. now rewrite Hselected, Huuid. }
  { now rewrite Hof. }
  rewrite Hof in Hrun.
  destruct (run [] (world_store w) (POST is_uuid request)) as [[response s1] tr].
  cbn [fst snd] in Hrun |- *. injection Hrun as -> ->.
  cbn [world_store world_item world_page vote_rows ok set_cookie json status body
       hasVoted selectedOptionId results isLoading page_error page_poll].
  change (vote_params_id request) with (poll_id p).
  repeat split; try assumption.
  - now rewrite Hselected.
  - now exists tally.
  - intros Hloading Herror. unfold view.
    cbn [isLoading page_error page_poll hasVoted results].
    now rewrite Hloading, Herror, Hpoll.
Qed.

Lemma browser_first_vote_shows_results_witness :
  hasVoted (world_page (handleVote uuid_shape (gen_random_uuid 0) first_click
                          (mkWorld demo None loaded_page))) = true.
Proof.
  refine (proj1 (proj2 (proj2
            (browser_first_vote_shows_results uuid_shape first_click
               (mkWorld demo None loaded_page)
               (mkPoll (gen_random_uuid 0) "user-1" "Best framework?"
                       "2024-01-01T00:00:00Z")
               (mkOption (gen_random_uuid 1) (gen_random_uuid 0) "React" 0)
               _ "visitor_1700000000000_4fzyo82mv" "visitor_1700000000000_4fzyo82mv"
               _ _ _ _ _ _ _ _ _ _)))).
  - vm_compute. reflexivity.
  - vm_compute. left. reflexivity.
  - vm_compute. right. left. reflexivity.
  - reflexivity.
  - vm_compute. reflexivity.
  - vm_compute. reflexivity.
  - vm_compute. reflexivity.
  - vm_compute. reflexivity.
  - vm_compute. reflexivity.
  - vm_compute. reflexivity.
Defined.

(** ** Made-up visitor tokens *)

(** A numeral is read off a string up to the first character that is not a
    digit. *)
Lemma digits_then_underscore (a b x y : string) :
  all_digits a = true -> all_digits b = true ->
  (a ++ "_" ++ x = b ++ "_" ++ y)%string -> a = b /\ x = y.
Proof.
  revert b. induction a as [| c a IH]; intros [| d b] Ha Hb He; simpl in *.
  - injection He as <-. now split.
  - injection He as <- _. discriminate Hb.
  - injection He as -> _. discriminate Ha.
  - apply andb_true_iff in Ha, Hb. destruct Ha as [_ Ha]. destruct Hb as [_ Hb].
    injection He as <- He. destruct (IH b Ha Hb He) as [<- <-]. now split.
Qed.

Lemma made_up_inj (n m : N) (x y : string) :
  ("visitor_" ++ decimal n ++ "_" ++ x = "visitor_" ++ decimal m ++ "_" ++ y)%string ->
  n = m /\ x = y.
Proof.
  intros H. apply append_inv_head in H.
  apply digits_then_underscore in H; try apply all_digits_decimal.
  destruct H as [H <-]. apply decimal_inj in H. now split.
Qed.

(** X17. Two made-up visitor tokens are the same exactly when they were
    made at the same clock reading with the same nine characters of the
    random draw, on the server (a vote without the header) and in the
    browser (an empty storage) alike. *)
Theorem made_up_tokens_differ_by_clock_or_draw :
  (forall a b : VoteRequest,
      fresh_visitor_id a = fresh_visitor_id b
      <-> now a = now b /\ substr 2 9 (random36 a) = substr 2 9 (random36 b))
  /\ (forall (n m : N) (r r' : string),
         fst (getVisitorId None n r) = fst (getVisitorId None m r')
         <-> n = m /\ substr 2 9 r = substr 2 9 r').
Proof.
  split.
  - intros a b. unfold fresh_visitor_id. split.
    + apply made_up_inj.
    + intros [-> ->]. reflexivity.
  - intros n m r r'. unfold getVisitorId. cbn [fst]. split.
    + apply made_up_inj.
    + intros [-> ->]. reflexivity.
Qed.

(** ** The poll forms *)

Lemma length_remove_at {A : Type} (index : nat) (l : list A) :
  List.length (remove_at index l)
  = if (index <? List.length l)%nat then List.length l - 1 else List.length l.
Proof.
  revert index. induction l as [| x l IH]; intros [| i]; simpl; trivial.
  - lia.
  - rewrite IH. change (S i <? S (Datatypes.length l))%nat with (i <? List.length l)%nat.
    destruct (i <? List.length l)%nat eqn:Hi; [| reflexivity].
    apply Nat.ltb_lt in Hi. lia.
Qed.

Lemma act_bounds (fields : list string) (a : FormAction) :
  2 <= List.length fields <= 10 -> 2 <= List.length (act fields a) <= 10.
Proof.
  intros H. destruct a as [| index]; simpl.
  - unfold addOption. destruct (List.length fields <? 10)%nat eqn:Hl; [| assumption].
    apply Nat.ltb_lt in Hl. rewrite length_app. simpl. lia.
  - unfold removeOption. destruct (2 <? List.length fields)%nat eqn:Hl; [| assumption].
    apply Nat.ltb_lt in Hl. rewrite length_remove_at.
    destruct (index <? List.length fields)%nat; lia.
Qed.

(** X18. The poll form never leaves the bounds of the schema on the number
    of options: starting with 2 to 10 option fields, any sequence of "add
    option" and "remove option", at any index, leaves 2 to 10 fields; an
    added field is empty, so that the form with it does not validate. *)
Theorem form_keeps_two_to_ten_options :
  forall (fields : list string) (actions : list FormAction),
    2 <= List.length fields <= 10 ->
    2 <= List.length (fold_left act actions fields) <= 10
    /\ (forall question,
           List.length (fold_left act actions fields) < 10 ->
           editPollSchema_check question
             (addOption (fold_left act actions fields)) = false).
Proof.
  intros fields actions H.
  assert (Hb : 2 <= List.length (fold_left act actions fields) <= 10).
  { revert fields H. induction actions as [| a actions IH]; intros fields H; simpl;
      [assumption |].
    apply IH. now apply act_bounds. }
  split; [assumption |].
  intros question Hl. unfold addOption.
  apply Nat.ltb_lt in Hl. rewrite Hl. unfold editPollSchema_check.
  rewrite forallb_app. simpl. now rewrite !andb_false_r.
Qed.

Lemma form_keeps_two_to_ten_options_witness :
  2 <= List.length (fold_left act [RemoveOption 0; AddOption; RemoveOption 7; AddOption]
                              [""; ""]) <= 10.
Proof.
  apply (form_keeps_two_to_ten_options [""; ""]
           [RemoveOption 0; AddOption; RemoveOption 7; AddOption]).
  simpl. lia.
Defined.

(** ** The application as a whole *)

Lemma DELETE_keeps_store_ok (req : DeleteRequest) (faults : list (option PgError))
      (s : Store) :
  store_ok s = true -> store_ok (snd (DELETE req faults s)) = true.
Proof.
  intros Hok. unfold DELETE.
  destruct (delete_user req) as [user |]; [| assumption].
  pose proof (answer_read (hd None faults) (polls_select_owner (delete_params_id req))
                s eq_refl) as Hs.
  destruct (answer (hd None faults) _ s) as [[[pid owner] | e1] s1];
    cbn [snd] in Hs; subst s1; [| assumption].
  destruct (negb (owner =? user)); [assumption |].
  destruct (hd None (tl faults)); [assumption |].
  cbn [snd]. apply store_ok_well_formed. apply polls_delete_well_formed.
  now apply store_ok_well_formed.
Qed.

Lemma create_keeps_store_ok (req : Polls.CreateRequest) (created_at : string)
      (faults : list (option PgError)) (s : Store) :
  store_ok s = true -> store_ok (snd (Polls.POST req created_at faults s)) = true.
Proof.
  intros Hok. pose proof (proj1 (store_ok_well_formed s) Hok) as Hwf.
  apply store_ok_well_formed. unfold Polls.POST.
  destruct (Polls.create_user req) as [user |]; [| assumption].
  destruct (Polls.createPollSchema_parse (Polls.create_json req))
    as [| | [question texts]]; try assumption.
  destruct (hd None faults) as [e1 |]; [assumption |].
  pose proof (polls_insert_well_formed user question created_at s Hwf) as Hwf1.
  destruct (polls_insert user question created_at s) as [poll s1]. cbn [snd] in Hwf1.
  assert (Hwf2 : well_formed
                   (snd (answer (hd None (tl faults))
                           (options_insert (optionsData (poll_id poll) 0 texts)) s1))).
  { destruct (hd None (tl faults)); cbn [answer snd]; [assumption |].
    now apply exec_well_formed. }
  destruct (answer (hd None (tl faults)) _ s1) as [[u | e2] s2]; cbn [snd] in *;
    [assumption |].
  destruct (hd None (tl (tl faults))); [assumption |].
  now apply polls_delete_well_formed.
Qed.

(** X19. The application keeps its store well formed.  Requests to any of
    the routes (vote, read, edit, delete, create), served one after the
    other and each with whatever the store refuses meanwhile, take a
    well-formed store to a well-formed store: keys stay unique, no visitor
    has two votes on a poll, every option and vote belongs to an existing
    poll, and every vote names an option of its own poll. *)
Theorem application_keeps_store_ok :
  forall (is_uuid : string -> bool)
         (requests : list (AnyRequest * list (option PgError))) (s : Store),
    store_ok s = true ->
    store_ok (fold_left (served is_uuid) requests s) = true.
Proof.
  intros is_uuid requests. induction requests as [| [r faults] requests IH];
    intros s Hok; simpl; [assumption |].
  apply IH. unfold served. cbn [fst snd]. destruct r as [q | req | req created_at].
  - apply run_keeps_store_ok; [assumption | apply safe_handle].
  - now apply DELETE_keeps_store_ok.
  - now apply create_keeps_store_ok.
Qed.

Lemma application_keeps_store_ok_witness :
  store_ok (fold_left (served uuid_shape)
              [(ToCreate create "2024-02-01T00:00:00Z", [None; Some unavailable]);
               (ToPoll (Vote twice), []);
               (ToPoll (Edit edit), insert_refused);
               (ToDelete removal, [])]
              demo) = true.
Proof.
  apply (application_keeps_store_ok uuid_shape). vm_compute. reflexivity.
Defined.
